(** * work-stats: the report pipeline of [main.go]

    A shallow embedding of [main.go]: the spreadsheet reference given on
    the command line, the flat-file sink, the styled-grid builder and the
    two remote spreadsheet modes, followed by the properties of the
    report pipeline proved over it.

    Conventions.
    - Go strings are byte strings: [string].
    - A Go map [map[string]V] is a [gmap string V]; the order in which
      [range] visits a map is left to the runtime (event [MapRange]).
    - A Go slice is a list; the nil slice is [[]].
    - [log.Fatal] and run-time panics end the process: [Fatal], [Panic].
    - Calls that leave the process (files, standard output, the Sheets
      service, the data sources) are events of an interaction tree that
      is inductive: [prog]. *)

From Stdlib Require Import Floats Ascii.
From stdpp Require Import base option list strings pretty gmap fin_maps.

Local Open Scope Z_scope.
Local Open Scope stdpp_scope.

(* The colours of [write] are decimal literals; each stands for the
   nearest [float64]. *)
Set Warnings "-inexact-float".

(** ** Ways a Go process stops early *)

Inductive outcome (A : Type) : Type :=
| Done (a : A)
| Fatal (msg : string)      (* log.Fatal, log.Fatalf: message, exit status 1 *)
| Panic (msg : string).     (* a run-time panic *)
Arguments Done {A} a.
Arguments Fatal {A} msg.
Arguments Panic {A} msg.

Definition outcome_bind {A B} (o : outcome A) (k : A -> outcome B) : outcome B :=
  match o with
  | Done a => k a
  | Fatal m => Fatal m
  | Panic m => Panic m
  end.

Declare Scope outcome_scope.
Delimit Scope outcome_scope with outcome.
Notation "x <- c ;; k" := (outcome_bind c (fun x => k))
  (at level 100, c at next level, right associativity) : outcome_scope.

(** ** Package strings *)

Module Strings.

(** [s[n:]] for [n <= len(s)]. *)
Fixpoint from (n : nat) (s : string) : string :=
  match n, s with
  | O, _ => s
  | S n', String _ s' => from n' s'
  | S _, EmptyString => EmptyString
  end.

(** [s[:n]] for [n <= len(s)]. *)
Fixpoint upto (n : nat) (s : string) : string :=
  match n, s with
  | O, _ => EmptyString
  | S n', String c s' => String c (upto n' s')
  | S _, EmptyString => EmptyString
  end.

(** [len(s) >= len(prefix) && s[0:len(prefix)] == prefix] *)
Definition HasPrefix (s prefix : string) : bool :=
  (String.length prefix <=? String.length s)%nat
  && String.eqb (upto (String.length prefix) s) prefix.

(** [len(s) >= len(suffix) && s[len(s)-len(suffix):] == suffix] *)
Definition HasSuffix (s suffix : string) : bool :=
  (String.length suffix <=? String.length s)%nat
  && String.eqb (from (String.length s - String.length suffix) s) suffix.

Definition TrimPrefix (s prefix : string) : string :=
  if HasPrefix s prefix then from (String.length prefix) s else s.

Definition TrimSuffix (s suffix : string) : string :=
  if HasSuffix s suffix then upto (String.length s - String.length suffix) s else s.

End Strings.

(** ** Package regexp, for the one pattern of [main]

    [re] is [regexp.Compile("/spreadsheets/d/(?P<ID>([a-zA-Z0-9-_]+))")]:
    the literal ["/spreadsheets/d/"] followed by one or more bytes of the
    class, captured by group 1 (named ID) and by group 2 (the inner
    parentheses).  In the class, [a-z], [A-Z] and [0-9] are ranges and
    [-] and [_] stand for themselves.  The pattern is valid, so
    [Compile] returns no error; it holds ASCII only, so matching bytes
    and matching runes agree. *)

Module Regexp.

Definition literal : string := "/spreadsheets/d/".

Definition inClass (c : ascii) : bool :=
  let n := nat_of_ascii c in
  ((97 <=? n) && (n <=? 122) || (65 <=? n) && (n <=? 90)
   || (48 <=? n) && (n <=? 57) || (n =? 45) || (n =? 95))%nat.

(** The longest prefix of [s] made of bytes of the class: what the
    greedy [+] takes. *)
Fixpoint classRun (s : string) : string :=
  match s with
  | EmptyString => EmptyString
  | String c s' => if inClass c then String c (classRun s') else EmptyString
  end.

(** A match that starts at the first byte of [s]: groups 0, 1 and 2. *)
Definition matchAt (s : string) : option (list string) :=
  if Strings.HasPrefix s literal then
    let id := classRun (Strings.from (String.length literal) s) in
    if String.eqb id "" then None else Some [literal +:+ id; id; id]
  else None.

(** [re.FindStringSubmatch(s)]: the groups of the leftmost match, or
    the nil slice when nothing matches. *)
Fixpoint FindStringSubmatch (s : string) : list string :=
  match matchAt s with
  | Some groups => groups
  | None =>
      match s with
      | EmptyString => []
      | String _ s' => FindStringSubmatch s'
      end
  end.

(** [re.SubexpNames()]: the name of group 0 is always empty. *)
Definition SubexpNames : list string := [""; "ID"; ""].

End Regexp.

(** ** Slice indexing *)

Definition index_panic (i len : nat) : string :=
  "runtime error: index out of range [" +:+ pretty i +:+ "] with length " +:+ pretty len.

(** [s[i]]: panics when [i] is out of range. *)
Definition at_index {A} (s : list A) (i : nat) : outcome A :=
  match s !! i with
  | Some x => Done x
  | None => Panic (index_panic i (length s))
  end.

(** ** [main], lines 67-88: the spreadsheet identifier *)

(** The loop [for i, name := range re.SubexpNames()] with the variable
    [spreadsheetID] as its state. *)
Fixpoint subexpLoop (match_ : list string) (i : nat) (names : list string)
    (spreadsheetID : string) : outcome string :=
  match names with
  | [] => Done spreadsheetID
  | name :: names' =>
      (spreadsheetID' <-
         (if String.eqb name "ID" then at_index match_ i else Done spreadsheetID) ;;
       subexpLoop match_ (S i) names' spreadsheetID')%outcome
  end.

Definition spreadsheetIDOf (googleSheetsFlag : string) : outcome string :=
  if negb (String.eqb googleSheetsFlag "new") && negb (String.eqb googleSheetsFlag "") then
    let trimmed := Strings.TrimPrefix googleSheetsFlag "https://docs.google.com" in
    let trimmed := Strings.TrimSuffix trimmed "edit#gid=0" in
    let match_ := Regexp.FindStringSubmatch trimmed in
    (spreadsheetID <- subexpLoop match_ 0 Regexp.SubexpNames "" ;;
     if String.eqb spreadsheetID "" then
       Fatal ("Unable to determine spreadsheet ID for " +:+ googleSheetsFlag)
     else Done spreadsheetID)%outcome
  else Done "".


(** ** Package sheets (google.golang.org/api/sheets/v4)

    The fields [main.go] reads or writes.  A pointer to a struct that the
    program always sets is the struct itself; [BackgroundColor], which is
    set on some cells only, is an [option].  A [float64] is a [float]. *)

Module Sheets.

Record Color := { Blue : float; Green : float; Red : float }.

Record TextFormat := { Bold : bool }.

Record CellFormat := {
  BackgroundColor : option Color;
  CellFormat_TextFormat : TextFormat }.

Record ExtendedValue := { StringValue : string }.

Record CellData := {
  UserEnteredValue : ExtendedValue;
  UserEnteredFormat : CellFormat }.

Record RowData := { Values : list CellData }.

Record GridProperties := { FrozenRowCount : Z }.

Record SheetProperties := {
  Title : string;
  SheetProperties_GridProperties : GridProperties;
  SheetProperties_SheetId : Z }.

Record GridData := { GridData_RowData : list RowData }.

Record Sheet := {
  Sheet_Properties : SheetProperties;
  Data : list GridData }.

Record SpreadsheetProperties := { SpreadsheetProperties_Title : string }.

Record Spreadsheet := {
  Spreadsheet_Properties : SpreadsheetProperties;
  Sheets : list Sheet;
  SpreadsheetId : string;
  SpreadsheetUrl : string }.

Record AddSheetRequest := { AddSheetRequest_Properties : SheetProperties }.

Record AppendCellsRequest := {
  AppendCellsRequest_SheetId : Z;
  Rows : list RowData;
  Fields : string }.

Record DimensionRange := {
  Dimension : string;
  DimensionRange_SheetId : Z }.

Record AutoResizeDimensionsRequest := { Dimensions : DimensionRange }.

(** A [sheets.Request] has one pointer field per kind of request, of
    which one is set. *)
Inductive Request :=
| AddSheet (r : AddSheetRequest)
| AppendCells (r : AppendCellsRequest)
| AutoResizeDimensions (r : AutoResizeDimensionsRequest).

Record BatchUpdateSpreadsheetRequest := {
  IncludeSpreadsheetInResponse : bool;
  Requests : list Request }.

Record BatchUpdateSpreadsheetResponse := { UpdatedSpreadsheet : Spreadsheet }.

End Sheets.
Import Sheets.

(** A table of string cells, [[][]string], and the run accumulator,
    [map[string][]*sheets.RowData]. *)
Abbreviation table := (list (list string)).
Abbreviation accumulator := (gmap string (list RowData)).

(** ** The world outside the process *)

(** A Go [error], by its message. *)
Inductive error := Err (msg : string).

(** An [*os.File], by the name it was created under. *)
Record File := { Name : string }.

(** [time.Time], as far as a calendar date. *)
Record Time := { year : Z; month : Z; day : Z }.

(** The corpus of [godata.Get] is opaque to [main.go]. *)
Inductive Corpus := TheCorpus.

Inductive event : Type -> Type :=
(* the runtime: the order of one [range] over a map *)
| MapRange {V : Type} (m : gmap string V) : event (list (string * V))
(* os, the buffered writer inside csv.Writer, fmt *)
| OsCreate (name : string) : event (error + File)
| BufWrite (f : File) (bytes : string) : event (option error)
| BufFlush (f : File) : event unit
| FileClose (f : File) : event unit
| Printf (text : string) : event unit
(* the Sheets service *)
| SpreadsheetsCreate (s : Spreadsheet) : event (error + Spreadsheet)
| SpreadsheetsBatchUpdate (spreadsheetId : string) (r : BatchUpdateSpreadsheetRequest)
    : event (error + BatchUpdateSpreadsheetResponse)
(* what [main] calls besides *)
| TimeParse (layout value : string) : event (error + Time)
| TempDir (dir pattern : string) : event (error + string)
| GodataGet : event (error + Corpus)
| GolangIssues (c : Corpus) (username : string) (start : Time) : event (error + gmap string table)
| GolangChangelists (c : Corpus) (emails : list string) (start : Time)
    : event (error + gmap string table)
| GithubIssuesAndPRs (username : string) (start : Time) : event (error + gmap string table)
| GoogleSheetsService : event (option error).

(** A program: it returns, stops the process, or performs an event and
    goes on with the answer. *)
Inductive prog (A : Type) : Type :=
| Ret (a : A)
| LogFatal (msg : string)
| RuntimePanic (msg : string)
| Vis {R : Type} (e : event R) (k : R -> prog A).
Arguments Ret {A} a.
Arguments LogFatal {A} msg.
Arguments RuntimePanic {A} msg.
Arguments Vis {A R} e k.

Fixpoint bind {A B} (p : prog A) (k : A -> prog B) : prog B :=
  match p with
  | Ret a => k a
  | LogFatal m => LogFatal m
  | RuntimePanic m => RuntimePanic m
  | Vis e h => Vis e (fun r => bind (h r) k)
  end.

Definition call {R} (e : event R) : prog R := Vis e Ret.

Definition lift {A} (o : outcome A) : prog A :=
  match o with
  | Done a => Ret a
  | Fatal m => LogFatal m
  | Panic m => RuntimePanic m
  end.

Declare Scope prog_scope.
Delimit Scope prog_scope with prog.
Notation "x <- c ;; k" := (bind c (fun x => k))
  (at level 100, c at next level, right associativity) : prog_scope.
Notation "c ;;; k" := (bind c (fun _ => k))
  (at level 100, right associativity) : prog_scope.

(** One answered event of a run. *)
Inductive answered :=
| Answered {R : Type} (e : event R) (r : R).

(** Whatever answers the events: the operating system, the Go runtime
    and the remote services, with a state of their own. *)
Record runtime := {
  world : Type;
  answer : forall R, event R -> world -> R * world }.

(** Running a program: its outcome, the events in the order they were
    performed, and the world it leaves. *)
Fixpoint run {A} (rt : runtime) (p : prog A) (w : world rt)
    : outcome A * list answered * world rt :=
  match p with
  | Ret a => (Done a, [], w)
  | LogFatal m => (Fatal m, [], w)
  | RuntimePanic m => (Panic m, [], w)
  | Vis e k =>
      let '(r, w1) := answer rt _ e w in
      let '(o, log, w2) := run rt (k r) w1 in
      (o, Answered e r :: log, w2)
  end.

Definition outcomeOf {A} (rt : runtime) (p : prog A) (w : world rt) : outcome A :=
  (run rt p w).1.1.
Definition logOf {A} (rt : runtime) (p : prog A) (w : world rt) : list answered :=
  (run rt p w).1.2.
Definition worldOf {A} (rt : runtime) (p : prog A) (w : world rt) : world rt :=
  (run rt p w).2.

(** The runtime keeps Go's promise about [range] over a map: every entry
    is visited once, in some order. *)
Definition range_sound (rt : runtime) : Prop :=
  forall V (m : gmap string V) (w : world rt),
    (answer rt _ (MapRange m) w).1 ≡ₚ map_to_list m.

(** ** Package encoding/csv: the writer

    [csv.NewWriter(file)] with its defaults: [Comma] is [','] and
    [UseCRLF] is false.  Bytes are copied as they are. *)

Module Csv.

Definition LF : ascii := "010"%char.
Definition CR : ascii := "013"%char.
Definition QUOTE : ascii := "034"%char.
Definition COMMA : ascii := ","%char.

Fixpoint anyByte (p : ascii -> bool) (s : string) : bool :=
  match s with
  | EmptyString => false
  | String c s' => p c || anyByte p s'
  end.

(** A byte that forces quotes: the delimiter, a quote, CR or LF. *)
Definition special (c : ascii) : bool :=
  Ascii.eqb c LF || Ascii.eqb c CR || Ascii.eqb c QUOTE || Ascii.eqb c COMMA.

(** [utf8.DecodeRuneInString], the rune only; [RuneError] is U+FFFD. *)
Definition RuneError : N := 65533%N.

Definition continuation (b : N) : bool := ((128 <=? b) && (b <=? 191))%N.

Definition DecodeRune (s : string) : N :=
  match s with
  | EmptyString => RuneError
  | String c0 s1 =>
      let b0 := N_of_ascii c0 in
      if (b0 <? 128)%N then b0
      else if ((194 <=? b0) && (b0 <=? 223))%N then
        match s1 with
        | String c1 _ =>
            let b1 := N_of_ascii c1 in
            if continuation b1
            then N.lor (N.shiftl (N.land b0 31) 6) (N.land b1 63)
            else RuneError
        | _ => RuneError
        end
      else if ((224 <=? b0) && (b0 <=? 239))%N then
        match s1 with
        | String c1 (String c2 _) =>
            let b1 := N_of_ascii c1 in
            let b2 := N_of_ascii c2 in
            let lo := if (b0 =? 224)%N then 160%N else 128%N in
            let hi := if (b0 =? 237)%N then 159%N else 191%N in
            if (lo <=? b1)%N && (b1 <=? hi)%N && continuation b2
            then N.lor (N.shiftl (N.land b0 15) 12)
                   (N.lor (N.shiftl (N.land b1 63) 6) (N.land b2 63))
            else RuneError
        | _ => RuneError
        end
      else if ((240 <=? b0) && (b0 <=? 244))%N then
        match s1 with
        | String c1 (String c2 (String c3 _)) =>
            let b1 := N_of_ascii c1 in
            let b2 := N_of_ascii c2 in
            let b3 := N_of_ascii c3 in
            let lo := if (b0 =? 240)%N then 144%N else 128%N in
            let hi := if (b0 =? 244)%N then 143%N else 191%N in
            if (lo <=? b1)%N && (b1 <=? hi)%N && continuation b2 && continuation b3
            then N.lor (N.shiftl (N.land b0 7) 18)
                   (N.lor (N.shiftl (N.land b1 63) 12)
                      (N.lor (N.shiftl (N.land b2 63) 6) (N.land b3 63)))
            else RuneError
        | _ => RuneError
        end
      else RuneError
  end.

(** [unicode.IsSpace]: the White_Space property. *)
Definition IsSpace (r : N) : bool :=
  ((9 <=? r) && (r <=? 13) || (r =? 32) || (r =? 133) || (r =? 160)
   || (r =? 5760) || (8192 <=? r) && (r <=? 8202)
   || (r =? 8232) || (r =? 8233) || (r =? 8239) || (r =? 8287) || (r =? 12288))%N.

Definition fieldNeedsQuotes (field : string) : bool :=
  if String.eqb field "" then false
  else if String.eqb field "\." then true
  else if anyByte special field then true
  else IsSpace (DecodeRune field).

(** Inside quotes a quote is doubled; every other byte, CR and LF
    included, is written as it is. *)
Fixpoint escape (field : string) : string :=
  match field with
  | EmptyString => EmptyString
  | String c s' =>
      if Ascii.eqb c QUOTE then String QUOTE (String QUOTE (escape s'))
      else String c (escape s')
  end.

Definition encodeField (field : string) : string :=
  if fieldNeedsQuotes field
  then String QUOTE (escape field +:+ String QUOTE EmptyString)
  else field.

(** The fields of a record, a comma before every field but the first. *)
Fixpoint encodeFields (n : nat) (record : list string) : string :=
  match record with
  | [] => EmptyString
  | field :: record' =>
      (if (0 <? n)%nat then String COMMA EmptyString else EmptyString)
      +:+ encodeField field +:+ encodeFields (S n) record'
  end.

(** What [w.Write(record)] hands to its buffered writer. *)
Definition encodeRecord (record : list string) : string :=
  encodeFields 0 record +:+ String LF EmptyString.

(** [w.Write(record)]: the error, if any, is the buffered writer's. *)
Definition Write (file : File) (record : list string) : prog (option error) :=
  call (BufWrite file (encodeRecord record)).

End Csv.

(** ** Package encoding/csv: the reader

    [csv.NewReader(r).ReadAll()] with its defaults ([Comma] is [','], no
    comment byte, [LazyQuotes] and [TrimLeadingSpace] false,
    [FieldsPerRecord] 0), by which a written file is read back.  The Go
    reader takes its input line by line; the same reading is done here
    byte by byte:
    - [readLine] turns the end [\r\n] of a line into [\n] and drops a
      [\r] that ends the input: a CR is skipped when an LF or the end of
      the input follows it;
    - a line that is only [\n] is skipped where a record would start;
    - a field that starts with a quote runs to the closing quote, over
      line ends, a doubled quote standing for one quote; after the
      closing quote a comma, a line end or the end of the input must
      follow;
    - any other field runs to the next comma or line end and must not
      hold a quote;
    - every record must have as many fields as the first one. *)

Module CsvReader.
Import Csv.

Inductive mode :=
| RecordStart     (* at the start of a line, between records *)
| FieldStart      (* at the first byte of a field *)
| Unquoted        (* inside a field that did not start with a quote *)
| Quoted          (* inside quotes *)
| QuoteSeen.      (* inside quotes, just after a quote *)

Record reader := {
  at_ : mode;
  field : string;                (* the bytes of the field being read *)
  fields : list string;          (* the fields of the record being read *)
  records : table }.             (* the records read *)

Definition start : reader :=
  {| at_ := RecordStart; field := ""; fields := []; records := [] |}.

Definition push (c : ascii) (field : string) : string :=
  field +:+ String c EmptyString.

Definition inUnquoted (c : ascii) (field : string) (r : reader) : option reader :=
  if Ascii.eqb c COMMA then
    Some {| at_ := FieldStart; field := ""; fields := fields r ++ [field]; records := records r |}
  else if Ascii.eqb c LF then
    Some {| at_ := RecordStart; field := ""; fields := [];
            records := records r ++ [fields r ++ [field]] |}
  else if Ascii.eqb c QUOTE then None      (* ErrBareQuote *)
  else
    Some {| at_ := Unquoted; field := push c field; fields := fields r; records := records r |}.

Definition atFieldStart (c : ascii) (r : reader) : option reader :=
  if Ascii.eqb c QUOTE then
    Some {| at_ := Quoted; field := ""; fields := fields r; records := records r |}
  else inUnquoted c "" r.

(** One byte that [readLine] did not drop. *)
Definition step (c : ascii) (r : reader) : option reader :=
  match at_ r with
  | RecordStart => if Ascii.eqb c LF then Some r else atFieldStart c r
  | FieldStart => atFieldStart c r
  | Unquoted => inUnquoted c (field r) r
  | Quoted =>
      if Ascii.eqb c QUOTE then
        Some {| at_ := QuoteSeen; field := field r; fields := fields r; records := records r |}
      else
        Some {| at_ := Quoted; field := push c (field r); fields := fields r;
                records := records r |}
  | QuoteSeen =>
      if Ascii.eqb c QUOTE then
        Some {| at_ := Quoted; field := push QUOTE (field r); fields := fields r;
                records := records r |}
      else if Ascii.eqb c COMMA then
        Some {| at_ := FieldStart; field := ""; fields := fields r ++ [field r];
                records := records r |}
      else if Ascii.eqb c LF then
        Some {| at_ := RecordStart; field := ""; fields := [];
                records := records r ++ [fields r ++ [field r]] |}
      else None                            (* ErrQuote *)
  end.

(** What [readLine] drops: a CR before an LF or before the end. *)
Definition dropped (c : ascii) (rest : string) : bool :=
  Ascii.eqb c CR &&
  match rest with
  | EmptyString => true
  | String d _ => Ascii.eqb d LF
  end.

Fixpoint feed (s : string) (r : reader) : option reader :=
  match s with
  | EmptyString => Some r
  | String c s' =>
      if dropped c s' then feed s' r
      else match step c r with
           | Some r' => feed s' r'
           | None => None
           end
  end.

(** The end of the input. *)
Definition finish (r : reader) : option table :=
  match at_ r with
  | RecordStart => Some (records r)
  | FieldStart => Some (records r ++ [fields r ++ [""]])
  | Unquoted | QuoteSeen => Some (records r ++ [fields r ++ [field r]])
  | Quoted => None                         (* ErrQuote *)
  end.

(** [FieldsPerRecord] is 0: the first record sets the number of fields
    of all (ErrFieldCount otherwise). *)
Definition sameFieldCount (t : table) : bool :=
  match t with
  | [] => true
  | first :: rest => forallb (fun record => (length record =? length first)%nat) rest
  end.

(** The records of [s], or [None] for a parse error. *)
Definition ReadAll (s : string) : option table :=
  match feed s start with
  | Some r =>
      match finish r with
      | Some t => if sameFieldCount t then Some t else None
      | None => None
      end
  | None => None
  end.

End CsvReader.

(** The bytes of a whole table, record after record. *)
Fixpoint encodeTable (cells : table) : string :=
  match cells with
  | [] => EmptyString
  | row :: cells' => Csv.encodeRecord row +:+ encodeTable cells'
  end.

(** ** [write], lines 200-240: the styled grid *)

Definition gray96 : Color := {| Blue := 0.96%float; Green := 0.96%float; Red := 0.96%float |}.
Definition gray92 : Color := {| Blue := 0.92%float; Green := 0.92%float; Red := 0.92%float |}.

(** [cd.UserEnteredFormat.BackgroundColor = &c] *)
Definition setBackgroundColor (cd : CellData) (c : Color) : CellData :=
  {| UserEnteredValue := UserEnteredValue cd;
     UserEnteredFormat :=
       {| BackgroundColor := Some c;
          CellFormat_TextFormat := CellFormat_TextFormat (UserEnteredFormat cd) |} |}.

(** A loop [for i, x := range l] that appends one result per element. *)
Fixpoint forRange {A B} (body : nat -> A -> outcome B) (i : nat) (l : list A)
    : outcome (list B) :=
  match l with
  | [] => Done []
  | x :: l' =>
      (y <- body i x ;;
       ys <- forRange body (S i) l' ;;
       Done (y :: ys))%outcome
  end.

(** The body of [for _, cell := range row], in row [i]. *)
Definition styleCell (i : nat) (row : list string) (cell : string) : outcome CellData :=
  (flags <-
     (if (1 <=? length row)%nat then
        (first <- at_index row 0 ;;
         first' <- at_index row 0 ;;
         Done (String.eqb first "Total", String.eqb first' "Subtotal"))
      else Done (false, false)) ;;
   let '(total, subtotal) := flags in
   let cd :=
     {| UserEnteredValue := {| StringValue := cell |};
        UserEnteredFormat :=
          {| BackgroundColor := None;
             CellFormat_TextFormat := {| Bold := (i =? 0)%nat || total || subtotal |} |} |} in
   Done (if subtotal then setBackgroundColor cd gray96
         else if total then setBackgroundColor cd gray92
         else cd))%outcome.

(** The body of [for i, row := range cells]. *)
Definition styleRow (i : nat) (row : list string) : outcome RowData :=
  (values <- forRange (fun _ cell => styleCell i row cell) 0 row ;;
   Done {| Values := values |})%outcome.

(** The styled rows [rd] of one report. *)
Definition buildRows (cells : table) : outcome (list RowData) :=
  forRange styleRow 0 cells.

(** The loop [for title, cells := range data] in the order [entries]. *)
Fixpoint addSheets (entries : list (string * table)) (rowData : accumulator)
    : outcome accumulator :=
  match entries with
  | [] => Done rowData
  | (title, cells) :: entries' =>
      (rd <- buildRows cells ;;
       addSheets entries' (<[title := rd]> rowData))%outcome
  end.

(** ** Package time: [t.Format("01-02-2006")] *)

Module TimeFormat.

Fixpoint zeros (n : nat) : string :=
  match n with
  | O => EmptyString
  | S n' => String "0"%char (zeros n')
  end.

(** [appendInt]: a sign, zeros up to [width], the decimal digits. *)
Definition appendInt (x : Z) (width : nat) : string :=
  let digits := pretty (Z.abs_N x) in
  (if x <? 0 then "-" else "")
  +:+ zeros (width - String.length digits) +:+ digits.

(** Month, day and year, zero-padded to 2, 2 and 4 digits. *)
Definition Format_01_02_2006 (t : Time) : string :=
  appendInt (month t) 2 +:+ "-" +:+ appendInt (day t) 2 +:+ "-" +:+ appendInt (year t) 4.

End TimeFormat.

(** [strings.Split(s, ",")] *)
Fixpoint splitComma (s : string) : list string :=
  match s with
  | EmptyString => [EmptyString]
  | String c s' =>
      if Ascii.eqb c ","%char then EmptyString :: splitComma s'
      else match splitComma s' with
           | piece :: pieces => String c piece :: pieces
           | [] => [String c EmptyString]
           end
  end.

Definition newline : string := String "010"%char EmptyString.

(** [if err != nil { log.Fatal(err) }] *)
Definition orFatal {A} (r : error + A) : prog A :=
  match r with
  | inl (Err msg) => LogFatal msg
  | inr a => Ret a
  end.

Definition fatalIf (err : option error) : prog unit :=
  match err with
  | Some (Err msg) => LogFatal msg
  | None => Ret tt
  end.

(** The command-line flags that [main] reads itself. *)
Record flags := {
  username : string;
  email : string;
  since : string;
  gerritFlag : bool;
  gitHubFlag : bool;
  googleSheetsFlag : string }.

Section Program.

(** [filepath.Join] is taken as it comes. *)
Variable Join : string -> string -> string.

(** *** [write], lines 175-242 *)

(** [for _, row := range cells { if err := writer.Write(row); ... }] *)
Fixpoint writeRows (file : File) (cells : table) : prog (option error) :=
  match cells with
  | [] => Ret None
  | row :: cells' =>
      (err <- Csv.Write file row ;;
       match err with
       | Some e => Ret (Some e)
       | None => writeRows file cells'
       end)%prog
  end.

(** The loop [for filename, cells := range data] of lines 178-195 in
    the order [entries].  Its state is [filenames] and the stack of
    deferred calls, the call deferred last on top; it ends with the
    error that made [write] return, if any. *)
Fixpoint writeFiles (outputDir : string) (entries : list (string * table))
    (filenames : list string) (deferred : list (event unit))
    : prog (option error * list string * list (event unit)) :=
  match entries with
  | [] => Ret (None, filenames, deferred)
  | (filename, cells) :: entries' =>
      let fullpath := Join outputDir (filename +:+ ".csv") in
      (r <- call (OsCreate fullpath) ;;
       match r with
       | inl err => Ret (Some err, filenames, deferred)
       | inr file =>
           let deferred := BufFlush file :: FileClose file :: deferred in
           err <- writeRows file cells ;;
           match err with
           | Some e => Ret (Some e, filenames, deferred)
           | None => writeFiles outputDir entries' (filenames ++ [fullpath]) deferred
           end
       end)%prog
  end.

(** The deferred calls run when [write] returns, last deferred first. *)
Fixpoint runDeferred (deferred : list (event unit)) : prog unit :=
  match deferred with
  | [] => Ret tt
  | e :: deferred' => (call e ;;; runDeferred deferred')%prog
  end.

Fixpoint printFilenames (filenames : list string) : prog unit :=
  match filenames with
  | [] => Ret tt
  | filename :: filenames' =>
      (call (Printf ("Wrote output to " +:+ filename +:+ "." +:+ newline)) ;;;
       printFilenames filenames')%prog
  end.

(** [write] returns its error; the map [rowData] is shared with the
    caller, so the map the caller holds afterwards is returned too. *)
Definition write (outputDir : string) (data : gmap string table) (rowData : accumulator)
    : prog (option error * accumulator) :=
  (entries <- call (MapRange data) ;;
   written <- writeFiles outputDir entries [] [] ;;
   let '(err, filenames, deferred) := written in
   match err with
   | Some e => runDeferred deferred ;;; Ret (Some e, rowData)
   | None =>
       printFilenames filenames ;;;
       entries' <- call (MapRange data) ;;
       match addSheets entries' rowData with
       | Done rowData' => runDeferred deferred ;;; Ret (None, rowData')
       | Panic msg => runDeferred deferred ;;; RuntimePanic msg
       | Fatal msg => LogFatal msg
       end
   end)%prog.

(** *** [createSheet], lines 305-325 *)

Definition newSheet (entry : string * list RowData) : Sheet :=
  {| Sheet_Properties :=
       {| Title := entry.1;
          SheetProperties_GridProperties := {| FrozenRowCount := 1 |};
          SheetProperties_SheetId := 0 |};
     Data := [ {| GridData_RowData := entry.2 |} ] |}.

Definition createSheet (start : Time) (rowData : accumulator) : prog (error + Spreadsheet) :=
  (entries <- call (MapRange rowData) ;;
   let newSheets := newSheet <$> entries in
   let spreadsheet :=
     {| Spreadsheet_Properties :=
          {| SpreadsheetProperties_Title :=
               "Work Stats (as of " +:+ TimeFormat.Format_01_02_2006 start +:+ ")" |};
        Sheets := newSheets;
        SpreadsheetId := "";
        SpreadsheetUrl := "" |} in
   call (SpreadsheetsCreate spreadsheet))%prog.

(** *** [appendToSheet], lines 327-368 *)

Definition createRequest (title : string) : Request :=
  AddSheet {| AddSheetRequest_Properties :=
                {| Title := title;
                   SheetProperties_GridProperties := {| FrozenRowCount := 1 |};
                   SheetProperties_SheetId := 0 |} |}.

(** [rowData[title]]: the nil slice for a title that is not a key. *)
Definition rowsOf (rowData : accumulator) (title : string) : list RowData :=
  default [] (rowData !! title).

Definition dataRequest (rowData : accumulator) (sheet : Sheet) : Request :=
  AppendCells {| AppendCellsRequest_SheetId := SheetProperties_SheetId (Sheet_Properties sheet);
                 Rows := rowsOf rowData (Title (Sheet_Properties sheet));
                 Fields := "*" |}.

Definition appendToSheet (spreadsheetID : string) (rowData : accumulator)
    : prog (error + Spreadsheet) :=
  (entries <- call (MapRange rowData) ;;
   let createRequests := (fun entry => createRequest entry.1) <$> entries in
   r <- call (SpreadsheetsBatchUpdate spreadsheetID
                {| IncludeSpreadsheetInResponse := true; Requests := createRequests |}) ;;
   match r with
   | inl err => Ret (inl err)
   | inr response =>
       let dataRequests := dataRequest rowData <$> Sheets (UpdatedSpreadsheet response) in
       r' <- call (SpreadsheetsBatchUpdate spreadsheetID
                     {| IncludeSpreadsheetInResponse := true; Requests := dataRequests |}) ;;
       match r' with
       | inl err => Ret (inl err)
       | inr response' => Ret (inr (UpdatedSpreadsheet response'))
       end
   end)%prog.

(** *** [main], lines 40-173 *)

(** Lines 53-65. *)
Definition startOf (since : string) : prog Time :=
  if negb (String.eqb since "") then
    (r <- call (TimeParse "2006-01-02" since) ;; orFatal r)%prog
  else Ret {| year := 1900; month := 1; day := 1 |}.

(** [if err := write(ctx, dir, data, rowData); err != nil { log.Fatal(err) }] *)
Definition writeOrFatal (dir : string) (data : gmap string table) (rowData : accumulator)
    : prog accumulator :=
  (result <- write dir data rowData ;;
   fatalIf result.1 ;;;
   Ret result.2)%prog.

(** Lines 99-132: the data sources, one after the other. *)
Definition collect (f : flags) (emails : list string) (start : Time) (dir : string)
    (rowData : accumulator) : prog accumulator :=
  (rowData <-
     (if gerritFlag f then
        corpus <- (r <- call GodataGet ;; orFatal r) ;;
        goIssues <- (r <- call (GolangIssues corpus (username f) start) ;; orFatal r) ;;
        rowData <- writeOrFatal dir goIssues rowData ;;
        goCLs <- (r <- call (GolangChangelists corpus emails start) ;; orFatal r) ;;
        writeOrFatal dir goCLs rowData
      else Ret rowData) ;;
   if gitHubFlag f then
     githubIssues <- (r <- call (GithubIssuesAndPRs (username f) start) ;; orFatal r) ;;
     writeOrFatal dir githubIssues rowData
   else Ret rowData)%prog.

Definition resizeRequest (sheet : Sheet) : Request :=
  AutoResizeDimensions
    {| Dimensions :=
         {| Dimension := "COLUMNS";
            DimensionRange_SheetId := SheetProperties_SheetId (Sheet_Properties sheet) |} |}.

(** Lines 154-172: the columns of every tab are resized to fit. *)
Definition resizeColumns (spreadsheet : Spreadsheet) : prog unit :=
  let requests := resizeRequest <$> Sheets spreadsheet in
  (r <- call (SpreadsheetsBatchUpdate (SpreadsheetId spreadsheet)
                {| IncludeSpreadsheetInResponse := false; Requests := requests |}) ;;
   orFatal r ;;;
   call (Printf ("Wrote data to Google Sheet: " +:+ SpreadsheetUrl spreadsheet +:+ newline)))%prog.

(** Lines 134-172: the remote sink.  The event [GoogleSheetsService]
    marks the call [googleSheetsService(ctx)] of line 138 and is
    answered with the error of that call; the body of the function is
    [Auth.googleSheetsService], and [runWhole] runs it at this place. *)
Definition export (googleSheetsFlag spreadsheetID : string) (start : Time)
    (rowData : accumulator) : prog unit :=
  if String.eqb googleSheetsFlag "" then Ret tt
  else
    (err <- call GoogleSheetsService ;;
     fatalIf err ;;;
     spreadsheet <-
       (if String.eqb googleSheetsFlag "new"
        then r <- createSheet start rowData ;; orFatal r
        else r <- appendToSheet spreadsheetID rowData ;; orFatal r) ;;
     resizeColumns spreadsheet)%prog.

Definition main (f : flags) : prog unit :=
  ((if String.eqb (username f) "" && gitHubFlag f
    then LogFatal "Please provide a GitHub username." else Ret tt) ;;;
   (if String.eqb (email f) "" && gerritFlag f
    then LogFatal "Please provide your Gerrit email." else Ret tt) ;;;
   let emails := splitComma (email f) in
   start <- startOf (since f) ;;
   spreadsheetID <- lift (spreadsheetIDOf (googleSheetsFlag f)) ;;
   dir <- (r <- call (TempDir "" "work-stats") ;; orFatal r) ;;
   rowData <- collect f emails start dir ∅ ;;
   export (googleSheetsFlag f) spreadsheetID start rowData)%prog.

End Program.


(** ** What a run sent to the Sheets service *)

Inductive sheetsCall :=
| CreateCall (s : Spreadsheet) (r : error + Spreadsheet)
| BatchUpdateCall (spreadsheetId : string) (request : BatchUpdateSpreadsheetRequest)
    (r : error + BatchUpdateSpreadsheetResponse).

Definition sheetsCallOf (a : answered) : option sheetsCall :=
  match a with
  | Answered e r =>
      match e in event R return R -> option sheetsCall with
      | SpreadsheetsCreate s => fun r => Some (CreateCall s r)
      | SpreadsheetsBatchUpdate id request => fun r => Some (BatchUpdateCall id request r)
      | _ => fun _ => None
      end r
  end.

(** The calls to the Sheets service in a log, in order. *)
Definition sheetsCalls (log : list answered) : list sheetsCall :=
  omap sheetsCallOf log.

(** The [AppendCells] requests among the requests of the batch updates of
    a log, in order. *)
Definition appendCellsOf (log : list answered) : list AppendCellsRequest :=
  sheetsCalls log ≫= fun c =>
    match c with
    | BatchUpdateCall _ request _ =>
        omap (fun r => match r with AppendCells a => Some a | _ => None end) (Requests request)
    | CreateCall _ _ => []
    end.

(** ** The styled grid in closed form *)

Definition firstCellIs (row : list string) (s : string) : bool :=
  match row with
  | first :: _ => String.eqb first s
  | [] => false
  end.

(** The colour [write] gives the cells of a row. *)
Definition backgroundOf (row : list string) : option Color :=
  if firstCellIs row "Subtotal" then Some gray96
  else if firstCellIs row "Total" then Some gray92
  else None.

Definition styledCell (i : nat) (row : list string) (cell : string) : CellData :=
  {| UserEnteredValue := {| StringValue := cell |};
     UserEnteredFormat :=
       {| BackgroundColor := backgroundOf row;
          CellFormat_TextFormat :=
            {| Bold := (i =? 0)%nat || firstCellIs row "Total" || firstCellIs row "Subtotal" |} |} |}.

Definition styledRows (cells : table) : list RowData :=
  imap (fun i row => {| Values := styledCell i row <$> row |}) cells.

(** The string of a styled cell, and the strings of a styled grid. *)
Definition textOf (cd : CellData) : string := StringValue (UserEnteredValue cd).
Definition textsOf (rd : list RowData) : table := (fun r => textOf <$> Values r) <$> rd.

(** ** The row kinds of the specification

    The specification derives the style of a row from a kind (its
    sections 3 and 4.1); [main.go] has no such function.  [classify]
    follows the specification's words, for comparison with [write]. *)

Module Spec.

Inductive RowKind := Header | Total | Subtotal | Data.

Definition classify (rowIndex : nat) (row : list string) : RowKind :=
  if (rowIndex =? 0)%nat then Header
  else match row with
       | first :: _ =>
           if String.eqb first "Total" then Total
           else if String.eqb first "Subtotal" then Subtotal
           else Data
       | [] => Data
       end.

Definition bold (k : RowKind) : bool :=
  match k with
  | Header | Total | Subtotal => true
  | Data => false
  end.

Definition backgroundColor (k : RowKind) : option Color :=
  match k with
  | Total => Some gray92
  | Subtotal => Some gray96
  | Header | Data => None
  end.

End Spec.

(** ** Reports that survive the flat file

    Every row has as many cells as the first, no row is empty or a single
    empty cell (either is written as an empty line), and no cell holds a
    CR followed by an LF. *)

Fixpoint hasCRLF (s : string) : bool :=
  match s with
  | EmptyString => false
  | String c s' =>
      Ascii.eqb c Csv.CR && match s' with
                            | String d _ => Ascii.eqb d Csv.LF
                            | EmptyString => false
                            end
      || hasCRLF s'
  end.

Definition emptyLine (row : list string) : bool :=
  match row with
  | [] => true
  | [cell] => String.eqb cell ""
  | _ => false
  end.

Definition readable (cells : table) : bool :=
  CsvReader.sameFieldCount cells
  && forallb (fun row => negb (emptyLine row) && forallb (fun cell => negb (hasCRLF cell)) row) cells.

(** ** A runtime to run examples on

    An in-memory file system, a Sheets service with one spreadsheet per
    identifier, and [range] in the order of [map_to_list]. *)

Module Sim.

Record state := {
  disk : gmap string string;        (* the bytes of each file *)
  buffered : gmap string string;    (* bytes written and not yet flushed, per file *)
  refused : list string;            (* names [os.Create] fails on *)
  remote : gmap string Spreadsheet  (* the spreadsheets of the service *) }.

(** [filepath.Join] on a directory and a name that [filepath.Clean]
    leaves as they are; used for examples only. *)
Definition Join (dir name : string) : string := dir +:+ "/" +:+ name.

Definition create (name : string) (w : state) : (error + File) * state :=
  if bool_decide (name ∈ refused w) then
    (inl (Err ("open " +:+ name +:+ ": permission denied")), w)
  else
    (inr {| Name := name |},
     {| disk := <[name := ""]> (disk w);
        buffered := <[name := ""]> (buffered w);
        refused := refused w;
        remote := remote w |}).

Definition bufWrite (f : File) (bytes : string) (w : state) : state :=
  {| disk := disk w;
     buffered := <[Name f := default "" (buffered w !! Name f) +:+ bytes]> (buffered w);
     refused := refused w;
     remote := remote w |}.

Definition flush (f : File) (w : state) : state :=
  {| disk := <[Name f := default "" (disk w !! Name f) +:+ default "" (buffered w !! Name f)]>
               (disk w);
     buffered := <[Name f := ""]> (buffered w);
     refused := refused w;
     remote := remote w |}.

Definition titleOf (sh : Sheet) : string := Title (Sheet_Properties sh).
Definition idOf (sh : Sheet) : Z := SheetProperties_SheetId (Sheet_Properties sh).

(** An identifier above those in use. *)
Definition freshId (tabs : list Sheet) : Z :=
  foldr (fun sh n => Z.max n (idOf sh + 1)) 0 tabs.

Definition rowsIn (sh : Sheet) : list RowData := Data sh ≫= GridData_RowData.

Definition applyRequest (tabs : list Sheet) (r : Request) : error + list Sheet :=
  match r with
  | AddSheet a =>
      let p := AddSheetRequest_Properties a in
      if bool_decide (Title p ∈ titleOf <$> tabs) then
        inl (Err ("a sheet with the name " +:+ Title p +:+ " already exists"))
      else
        inr (tabs ++ [ {| Sheet_Properties :=
                            {| Title := Title p;
                               SheetProperties_GridProperties := SheetProperties_GridProperties p;
                               SheetProperties_SheetId := freshId tabs |};
                          Data := [] |} ])
  | AppendCells a =>
      if bool_decide (AppendCellsRequest_SheetId a ∈ idOf <$> tabs) then
        inr ((fun sh =>
                if bool_decide (idOf sh = AppendCellsRequest_SheetId a)
                then {| Sheet_Properties := Sheet_Properties sh;
                        Data := [ {| GridData_RowData := rowsIn sh ++ Rows a |} ] |}
                else sh) <$> tabs)
      else inl (Err "no sheet with this id")
  | AutoResizeDimensions _ => inr tabs
  end.

Fixpoint applyRequests (tabs : list Sheet) (rs : list Request) : error + list Sheet :=
  match rs with
  | [] => inr tabs
  | r :: rs' =>
      match applyRequest tabs r with
      | inl err => inl err
      | inr tabs' => applyRequests tabs' rs'
      end
  end.

Definition withSheets (s : Spreadsheet) (tabs : list Sheet) : Spreadsheet :=
  {| Spreadsheet_Properties := Spreadsheet_Properties s;
     Sheets := tabs;
     SpreadsheetId := SpreadsheetId s;
     SpreadsheetUrl := SpreadsheetUrl s |}.

Definition setRemote (id : string) (s : Spreadsheet) (w : state) : state :=
  {| disk := disk w; buffered := buffered w; refused := refused w;
     remote := <[id := s]> (remote w) |}.

(** A batch is applied as a whole or not at all. *)
Definition batchUpdate (id : string) (request : BatchUpdateSpreadsheetRequest) (w : state)
    : (error + BatchUpdateSpreadsheetResponse) * state :=
  match remote w !! id with
  | None => (inl (Err "spreadsheet not found"), w)
  | Some s =>
      match applyRequests (Sheets s) (Requests request) with
      | inl err => (inl err, w)
      | inr tabs =>
          let s' := withSheets s tabs in
          (inr {| UpdatedSpreadsheet := s' |}, setRemote id s' w)
      end
  end.

Definition newId : string := "created".

(** The tabs of a new spreadsheet are numbered from 0. *)
Definition createSpreadsheet (s : Spreadsheet) (w : state) : (error + Spreadsheet) * state :=
  let tabs :=
    imap (fun i sh =>
            {| Sheet_Properties :=
                 {| Title := titleOf sh;
                    SheetProperties_GridProperties :=
                      SheetProperties_GridProperties (Sheet_Properties sh);
                    SheetProperties_SheetId := Z.of_nat i |};
               Data := Data sh |}) (Sheets s) in
  let s' :=
    {| Spreadsheet_Properties := Spreadsheet_Properties s;
       Sheets := tabs;
       SpreadsheetId := newId;
       SpreadsheetUrl := "https://docs.google.com/spreadsheets/d/" +:+ newId +:+ "/edit" |} in
  (inr s', setRemote newId s' w).

Definition respond (R : Type) (e : event R) (w : state) : R * state :=
  match e in event R return R * state with
  | MapRange m => (map_to_list m, w)
  | OsCreate name => create name w
  | BufWrite f bytes => (None, bufWrite f bytes w)
  | BufFlush f => (tt, flush f w)
  | FileClose _ => (tt, w)
  | Printf _ => (tt, w)
  | SpreadsheetsCreate s => createSpreadsheet s w
  | SpreadsheetsBatchUpdate id request => batchUpdate id request w
  | TimeParse _ _ => (inr {| year := 2020; month := 1; day := 15 |}, w)
  | TempDir _ _ => (inr "/tmp/work-stats", w)
  | GodataGet => (inr TheCorpus, w)
  | GolangIssues _ _ _ => (inr ∅, w)
  | GolangChangelists _ _ _ => (inr ∅, w)
  | GithubIssuesAndPRs _ _ => (inr ∅, w)
  | GoogleSheetsService => (None, w)
  end.

Definition rt : runtime := {| world := state; answer := respond |}.

(** An empty disk and no spreadsheet. *)
Definition empty : state := {| disk := ∅; buffered := ∅; refused := []; remote := ∅ |}.

(** A spreadsheet ["S"] with the tab every spreadsheet starts with. *)
Definition Sheet1 : Sheet :=
  {| Sheet_Properties :=
       {| Title := "Sheet1";
          SheetProperties_GridProperties := {| FrozenRowCount := 0 |};
          SheetProperties_SheetId := 0 |};
     Data := [] |}.

Definition existing : state :=
  setRemote "S"
    {| Spreadsheet_Properties := {| SpreadsheetProperties_Title := "Stats" |};
       Sheets := [Sheet1];
       SpreadsheetId := "S";
       SpreadsheetUrl := "https://docs.google.com/spreadsheets/d/S/edit" |}
    empty.

End Sim.

(** The report of the append-mode scenario: three rows. *)
Definition githubIssues : table := [["Repo"; "Issues"]; ["x/y"; "2"]; ["Total"; "2"]].


(** ** Spreadsheet references

    An identifier as the pattern takes it, the address of the
    spreadsheet that has it, and what it is for a string to hold a match
    of the pattern: the literal followed by a byte of the class. *)

Fixpoint allBytes (p : ascii -> bool) (s : string) : bool :=
  match s with
  | EmptyString => true
  | String c s' => p c && allBytes p s'
  end.

Definition validId (id : string) : bool :=
  negb (String.eqb id "") && allBytes Regexp.inClass id.

Definition urlOf (id : string) : string :=
  "https://docs.google.com/spreadsheets/d/" +:+ id +:+ "/edit#gid=0".

Definition holdsMatch (s : string) : Prop :=
  exists before c after,
    Regexp.inClass c = true /\ s = before +:+ Regexp.literal +:+ String c after.

(** What is left of the flag when [main] applies the pattern. *)
Definition trimmedOf (googleSheetsFlag : string) : string :=
  Strings.TrimSuffix (Strings.TrimPrefix googleSheetsFlag "https://docs.google.com") "edit#gid=0".

(** A program that always returns: neither [log.Fatal] nor a panic,
    whatever the runtime answers. *)
Definition returns {A} (p : prog A) : Prop :=
  forall (rt : runtime) (w : world rt), exists a, outcomeOf rt p w = Done a.

(** The accumulator after the loop of lines 200-240 over [entries]. *)
Definition withSheetsOf (entries : list (string * table)) (rowData : accumulator) : accumulator :=
  foldl (fun acc entry => <[entry.1 := styledRows entry.2]> acc) rowData entries.

(** ** What the two remote modes send *)

(** The date as the claim has it in the title, written from the
    calendar and not from [time.Format]: the two digits of the month, the
    two digits of the day and the four digits of the year. *)
Module SpecDate.

Definition digit (n : Z) : ascii := ascii_of_N (48 + Z.to_N (n mod 10)).

Definition twoDigits (n : Z) : string :=
  String (digit (n / 10)) (String (digit n) EmptyString).

Definition fourDigits (n : Z) : string :=
  String (digit (n / 1000)) (String (digit (n / 100)) (twoDigits n)).

Definition monthDayYear (t : Time) : string :=
  twoDigits (month t) +:+ "-" +:+ twoDigits (day t) +:+ "-" +:+ fourDigits (year t).

End SpecDate.

(** The dates [main] passes on: the first of January 1900, or what
    [time.Parse] made of the flag, a day of a year from 0 to 9999. *)
Definition calendarDate (t : Time) : bool :=
  (1 <=? month t) && (month t <=? 12) && (1 <=? day t) && (day t <=? 31)
  && (0 <=? year t) && (year t <=? 9999).

(** Create mode: one call, which creates a spreadsheet titled after the
    start date with as many tabs as the accumulator has reports; for
    every report, exactly one tab has its name, and that tab has one
    frozen row and the styled rows of the report as its grid;
    [createSheet] returns the answer of the service. *)
Definition createsOneTabPerReport (rt : runtime) (w : world rt) (start : Time)
    (rowData : accumulator) : Prop :=
  exists spreadsheet r,
    sheetsCalls (logOf rt (createSheet start rowData) w) = [CreateCall spreadsheet r]
    /\ outcomeOf rt (createSheet start rowData) w = Done r
    /\ SpreadsheetProperties_Title (Spreadsheet_Properties spreadsheet)
       = "Work Stats (as of " +:+ SpecDate.monthDayYear start +:+ ")"
    /\ length (Sheets spreadsheet) = size rowData
    /\ forall name rows, rowData !! name = Some rows ->
         filter (fun sheet => Title (Sheet_Properties sheet) = name) (Sheets spreadsheet)
         = [ {| Sheet_Properties :=
                  {| Title := name;
                     SheetProperties_GridProperties := {| FrozenRowCount := 1 |};
                     SheetProperties_SheetId := 0 |};
                Data := [ {| GridData_RowData := rows |} ] |} ].

(** The batch that adds the tab of the report [name]. *)
Definition addTab (name : string) : BatchUpdateSpreadsheetRequest :=
  {| IncludeSpreadsheetInResponse := true;
     Requests :=
       [ AddSheet {| AddSheetRequest_Properties :=
                       {| Title := name;
                          SheetProperties_GridProperties := {| FrozenRowCount := 1 |};
                          SheetProperties_SheetId := 0 |} |} ] |}.

(** The batch that appends after the answer [response] to [addTab]: one
    request for every tab of the spreadsheet in the answer, with the
    identifier of that tab, and with the rows of the report for a tab
    that has its name and no rows for any other tab. *)
Definition appendPerTab (name : string) (rows : list RowData)
    (response : BatchUpdateSpreadsheetResponse) : BatchUpdateSpreadsheetRequest :=
  {| IncludeSpreadsheetInResponse := true;
     Requests :=
       (fun sheet =>
          AppendCells
            {| AppendCellsRequest_SheetId := SheetProperties_SheetId (Sheet_Properties sheet);
               Rows := if decide (Title (Sheet_Properties sheet) = name) then rows else [];
               Fields := "*" |})
       <$> Sheets (UpdatedSpreadsheet response) |}.

(** Append mode with one report in the accumulator: the first call adds
    one tab; if it fails nothing else is sent and its error is returned;
    if it is answered, one more call follows, the batch [appendPerTab]
    of that answer. *)
Definition appendsPerReturnedTab (rt : runtime) (w : world rt) (spreadsheetID name : string)
    (rows : list RowData) : Prop :=
  (exists err,
      sheetsCalls (logOf rt (appendToSheet spreadsheetID {[ name := rows ]}) w)
      = [BatchUpdateCall spreadsheetID (addTab name) (inl err)]
      /\ outcomeOf rt (appendToSheet spreadsheetID {[ name := rows ]}) w = Done (inl err))
  \/ (exists response r,
        sheetsCalls (logOf rt (appendToSheet spreadsheetID {[ name := rows ]}) w)
        = [BatchUpdateCall spreadsheetID (addTab name) (inr response);
           BatchUpdateCall spreadsheetID (appendPerTab name rows response) r]).

(** ** Data for examples *)

(** The reports of the end-to-end scenario. *)
Definition goIssues : table := [["Week"; "Opened"]; ["2020-01-06"; "3"]; ["Total"; "3"]].
Definition goCLs : table := [["Week"; "Mailed"]].
Definition twoReports : gmap string table := {[ "go-issues" := goIssues; "go-cls" := goCLs ]}.

(** An accumulator that holds a report of an earlier batch. *)
Definition earlier : accumulator := {[ "github-issues" := styledRows githubIssues ]}.

(** A disk on which the file of go-cls cannot be created. *)
Definition denying : Sim.state :=
  {| Sim.disk := ∅; Sim.buffered := ∅; Sim.refused := ["/tmp/go-cls.csv"]; Sim.remote := ∅ |}.

(** The reader after a field that ends with the byte [t], a comma or a
    line end, when [fields] are the fields of the record so far. *)
Definition afterField (t : ascii) (fields : list string) (records : table) : CsvReader.reader :=
  if Ascii.eqb t Csv.COMMA then
    {| CsvReader.at_ := CsvReader.FieldStart; CsvReader.field := "";
       CsvReader.fields := fields; CsvReader.records := records |}
  else
    {| CsvReader.at_ := CsvReader.RecordStart; CsvReader.field := "";
       CsvReader.fields := []; CsvReader.records := records ++ [fields] |}.

Definition noCRLF (row : list string) : bool := forallb (fun cell => negb (hasCRLF cell)) row.

(** ** The flat files on the example runtime *)

(** The file of the report [name], under [filepath.Join] as it comes. *)
Definition pathOf (Join : string -> string -> string) (outputDir name : string) : string :=
  Join outputDir (name +:+ ".csv").

Definition fileOf (Join : string -> string -> string) (outputDir : string)
    (entry : string * table) : File :=
  {| Name := pathOf Join outputDir entry.1 |}.

(** No other report of the batch is written to the file of the report
    [name]: [filepath.Join] cleans its result, so two names can give one
    path. *)
Definition ownPath (Join : string -> string -> string) (outputDir : string)
    (data : gmap string table) (name : string) : bool :=
  forallb (fun other =>
             implb (String.eqb (pathOf Join outputDir other) (pathOf Join outputDir name))
                   (String.eqb other name))
          (map_to_list data).*1.

(** The stack of deferred calls after the loop of lines 178-195 went
    through [entries]. *)
Fixpoint pushDeferred (Join : string -> string -> string) (outputDir : string)
    (entries : list (string * table)) (deferred : list (event unit)) : list (event unit) :=
  match entries with
  | [] => deferred
  | entry :: entries' =>
      pushDeferred Join outputDir entries'
        (BufFlush (fileOf Join outputDir entry) :: FileClose (fileOf Join outputDir entry)
         :: deferred)
  end.

(** The world after the writers of [entries] are flushed, last first. *)
Definition flushed (Join : string -> string -> string) (outputDir : string)
    (entries : list (string * table)) (w : Sim.state) : Sim.state :=
  foldr (fun entry w' => Sim.flush (fileOf Join outputDir entry) w') w entries.

(** ** Reading a log *)

(** The events that reach the Sheets service, the set-up of its client
    included. *)
Definition remoteEvent (a : answered) : bool :=
  match a with
  | Answered e _ =>
      match e with
      | SpreadsheetsCreate _ | SpreadsheetsBatchUpdate _ _ | GoogleSheetsService => true
      | _ => false
      end
  end.

(** The events of the start-up, of the data sources and of the flat
    files. *)
Definition collectEvent (a : answered) : bool :=
  match a with
  | Answered e _ =>
      match e with
      | OsCreate _ | BufWrite _ _ | BufFlush _ | FileClose _
      | TimeParse _ _ | TempDir _ _ | GodataGet
      | GolangIssues _ _ _ | GolangChangelists _ _ _ | GithubIssuesAndPRs _ _ => true
      | _ => false
      end
  end.

(** The calls [os.Create(name)] of a log with their answers. *)
Definition createsOf (log : list answered) : list (string * (error + File)) :=
  omap (fun a =>
          match a with
          | Answered e r =>
              match e in event R return R -> option (string * (error + File)) with
              | OsCreate name => fun r => Some (name, r)
              | _ => fun _ => None
              end r
          end) log.

(** The files that were created. *)
Definition createdOf (log : list answered) : list File :=
  omap (fun c => match c.2 with inr f => Some f | inl _ => None end) (createsOf log).

(** The records handed to the writers, with the file of each. *)
Definition writtenOf (log : list answered) : list (File * string) :=
  omap (fun a =>
          match a with
          | Answered e _ =>
              match e with
              | BufWrite f bytes => Some (f, bytes)
              | _ => None
              end
          end) log.

(** The calls to [Flush] and [Close]. *)
Definition closingsOf (log : list answered) : list (event unit) :=
  omap (fun a =>
          match a with
          | Answered e _ =>
              match e with
              | BufFlush f => Some (BufFlush f)
              | FileClose f => Some (FileClose f)
              | _ => None
              end
          end) log.

(** The texts printed. *)
Definition printedOf (log : list answered) : list string :=
  omap (fun a =>
          match a with
          | Answered e _ =>
              match e with
              | Printf text => Some text
              | _ => None
              end
          end) log.

(** The two calls deferred for a file, in the order they run. *)
Definition closers (f : File) : list (event unit) := [BufFlush f; FileClose f].

(** A program all of whose events, in every run, satisfy [P]. *)
Definition emits {A} (P : answered -> bool) (p : prog A) : Prop :=
  forall (rt : runtime) (w : world rt), forallb P (logOf rt p w) = true.

(** A record accepted by the writer of [f], and a deferred call done. *)
Definition okWrite (f : File) (row : list string) : answered :=
  Answered (BufWrite f (Csv.encodeRecord row)) (None : option error).
Definition closed (e : event unit) : answered := Answered e tt.

(** The error of an event, when the event is an [os.Create] or a
    [Write] that failed. *)
Definition failureOf (a : answered) : option error :=
  match a with
  | Answered e r =>
      match e in event R return R -> option error with
      | OsCreate _ => fun r => match r with inl err => Some err | inr _ => None end
      | BufWrite _ _ => fun r => r
      | _ => fun _ => None
      end r
  end.

(** The line [write] prints for a file. *)
Definition wroteOutput (filename : string) : string :=
  "Wrote output to " +:+ filename +:+ "." +:+ newline.

(** The events of the first loop of [write] for one report whose file
    was created as [f] and written in full, and for the reports
    [entries] with the files [files]. *)
Definition segment (Join : string -> string -> string) (outputDir : string)
    (entry : string * table) (f : File) : list answered :=
  Answered (OsCreate (Join outputDir (entry.1 +:+ ".csv"))) (inr f : error + File)
  :: (okWrite f <$> entry.2).

Definition segments (Join : string -> string -> string) (outputDir : string)
    (entries : list (string * table)) (files : list File) : list answered :=
  mjoin (zip_with (segment Join outputDir) entries files).

(** The events of a report at which the first loop failed with [e]:
    its file could not be created, or one of its records could not be
    written; [files] are the files created up to there. *)
Definition failure (Join : string -> string -> string) (outputDir : string)
    (entry : string * table) (e : error) (failing : list answered) (created : list File)
    : Prop :=
  (failing = [Answered (OsCreate (Join outputDir (entry.1 +:+ ".csv"))) (inl e : error + File)]
   /\ created = [])
  \/ (exists f before row after,
        entry.2 = before ++ row :: after
        /\ failing
           = Answered (OsCreate (Join outputDir (entry.1 +:+ ".csv"))) (inr f : error + File)
             :: (okWrite f <$> before)
             ++ [Answered (BufWrite f (Csv.encodeRecord row)) (Some e)]
        /\ created = [f]).

(** The line printed for the file of a report. *)
Definition printedFor (Join : string -> string -> string) (outputDir : string)
    (entry : string * table) : answered :=
  Answered (Printf (wroteOutput (Join outputDir (entry.1 +:+ ".csv")))) tt.

(** A second batch that has the report go-cls again, with a row more. *)
Definition laterReports : gmap string table :=
  {[ "go-cls" := [["Week"; "Mailed"]; ["2020-01-13"; "1"]] ]}.

Definition notRemote (a : answered) : bool := negb (remoteEvent a).
Definition notCollect (a : answered) : bool := negb (collectEvent a).

Definition isTimeParse (a : answered) : bool :=
  match a with
  | Answered e _ =>
      match e with
      | TimeParse _ _ => true
      | _ => false
      end
  end.

(** Flags of a run that appends to the spreadsheet S. *)
Definition appendFlags : flags :=
  {| username := "gopher"; email := "gopher@golang.org"; since := "2020-01-15";
     gerritFlag := true; gitHubFlag := true;
     googleSheetsFlag := "https://docs.google.com/spreadsheets/d/S/edit#gid=0" |}.

(** The batch that adds a tab for each of [names], and the batch that
    appends to every tab of the answer [response] the rows the
    accumulator has under the title of the tab. *)
Definition addTabs (names : list string) : BatchUpdateSpreadsheetRequest :=
  {| IncludeSpreadsheetInResponse := true;
     Requests :=
       (fun name =>
          AddSheet {| AddSheetRequest_Properties :=
                        {| Title := name;
                           SheetProperties_GridProperties := {| FrozenRowCount := 1 |};
                           SheetProperties_SheetId := 0 |} |}) <$> names |}.

Definition appendRows (rowData : accumulator) (response : BatchUpdateSpreadsheetResponse)
    : BatchUpdateSpreadsheetRequest :=
  {| IncludeSpreadsheetInResponse := true;
     Requests :=
       (fun sheet =>
          AppendCells
            {| AppendCellsRequest_SheetId := SheetProperties_SheetId (Sheet_Properties sheet);
               Rows := default [] (rowData !! Title (Sheet_Properties sheet));
               Fields := "*" |})
       <$> Sheets (UpdatedSpreadsheet response) |}.

(** The spreadsheet a call to the service gave back. *)
Definition returnedBy (c : sheetsCall) : option Spreadsheet :=
  match c with
  | CreateCall _ (inr s) => Some s
  | BatchUpdateCall _ _ (inr response) => Some (UpdatedSpreadsheet response)
  | _ => None
  end.

(** The batch that resizes the columns of every tab of [spreadsheet]. *)
Definition resizeAll (spreadsheet : Spreadsheet) : BatchUpdateSpreadsheetRequest :=
  {| IncludeSpreadsheetInResponse := false;
     Requests :=
       (fun sheet =>
          AutoResizeDimensions
            {| Dimensions :=
                 {| Dimension := "COLUMNS";
                    DimensionRange_SheetId :=
                      SheetProperties_SheetId (Sheet_Properties sheet) |} |})
       <$> Sheets spreadsheet |}.

(** ** [googleSheetsService] and [getOauthToken], lines 244-303

    The two functions pass values of the libraries [oauth2], [google] and
    [sheets] from one call to the next and never look inside them: the
    types of these values are left open, as are [os.IsNotExist] and the
    address that [config.AuthCodeURL] computes. *)

Module Auth.

Inductive AuthCodeOption := AccessTypeOffline.

Inductive openFlag := O_RDWR | O_CREATE | O_TRUNC.

Class Libraries := {
  Config : Type;
  Token : Type;
  Service : Type;
  IsNotExist : error -> bool;
  AuthCodeURL : Config -> string -> list AuthCodeOption -> string }.

Section Functions.

Context {L : Libraries}.

Inductive event : Type -> Type :=
(* ioutil, os, fmt *)
| ReadFile (name : string) : event (error + string)
| OsOpen (name : string) : event (error + File)
| OsOpenFile (name : string) (flag : list openFlag) (perm : Z) : event (error + File)
| FileClose (f : File) : event unit
| Printf (text : string) : event unit
| Scan : event (error + string)
(* encoding/json, on a file *)
| JsonDecode (f : File) : event (error + Token)
| JsonEncode (f : File) (tok : Token) : event (option error)
(* google, oauth2, sheets *)
| ConfigFromJSON (b : string) (scope : string) : event (error + Config)
| Exchange (config : Config) (authCode : string) : event (error + Token)
| SheetsNew (config : Config) (tok : Token) : event (error + Service).

(** Neither function stops the program: a run ends with the values
    returned. *)
Inductive prog (A : Type) : Type :=
| Ret (a : A)
| Vis {R : Type} (e : event R) (k : R -> prog A).
Arguments Ret {A} a.
Arguments Vis {A R} e k.

Fixpoint bind {A B} (p : prog A) (k : A -> prog B) : prog B :=
  match p with
  | Ret a => k a
  | Vis e h => Vis e (fun r => bind (h r) k)
  end.

Definition call {R} (e : event R) : prog R := Vis e Ret.

Inductive answered :=
| Answered {R : Type} (e : event R) (r : R).

Record runtime := {
  world : Type;
  answer : forall R, event R -> world -> R * world }.

Fixpoint run {A} (rt : runtime) (p : prog A) (w : world rt) : A * list answered * world rt :=
  match p with
  | Ret a => (a, [], w)
  | Vis e k =>
      let '(r, w1) := answer rt _ e w in
      let '(a, log, w2) := run rt (k r) w1 in
      (a, Answered e r :: log, w2)
  end.

Definition resultOf {A} (rt : runtime) (p : prog A) (w : world rt) : A := (run rt p w).1.1.
Definition logOf {A} (rt : runtime) (p : prog A) (w : world rt) : list answered :=
  (run rt p w).1.2.
Definition worldOf {A} (rt : runtime) (p : prog A) (w : world rt) : world rt := (run rt p w).2.

End Functions.

Arguments Ret {L A} a.
Arguments Vis {L A R} e k.

Declare Scope auth_scope.
Delimit Scope auth_scope with auth.
Notation "x <- c ;; k" := (bind c (fun x => k))
  (at level 100, c at next level, right associativity) : auth_scope.
Notation "c ;;; k" := (bind c (fun _ => k))
  (at level 100, right associativity) : auth_scope.

Section Program.

Context {L : Libraries}.

(** The flags [-credentials] and [-token]. *)
Variables credentialsFile tokenFile : string.

(** Lines 280-281. *)
Definition prompt (authURL : string) : string :=
  "Go to the following link in your browser then type the authorization code: "
  +:+ newline +:+ authURL +:+ newline.

(** Lines 262-303.  The deferred [f.Close()] runs at each [return] that
    comes after it; the permission [0600] is 384. *)
Definition getOauthToken (config : Config) : prog (error + Token) :=
  (opened <- call (OsOpen tokenFile) ;;
   match opened with
   | inr f =>
       decoded <- call (JsonDecode f) ;;
       match decoded with
       | inl err => call (FileClose f) ;;; Ret (inl err)
       | inr tok => call (FileClose f) ;;; Ret (inr tok)
       end
   | inl err =>
       if negb (IsNotExist err) then Ret (inl err)
       else
         let authURL := AuthCodeURL config "state-token" [AccessTypeOffline] in
         call (Printf (prompt authURL)) ;;;
         scanned <- call Scan ;;
         match scanned with
         | inl err => Ret (inl err)
         | inr authCode =>
             exchanged <- call (Exchange config authCode) ;;
             match exchanged with
             | inl err => Ret (inl err)
             | inr tok =>
                 call (Printf ("Saving credential file to: " +:+ tokenFile +:+ newline)) ;;;
                 reopened <- call (OsOpenFile tokenFile [O_RDWR; O_CREATE; O_TRUNC] 384) ;;
                 match reopened with
                 | inl err => Ret (inl err)
                 | inr f =>
                     encoded <- call (JsonEncode f tok) ;;
                     match encoded with
                     | Some err => call (FileClose f) ;;; Ret (inl err)
                     | None => call (FileClose f) ;;; Ret (inr tok)
                     end
                 end
             end
         end
   end)%auth.

Definition scope : string := "https://www.googleapis.com/auth/spreadsheets".

(** Lines 244-260. *)
Definition googleSheetsService : prog (error + Service) :=
  (read <- call (ReadFile credentialsFile) ;;
   match read with
   | inl err => Ret (inl err)
   | inr b =>
       parsed <- call (ConfigFromJSON b scope) ;;
       match parsed with
       | inl err => Ret (inl err)
       | inr config =>
           got <- getOauthToken config ;;
           match got with
           | inl err => Ret (inl err)
           | inr tok => call (SheetsNew config tok)
           end
       end
   end)%auth.

End Program.

(** *** Reading a log *)

Section Logs.

Context {L : Libraries}.

(** The files that were opened, by [os.Open] or by [os.OpenFile]. *)
Definition openedOf (log : list answered) : list File :=
  omap (fun a =>
          match a with
          | Answered e r =>
              match e in event R return R -> option File with
              | OsOpen _ | OsOpenFile _ _ _ =>
                  fun r => match r with inr f => Some f | inl _ => None end
              | _ => fun _ => None
              end r
          end) log.

(** The files that were closed. *)
Definition closedOf (log : list answered) : list File :=
  omap (fun a =>
          match a with
          | Answered e _ =>
              match e with
              | FileClose f => Some f
              | _ => None
              end
          end) log.

(** The events of the authorization flow: the user is addressed, the
    token is asked of the network and saved. *)
Definition authorizes (a : answered) : bool :=
  match a with
  | Answered e _ =>
      match e with
      | Printf _ | Scan | Exchange _ _ | OsOpenFile _ _ _ | JsonEncode _ _ => true
      | _ => false
      end
  end.

(** The error an event was answered with. *)
Definition errorOf (a : answered) : option error :=
  match a with
  | Answered e r =>
      match e in event R return R -> option error with
      | ReadFile _ | OsOpen _ | OsOpenFile _ _ _ | Scan =>
          fun r => match r with inl err => Some err | inr _ => None end
      | JsonDecode _ | Exchange _ _ =>
          fun r => match r with inl err => Some err | inr _ => None end
      | ConfigFromJSON _ _ =>
          fun r => match r with inl err => Some err | inr _ => None end
      | SheetsNew _ _ =>
          fun r => match r with inl err => Some err | inr _ => None end
      | JsonEncode _ _ => fun r => r
      | FileClose _ | Printf _ => fun _ => None
      end r
  end.

Definition isClose (a : answered) : bool :=
  match a with
  | Answered e _ => match e with FileClose _ => true | _ => false end
  end.

End Logs.

(** *** A runtime to run the two functions on

    Tokens, credentials and services are texts.  The world holds the
    content of the credentials file and of the token file, if they
    exist, and what the user will type. *)

#[export] Instance simLibraries : Libraries := {|
  Config := string;
  Token := string;
  Service := string;
  IsNotExist := fun err => match err with Err msg => String.eqb msg "file does not exist" end;
  AuthCodeURL := fun config state _ => "https://accounts/" +:+ config +:+ "?state=" +:+ state |}.

Record simWorld := {
  credentials : option string;
  token : option string;
  typed : string }.

Definition simAnswer (R : Type) (e : event R) (w : simWorld) : R * simWorld :=
  match e in event R return R * simWorld with
  | ReadFile _ =>
      (match credentials w with
       | Some b => inr b
       | None => inl (Err "file does not exist")
       end, w)
  | OsOpen name =>
      (match token w with
       | Some _ => inr {| Name := name |}
       | None => inl (Err "file does not exist")
       end, w)
  | OsOpenFile name _ _ => (inr {| Name := name |}, w)
  | FileClose _ => (tt, w)
  | Printf _ => (tt, w)
  | Scan => (inr (typed w), w)
  | JsonDecode _ =>
      (match token w with
       | Some tok => inr tok
       | None => inl (Err "EOF")
       end, w)
  | JsonEncode _ tok =>
      (None, {| credentials := credentials w; token := Some tok; typed := typed w |})
  | ConfigFromJSON b _ => (inr b, w)
  | Exchange config authCode => (inr ("token of " +:+ authCode), w)
  | SheetsNew config tok => (inr ("service of " +:+ tok), w)
  end.

Definition sim : runtime := {| world := simWorld; answer := simAnswer |}.

(** The first run: credentials, no token yet. *)
Definition firstRun : simWorld :=
  {| credentials := Some "secret"; token := None; typed := "4/0Ab" |}.

(** No credentials file. *)
Definition noCredentials : simWorld :=
  {| credentials := None; token := None; typed := "" |}.

(** The configuration of the first run and the token it ends with. *)
Definition firstConfig : Config (Libraries := simLibraries) := "secret".
Definition firstToken : Token (Libraries := simLibraries) := "token of 4/0Ab".

End Auth.

(** ** The whole program

    In [export] the event [GoogleSheetsService] stands for the call
    [googleSheetsService(ctx)] of line 138.  [runWhole] runs the body of
    that function, [Auth.googleSheetsService], where the event stands:
    one state answers the events of both, and the log holds the events
    of both in the order they happen. *)

Section Whole.

Context {L : Auth.Libraries}.

(** The flags [-credentials] and [-token]. *)
Variables credentialsFile tokenFile : string.

(** An event of [main] and of the functions modelled with it, or an
    event of [googleSheetsService] and [getOauthToken]. *)
Inductive step :=
| Main (a : answered)
| InService (a : Auth.answered).

(** What answers both kinds of events, on one state. *)
Record machine := {
  mstate : Type;
  answerMain : forall R, event R -> mstate -> R * mstate;
  answerService : forall R, Auth.event R -> mstate -> R * mstate }.

Definition mainOf (m : machine) : runtime :=
  {| world := mstate m; answer := answerMain m |}.

Definition serviceOf (m : machine) : Auth.runtime :=
  {| Auth.world := mstate m; Auth.answer := answerService m |}.

(** [main] tests the error of [googleSheetsService]; the service is the
    receiver of the later calls, which are events of their own. *)
Definition errOf {S} (r : error + S) : option error :=
  match r with
  | inl err => Some err
  | inr _ => None
  end.

Fixpoint runWhole {A} (m : machine) (p : prog A) (w : mstate m)
    : outcome A * list step * mstate m :=
  match p with
  | Ret a => (Done a, [], w)
  | LogFatal msg => (Fatal msg, [], w)
  | RuntimePanic msg => (Panic msg, [], w)
  | Vis e k =>
      match e in event R return (R -> prog A) -> outcome A * list step * mstate m with
      | GoogleSheetsService => fun k =>
          let '(r, serviceLog, w1) :=
            Auth.run (serviceOf m) (Auth.googleSheetsService credentialsFile tokenFile) w in
          let '(o, log, w2) := runWhole m (k (errOf r)) w1 in
          (o, (InService <$> serviceLog) ++ log, w2)
      | e' => fun k =>
          let '(r, w1) := answerMain m _ e' w in
          let '(o, log, w2) := runWhole m (k r) w1 in
          (o, Main (Answered e' r) :: log, w2)
      end k
  end.

Definition outcomeWhole {A} (m : machine) (p : prog A) (w : mstate m) : outcome A :=
  (runWhole m p w).1.1.
Definition logWhole {A} (m : machine) (p : prog A) (w : mstate m) : list step :=
  (runWhole m p w).1.2.
Definition worldWhole {A} (m : machine) (p : prog A) (w : mstate m) : mstate m :=
  (runWhole m p w).2.

(** The call of line 138. *)
Definition serviceCall (a : answered) : bool :=
  match a with
  | Answered e _ =>
      match e with
      | GoogleSheetsService => true
      | _ => false
      end
  end.

Definition notServiceCall (a : answered) : bool := negb (serviceCall a).

(** Of [main], the calls to the Sheets service and the lines printed. *)
Definition sheetsPhase (a : answered) : bool := notCollect a && notServiceCall a.

(** The steps of the second phase of [main]: those of
    [googleSheetsService], and of [main] the calls to the Sheets service
    and the lines printed. *)
Definition exportStep (s : step) : bool :=
  match s with
  | Main a => sheetsPhase a
  | InService _ => true
  end.

(** No step at all. *)
Definition noStep (s : step) : bool := false.

(** A program whose whole runs have two phases: events of [main] that
    satisfy [P], then steps that satisfy [Q]. *)
Definition wholeThen {A} (P : answered -> bool) (Q : step -> bool) (p : prog A) : Prop :=
  forall (m : machine) (w : mstate m),
    exists pre post,
      logWhole m p w = (Main <$> pre) ++ post
      /\ forallb P pre = true /\ forallb Q post = true.

End Whole.

(** Lines 139-172: [main] after the call of line 138 returned [err]. *)
Definition afterService (err : option error) (googleSheetsFlag spreadsheetID : string)
    (start : Time) (rowData : accumulator) : prog unit :=
  (fatalIf err ;;;
   spreadsheet <-
     (if String.eqb googleSheetsFlag "new"
      then r <- createSheet start rowData ;; orFatal r
      else r <- appendToSheet spreadsheetID rowData ;; orFatal r) ;;
   resizeColumns spreadsheet)%prog.

(** * Properties *)

(** ** The styled grid *)

Lemma styleCell_Done (i : nat) (row : list string) (cell : string) :
  styleCell i row cell = Done (styledCell i row cell).
Proof.
  unfold styleCell, styledCell, backgroundOf, firstCellIs.
  destruct row as [|first row']; [reflexivity|]. simpl.
  destruct (String.eqb first "Subtotal"), (String.eqb first "Total"); reflexivity.
Qed.

Lemma forRange_Done {A B} (body : nat -> A -> outcome B) (f : nat -> A -> B) (l : list A) :
  (forall i x, body i x = Done (f i x)) ->
  forall k, forRange body k l = Done (imap (fun i => f (k + i)%nat) l).
Proof.
  intros Hbody. induction l as [|x l IH]; intros k; simpl; [reflexivity|].
  rewrite Hbody, IH. simpl. rewrite Nat.add_0_r. do 2 f_equal.
  apply imap_ext. intros i y _. simpl. f_equal. lia.
Qed.

Lemma styleRow_Done (i : nat) (row : list string) :
  styleRow i row = Done {| Values := styledCell i row <$> row |}.
Proof.
  unfold styleRow.
  rewrite (forRange_Done _ (fun _ cell => styledCell i row cell)) by (intros; apply styleCell_Done).
  simpl. do 2 f_equal. apply list_eq. intros j.
  by rewrite list_lookup_imap, list_lookup_fmap.
Qed.

Lemma buildRows_Done (cells : table) : buildRows cells = Done (styledRows cells).
Proof.
  unfold buildRows, styledRows.
  rewrite (forRange_Done _ (fun i row => {| Values := styledCell i row <$> row |}))
    by (intros; apply styleRow_Done).
  reflexivity.
Qed.

Lemma styledRows_lookup (cells : table) (i : nat) :
  styledRows cells !! i = (fun row => {| Values := styledCell i row <$> row |}) <$> cells !! i.
Proof. unfold styledRows. apply list_lookup_imap. Qed.

Lemma textsOf_styledRows (cells : table) : textsOf (styledRows cells) = cells.
Proof.
  unfold textsOf, styledRows. apply list_eq. intros i.
  rewrite list_lookup_fmap, list_lookup_imap.
  destruct (cells !! i) as [row|]; simpl; [|reflexivity]. f_equal.
  rewrite <- list_fmap_compose. apply list_fmap_id.
Qed.

Lemma gray92_neq_gray96 : gray92 <> gray96.
Proof.
  intros H. apply (f_equal (fun c => PrimFloat.eqb (Blue c) (Blue gray92))) in H.
  vm_compute in H. discriminate.
Qed.

(** C8.  Building the styled cells never fails, whatever the shape of
    the rows: [row[0]] is read behind the test [len(row) >= 1] only, so
    no row, a row without cells included, makes the index run out of
    range.  A row without cells yields a styled row without cells, so
    nothing in it is bold or has a background colour. *)
Theorem empty_row_is_safe (cells : table) (i : nat) (row : list string) (cell : string) :
  (exists cd, styleCell i row cell = Done cd)
  /\ styleRow i [] = Done {| Values := [] |}
  /\ (exists rd, buildRows cells = Done rd
        /\ length rd = length cells
        /\ forall k, cells !! k = Some [] -> rd !! k = Some {| Values := [] |}).
Proof.
  split; [|split].
  - eexists. apply styleCell_Done.
  - reflexivity.
  - exists (styledRows cells). split; [apply buildRows_Done|]. split.
    + unfold styledRows. apply length_imap.
    + intros k Hk. rewrite styledRows_lookup, Hk. reflexivity.
Qed.

(** C6.  The styled grid has the shape and the strings of the report:
    as many rows, in each row as many cells, and each styled cell holds
    the string of the cell at its place, in the same order; so for a
    report of one row and for Total and Subtotal rows anywhere. *)
Theorem styled_grid_keeps_structure (cells : table) :
  exists rd, buildRows cells = Done rd
    /\ textsOf rd = cells
    /\ length rd = length cells
    /\ (forall i, (fun r => length (Values r)) <$> rd !! i = length <$> cells !! i)
    /\ (forall i j, (rd !! i ≫= fun r => textOf <$> Values r !! j) = (cells !! i ≫= fun row => row !! j)).
Proof.
  exists (styledRows cells). split; [apply buildRows_Done|].
  split; [apply textsOf_styledRows|]. split; [apply length_imap|]. split.
  - intros i. rewrite styledRows_lookup. destruct (cells !! i); simpl; [|reflexivity].
    by rewrite length_fmap.
  - intros i j. rewrite styledRows_lookup. destruct (cells !! i) as [row|]; simpl; [|reflexivity].
    rewrite list_lookup_fmap. by destruct (row !! j).
Qed.

(** C2, as the claim has it, fails on a header row whose first cell is
    "Total": the specification calls the row a Header, which has no
    background colour, and [write] colours its cells. *)
Lemma header_total_gets_background :
  exists rd r cd,
    buildRows [["Total"; "Count"]] = Done rd
    /\ rd !! 0%nat = Some r /\ Values r !! 1%nat = Some cd
    /\ Spec.classify 0 ["Total"; "Count"] = Spec.Header
    /\ BackgroundColor (UserEnteredFormat cd) = Some gray92
    /\ BackgroundColor (UserEnteredFormat cd)
       <> Spec.backgroundColor (Spec.classify 0 ["Total"; "Count"]).
Proof.
  do 3 eexists. repeat split; try reflexivity. simpl. discriminate.
Qed.

(** C2, amended.  Every styled cell is bold exactly when its row is a
    Header (index 0), a Total or a Subtotal row.  Its background colour
    depends on the first cell of its row alone, at every index: 0.96 for
    "Subtotal", 0.92 for "Total", none otherwise; the two colours
    differ.  So after row 0 the colour is the one of the row's kind, and
    a header row has no colour unless its first cell is "Total" or
    "Subtotal". *)
Theorem cell_style_of_row (cells : table) (i j : nat) (row : list string) (cell : string)
    (Hrow : cells !! i = Some row) (Hcell : row !! j = Some cell) :
  exists rd r cd,
    buildRows cells = Done rd /\ rd !! i = Some r /\ Values r !! j = Some cd
    /\ Bold (CellFormat_TextFormat (UserEnteredFormat cd)) = Spec.bold (Spec.classify i row)
    /\ BackgroundColor (UserEnteredFormat cd) = backgroundOf row
    /\ (i <> 0%nat ->
        BackgroundColor (UserEnteredFormat cd) = Spec.backgroundColor (Spec.classify i row))
    /\ (firstCellIs row "Total" = false -> firstCellIs row "Subtotal" = false ->
        BackgroundColor (UserEnteredFormat cd) = None)
    /\ gray92 <> gray96.
Proof.
  exists (styledRows cells), {| Values := styledCell i row <$> row |}, (styledCell i row cell).
  split; [apply buildRows_Done|].
  split; [by rewrite styledRows_lookup, Hrow|].
  split; [simpl; by rewrite list_lookup_fmap, Hcell|].
  assert (Hkind : forall first row', row = first :: row' ->
            firstCellIs row "Total" = String.eqb first "Total"
            /\ firstCellIs row "Subtotal" = String.eqb first "Subtotal")
    by (intros ? ? ->; done).
  repeat split.
  - simpl. unfold Spec.classify. destruct i; [reflexivity|]. simpl.
    destruct row as [|first row']; [reflexivity|]. simpl.
    destruct (String.eqb first "Total") eqn:HT; [reflexivity|].
    by destruct (String.eqb first "Subtotal").
  - intros Hi. simpl. unfold backgroundOf, Spec.classify.
    destruct i; [done|]. simpl.
    destruct row as [|first row']; [reflexivity|]. simpl.
    destruct (String.eqb first "Subtotal") eqn:HS.
    + apply String.eqb_eq in HS as ->. reflexivity.
    + by destruct (String.eqb first "Total").
  - intros HT HS. simpl. unfold backgroundOf. by rewrite HS, HT.
  - apply gray92_neq_gray96.
Qed.

Lemma cell_style_of_row_witness :
  exists rd r cd,
    buildRows githubIssues = Done rd /\ rd !! 2%nat = Some r /\ Values r !! 1%nat = Some cd
    /\ Bold (CellFormat_TextFormat (UserEnteredFormat cd))
       = Spec.bold (Spec.classify 2 ["Total"; "2"])
    /\ BackgroundColor (UserEnteredFormat cd) = backgroundOf ["Total"; "2"]
    /\ (2%nat <> 0%nat ->
        BackgroundColor (UserEnteredFormat cd)
        = Spec.backgroundColor (Spec.classify 2 ["Total"; "2"]))
    /\ (firstCellIs ["Total"; "2"] "Total" = false ->
        firstCellIs ["Total"; "2"] "Subtotal" = false ->
        BackgroundColor (UserEnteredFormat cd) = None)
    /\ gray92 <> gray96.
Proof.
  apply (cell_style_of_row githubIssues 2 1 ["Total"; "2"] "2"); reflexivity.
Defined.

(** ** Strings *)

Lemma append_cons (x : ascii) (a b : string) : String x a +:+ b = String x (a +:+ b).
Proof. reflexivity. Qed.

Lemma append_nil (b : string) : "" +:+ b = b.
Proof. reflexivity. Qed.

Lemma append_assoc (a b c : string) : (a +:+ b) +:+ c = a +:+ (b +:+ c).
Proof.
  induction a as [|x a IH]; [reflexivity|]. rewrite !append_cons. by rewrite IH.
Qed.

Lemma append_empty_r (a : string) : a +:+ "" = a.
Proof. induction a as [|x a IH]; [reflexivity|]. rewrite append_cons. by rewrite IH. Qed.

Lemma length_append (a b : string) :
  String.length (a +:+ b) = (String.length a + String.length b)%nat.
Proof.
  induction a as [|x a IH]; [reflexivity|]. rewrite append_cons. simpl. by rewrite IH.
Qed.

Lemma upto_append (a b : string) : Strings.upto (String.length a) (a +:+ b) = a.
Proof.
  induction a as [|x a IH]; [by destruct b|]. rewrite append_cons. simpl. by rewrite IH.
Qed.

Lemma from_append (a b : string) : Strings.from (String.length a) (a +:+ b) = b.
Proof. induction a as [|x a IH]; [reflexivity|]. rewrite append_cons. simpl. exact IH. Qed.

Lemma upto_from (n : nat) (s : string) : Strings.upto n s +:+ Strings.from n s = s.
Proof.
  revert s. induction n as [|n IH]; intros [|c s]; simpl; try reflexivity.
  rewrite append_cons. by rewrite IH.
Qed.

Lemma HasPrefix_append (p rest : string) : Strings.HasPrefix (p +:+ rest) p = true.
Proof.
  unfold Strings.HasPrefix. rewrite upto_append, String.eqb_refl, length_append.
  rewrite andb_true_r. apply Nat.leb_le. lia.
Qed.

Lemma HasPrefix_inv (s p : string) :
  Strings.HasPrefix s p = true -> s = p +:+ Strings.from (String.length p) s.
Proof.
  unfold Strings.HasPrefix. intros [_ H%String.eqb_eq]%andb_true_iff.
  rewrite <- H at 1. symmetry. apply upto_from.
Qed.

Lemma TrimPrefix_append (p rest : string) : Strings.TrimPrefix (p +:+ rest) p = rest.
Proof. unfold Strings.TrimPrefix. by rewrite HasPrefix_append, from_append. Qed.

Lemma TrimSuffix_append (a suffix : string) : Strings.TrimSuffix (a +:+ suffix) suffix = a.
Proof.
  unfold Strings.TrimSuffix, Strings.HasSuffix. rewrite length_append.
  replace (String.length a + String.length suffix - String.length suffix)%nat
    with (String.length a) by lia.
  rewrite from_append, upto_append, String.eqb_refl, andb_true_r.
  by replace (String.length suffix <=? String.length a + String.length suffix)%nat
    with true by (symmetry; apply Nat.leb_le; lia).
Qed.

(** ** The pattern *)

Lemma classRun_valid (id rest : string) (c : ascii) :
  allBytes Regexp.inClass id = true -> Regexp.inClass c = false ->
  Regexp.classRun (id +:+ String c rest) = id.
Proof.
  intros Hid Hc. induction id as [|x id IH]; simpl in *; [by rewrite Hc|].
  apply andb_true_iff in Hid as [-> Hid]. by rewrite IH.
Qed.

Lemma matchAt_literal (rest : string) :
  Regexp.matchAt (Regexp.literal +:+ rest)
  = if String.eqb (Regexp.classRun rest) "" then None
    else Some [Regexp.literal +:+ Regexp.classRun rest; Regexp.classRun rest; Regexp.classRun rest].
Proof. unfold Regexp.matchAt. by rewrite HasPrefix_append, from_append. Qed.

Lemma classRun_empty (s : string) :
  String.eqb (Regexp.classRun s) "" = false <->
  exists c s', s = String c s' /\ Regexp.inClass c = true.
Proof.
  destruct s as [|c s]; simpl.
  - split; [discriminate|]. by intros (? & ? & ? & _).
  - destruct (Regexp.inClass c) eqn:Hc; simpl.
    + split; [eauto|reflexivity].
    + split; [discriminate|]. intros (? & ? & [= <- <-] & ?). congruence.
Qed.

(** [matchAt] finds a match exactly when the literal and a byte of the
    class stand at the front. *)
Lemma matchAt_None (s : string) :
  Regexp.matchAt s = None <->
  ~ exists c after, Regexp.inClass c = true /\ s = Regexp.literal +:+ String c after.
Proof.
  unfold Regexp.matchAt. destruct (Strings.HasPrefix s Regexp.literal) eqn:Hp.
  - apply HasPrefix_inv in Hp.
    destruct (String.eqb (Regexp.classRun _) "") eqn:Hrun.
    + split; [|reflexivity]. intros _ (c & after & Hc & Hs).
      rewrite Hs, from_append in Hrun. simpl in Hrun. by rewrite Hc in Hrun.
    + split; [discriminate|]. intros Hno. exfalso. apply Hno.
      apply classRun_empty in Hrun as (c & s' & Hs' & Hc).
      exists c, s'. split; [done|]. by rewrite <- Hs'.
  - split; [|reflexivity]. intros _ (c & after & _ & ->).
    by rewrite HasPrefix_append in Hp.
Qed.

Lemma matchAt_Some (s : string) (groups : list string) :
  Regexp.matchAt s = Some groups ->
  exists id, String.eqb id "" = false /\ groups = [Regexp.literal +:+ id; id; id].
Proof.
  unfold Regexp.matchAt. destruct (Strings.HasPrefix s Regexp.literal); [|discriminate].
  destruct (String.eqb (Regexp.classRun _) "") eqn:Hrun; [discriminate|].
  intros [= <-]. eauto.
Qed.

(** [FindStringSubmatch] returns the nil slice exactly for the strings
    that hold no match of the pattern. *)
Lemma FindStringSubmatch_nil (s : string) :
  Regexp.FindStringSubmatch s = [] <-> ~ holdsMatch s.
Proof.
  induction s as [|x s IH]; simpl.
  - change (Regexp.matchAt "") with (@None (list string)). split; [|reflexivity].
    intros _ (before & c & after & _ & H). by destruct before.
  - destruct (Regexp.matchAt (String x s)) as [groups|] eqn:Hm.
    + apply matchAt_Some in Hm as Hg. destruct Hg as (id & _ & ->).
      split; [discriminate|]. intros Hno. exfalso.
      assert (Regexp.matchAt (String x s) <> None) as Hne by congruence.
      apply Hne, matchAt_None. intros (c & after & Hc & Hs). apply Hno.
      exists "", c, after. by split.
    + rewrite IH. apply matchAt_None in Hm. split.
      * intros Hno (before & c & after & Hc & Hs). destruct before as [|y before].
        -- apply Hm. eauto.
        -- injection Hs as -> ->. apply Hno. by exists before, c, after.
      * intros Hno (before & c & after & Hc & ->). apply Hno.
        by exists (String x before), c, after.
Qed.

Lemma FindStringSubmatch_here (s : string) (groups : list string) :
  Regexp.matchAt s = Some groups -> Regexp.FindStringSubmatch s = groups.
Proof. intros H. destruct s; cbn [Regexp.FindStringSubmatch]; by rewrite H. Qed.

Lemma FindStringSubmatch_groups (s : string) :
  Regexp.FindStringSubmatch s = []
  \/ exists id, String.eqb id "" = false
       /\ Regexp.FindStringSubmatch s = [Regexp.literal +:+ id; id; id].
Proof.
  induction s as [|x s IH]; simpl.
  - by left.
  - destruct (Regexp.matchAt (String x s)) as [groups|] eqn:Hm; [|exact IH].
    right. by apply matchAt_Some in Hm.
Qed.

(** ** The spreadsheet reference *)

Lemma subexpLoop_groups (whole id inner : string) :
  subexpLoop [whole; id; inner] 0 Regexp.SubexpNames "" = Done id.
Proof. reflexivity. Qed.

Lemma subexpLoop_nil : subexpLoop [] 0 Regexp.SubexpNames "" = Panic (index_panic 1 0).
Proof. reflexivity. Qed.

Lemma spreadsheetIDOf_url (flag : string) :
  String.eqb flag "new" = false -> String.eqb flag "" = false ->
  spreadsheetIDOf flag =
    (spreadsheetID <- subexpLoop (Regexp.FindStringSubmatch (trimmedOf flag)) 0
                        Regexp.SubexpNames "" ;;
     if String.eqb spreadsheetID "" then
       Fatal ("Unable to determine spreadsheet ID for " +:+ flag)
     else Done spreadsheetID)%outcome.
Proof. intros Hnew Hempty. unfold spreadsheetIDOf. by rewrite Hnew, Hempty. Qed.

Lemma trimmedOf_url (id : string) :
  trimmedOf (urlOf id) = Regexp.literal +:+ id +:+ "/".
Proof.
  unfold trimmedOf, urlOf.
  change ("https://docs.google.com/spreadsheets/d/" +:+ id +:+ "/edit#gid=0")
    with ("https://docs.google.com" +:+ Regexp.literal +:+ id +:+ "/" +:+ "edit#gid=0").
  rewrite TrimPrefix_append.
  rewrite <- (append_assoc id), <- (append_assoc Regexp.literal).
  apply TrimSuffix_append.
Qed.

(** C3.  The claim fails on the code by a slip: when nothing in the
    reference matches the pattern, [match] is the nil slice and
    [match[i]] at the group named ID panics before the test that leads to
    [log.Fatalf] is reached.  So every reference other than "" and "new"
    that holds no match ends in a run-time panic, [main] with it stops
    by that panic (shown for a run that passes the checks of the other
    flags and has no start date to parse), and no reference at all ends
    in the fatal configuration error. *)
Theorem no_match_panics (reference : string)
    (Hnew : reference <> "new") (Hempty : reference <> "")
    (Hno : ~ holdsMatch (trimmedOf reference)) :
  spreadsheetIDOf reference
  = Panic "runtime error: index out of range [1] with length 0"
  /\ (forall (Join : string -> string -> string) (rt : runtime) (w : world rt) (f : flags),
        googleSheetsFlag f = reference -> since f = "" ->
        String.eqb (username f) "" && gitHubFlag f = false ->
        String.eqb (email f) "" && gerritFlag f = false ->
        run rt (main Join f) w
        = (Panic "runtime error: index out of range [1] with length 0", [], w))
  /\ forall flag msg, spreadsheetIDOf flag <> Fatal msg.
Proof.
  assert (spreadsheetIDOf reference
          = Panic "runtime error: index out of range [1] with length 0") as Hpanic.
  { rewrite spreadsheetIDOf_url by (by apply String.eqb_neq).
    apply FindStringSubmatch_nil in Hno. rewrite Hno. reflexivity. }
  split; [exact Hpanic|]. split.
  - intros Join rt w f Hflag Hsince Huser Hemail. unfold main, startOf.
    rewrite Huser, Hemail, Hsince, Hflag, Hpanic. reflexivity.
  - intros flag msg. unfold spreadsheetIDOf.
    destruct (negb (String.eqb flag "new") && negb (String.eqb flag "")); [|discriminate].
    fold (trimmedOf flag).
    destruct (FindStringSubmatch_groups (trimmedOf flag)) as [->|(id & Hid & ->)].
    + discriminate.
    + rewrite subexpLoop_groups. simpl. rewrite Hid. discriminate.
Qed.

Lemma no_match_panics_witness :
  spreadsheetIDOf "my-sheet" = Panic "runtime error: index out of range [1] with length 0"
  /\ (forall (Join : string -> string -> string) (rt : runtime) (w : world rt) (f : flags),
        googleSheetsFlag f = "my-sheet" -> since f = "" ->
        String.eqb (username f) "" && gitHubFlag f = false ->
        String.eqb (email f) "" && gerritFlag f = false ->
        run rt (main Join f) w
        = (Panic "runtime error: index out of range [1] with length 0", [], w))
  /\ forall flag msg, spreadsheetIDOf flag <> Fatal msg.
Proof.
  apply (no_match_panics "my-sheet");
    [discriminate | discriminate | apply FindStringSubmatch_nil; reflexivity].
Defined.

(** C4.  The reference "" leaves the identifier empty and the remote
    sink does nothing; "new" leaves it empty and the sink creates a
    spreadsheet; the address of a spreadsheet gives the identifier in it,
    to which the sink appends.  The address with the identifier
    ABC123xyz_- gives ABC123xyz_-. *)
Theorem reference_modes (id : string) (Hid : validId id = true) :
  (spreadsheetIDOf "" = Done ""
   /\ forall spreadsheetID start rowData, export "" spreadsheetID start rowData = Ret tt)
  /\ (spreadsheetIDOf "new" = Done ""
      /\ forall spreadsheetID start rowData,
           export "new" spreadsheetID start rowData
           = (err <- call GoogleSheetsService ;;
              fatalIf err ;;;
              spreadsheet <- (r <- createSheet start rowData ;; orFatal r) ;;
              resizeColumns spreadsheet)%prog)
  /\ (spreadsheetIDOf (urlOf id) = Done id
      /\ forall start rowData,
           export (urlOf id) id start rowData
           = (err <- call GoogleSheetsService ;;
              fatalIf err ;;;
              spreadsheet <- (r <- appendToSheet id rowData ;; orFatal r) ;;
              resizeColumns spreadsheet)%prog)
  /\ spreadsheetIDOf "https://docs.google.com/spreadsheets/d/ABC123xyz_-/edit#gid=0"
     = Done "ABC123xyz_-".
Proof.
  apply andb_true_iff in Hid as [Hne Hclass]. apply negb_true_iff in Hne.
  repeat split; try reflexivity.
  rewrite spreadsheetIDOf_url by reflexivity.
  rewrite trimmedOf_url, (FindStringSubmatch_here _ [Regexp.literal +:+ id; id; id]).
  - rewrite subexpLoop_groups. simpl. by rewrite Hne.
  - rewrite matchAt_literal, (classRun_valid id "" "/") by done. by rewrite Hne.
Qed.

Lemma reference_modes_witness :
  (spreadsheetIDOf "" = Done ""
   /\ forall spreadsheetID start rowData, export "" spreadsheetID start rowData = Ret tt)
  /\ (spreadsheetIDOf "new" = Done ""
      /\ forall spreadsheetID start rowData,
           export "new" spreadsheetID start rowData
           = (err <- call GoogleSheetsService ;;
              fatalIf err ;;;
              spreadsheet <- (r <- createSheet start rowData ;; orFatal r) ;;
              resizeColumns spreadsheet)%prog)
  /\ (spreadsheetIDOf (urlOf "ABC123xyz_-") = Done "ABC123xyz_-"
      /\ forall start rowData,
           export (urlOf "ABC123xyz_-") "ABC123xyz_-" start rowData
           = (err <- call GoogleSheetsService ;;
              fatalIf err ;;;
              spreadsheet <- (r <- appendToSheet "ABC123xyz_-" rowData ;; orFatal r) ;;
              resizeColumns spreadsheet)%prog)
  /\ spreadsheetIDOf "https://docs.google.com/spreadsheets/d/ABC123xyz_-/edit#gid=0"
     = Done "ABC123xyz_-".
Proof. apply (reference_modes "ABC123xyz_-"). reflexivity. Defined.

(** ** Runs *)

Lemma run_bind {A B} (rt : runtime) (p : prog A) (k : A -> prog B) (w : world rt) :
  run rt (bind p k) w =
    match run rt p w with
    | (Done a, log, w1) =>
        let '(o, log', w2) := run rt (k a) w1 in (o, log ++ log', w2)
    | (Fatal m, log, w1) => (Fatal m, log, w1)
    | (Panic m, log, w1) => (Panic m, log, w1)
    end.
Proof.
  revert w. induction p as [a|m|m|R e h IH]; intros w; simpl.
  - by destruct (run rt (k a) w) as [[o log'] w2].
  - reflexivity.
  - reflexivity.
  - destruct (answer rt R e w) as [r w1]. rewrite IH.
    destruct (run rt (h r) w1) as [[[a|m|m] log] w2]; try reflexivity.
    by destruct (run rt (k a) w2) as [[o log'] w3].
Qed.

Lemma run_call {R} (rt : runtime) (e : event R) (w : world rt) :
  run rt (call e) w =
    (Done (answer rt R e w).1, [Answered e (answer rt R e w).1], (answer rt R e w).2).
Proof. unfold call. simpl. by destruct (answer rt R e w). Qed.

Lemma runDeferred_Done (rt : runtime) (deferred : list (event unit)) (w : world rt) :
  outcomeOf rt (runDeferred deferred) w = Done tt.
Proof.
  unfold outcomeOf. revert w. induction deferred as [|e deferred IH]; intros w; simpl; [done|].
  destruct (answer rt unit e w) as [[] w1]. simpl.
  specialize (IH w1). by destruct (run rt (runDeferred deferred) w1) as [[o log] w2].
Qed.

(** ** [write] and the accumulator *)

Ltac run_step :=
  rewrite run_bind;
  let o := fresh "o" in let log := fresh "log" in let w := fresh "w" in
  destruct (run _ _ _) as [[o log] w]; destruct o; simpl.

(** How [write] can return: with an error and the accumulator as it
    was, or without an error and the accumulator that the loop of lines
    200-240 leaves, run over the entries in an order the runtime gave. *)
Lemma write_returns (Join : string -> string -> string) (rt : runtime) (w : world rt)
    (outputDir : string) (data : gmap string table) (rowData rowData' : accumulator)
    (err : option error) :
  outcomeOf rt (write Join outputDir data rowData) w = Done (err, rowData') ->
  (err <> None /\ rowData' = rowData)
  \/ (err = None
      /\ exists w', addSheets (answer rt _ (MapRange data) w').1 rowData = Done rowData').
Proof.
  unfold outcomeOf, write. rewrite run_bind, run_call. simpl.
  destruct (answer rt _ (MapRange data) w) as [entries w1]. simpl.
  run_step; try discriminate.
  destruct a as [[[e|] filenames] deferred].
  - run_step; try discriminate. intros [= <- <-]. by left.
  - run_step; try discriminate.
    destruct (answer rt _ (MapRange data) w2) as [entries' w3] eqn:Hanswer.
    assert (entries' = (answer rt _ (MapRange data) w2).1) as Hentries by (by rewrite Hanswer).
    destruct (addSheets entries' rowData) as [acc|m|m] eqn:Hadd.
    + run_step; try discriminate. intros [= <- <-]. right. split; [done|].
      exists w2. by rewrite <- Hentries.
    + discriminate.
    + run_step; discriminate.
Qed.

Lemma returns_Ret {A} (a : A) : returns (Ret a).
Proof. intros rt w. by exists a. Qed.

Lemma returns_Vis {A R} (e : event R) (k : R -> prog A) :
  (forall r, returns (k r)) -> returns (Vis e k).
Proof.
  intros Hk rt w. unfold outcomeOf. simpl.
  destruct (answer rt R e w) as [r w1].
  destruct (Hk r rt w1) as [a Ha]. unfold outcomeOf in Ha.
  destruct (run rt (k r) w1) as [[o log] w2]. simpl in *. eauto.
Qed.

Lemma returns_bind {A B} (p : prog A) (k : A -> prog B) :
  returns p -> (forall a, returns (k a)) -> returns (bind p k).
Proof.
  intros Hp Hk rt w. unfold outcomeOf. rewrite run_bind.
  destruct (Hp rt w) as [a Ha]. unfold outcomeOf in Ha.
  destruct (run rt p w) as [[o log] w1]. simpl in Ha. subst o.
  destruct (Hk a rt w1) as [b Hb]. unfold outcomeOf in Hb.
  destruct (run rt (k a) w1) as [[o log'] w2]. simpl in *. eauto.
Qed.

Lemma returns_writeRows (file : File) (cells : table) : returns (writeRows file cells).
Proof.
  induction cells as [|row cells IH]; simpl; [apply returns_Ret|].
  apply returns_Vis. intros [e|]; [apply returns_Ret|apply IH].
Qed.

Lemma returns_writeFiles (Join : string -> string -> string) (outputDir : string)
    (entries : list (string * table)) (filenames : list string) (deferred : list (event unit)) :
  returns (writeFiles Join outputDir entries filenames deferred).
Proof.
  revert filenames deferred.
  induction entries as [|[filename cells] entries IH]; intros filenames deferred; simpl;
    [apply returns_Ret|].
  apply returns_Vis. intros [err|file]; [apply returns_Ret|].
  apply returns_bind; [apply returns_writeRows|]. intros [e|]; [apply returns_Ret|apply IH].
Qed.

Lemma returns_runDeferred (deferred : list (event unit)) : returns (runDeferred deferred).
Proof.
  induction deferred as [|e deferred IH]; simpl; [apply returns_Ret|].
  apply returns_Vis. intros _. apply IH.
Qed.

Lemma returns_printFilenames (filenames : list string) : returns (printFilenames filenames).
Proof.
  induction filenames as [|filename filenames IH]; simpl; [apply returns_Ret|].
  apply returns_Vis. intros _. apply IH.
Qed.

Lemma addSheets_Done (entries : list (string * table)) (rowData : accumulator) :
  addSheets entries rowData = Done (withSheetsOf entries rowData).
Proof.
  revert rowData. induction entries as [|[title cells] entries IH]; intros rowData; simpl;
    [reflexivity|].
  rewrite buildRows_Done. simpl. apply IH.
Qed.

(** [write] always returns to its caller. *)
Lemma returns_write (Join : string -> string -> string) (outputDir : string)
    (data : gmap string table) (rowData : accumulator) :
  returns (write Join outputDir data rowData).
Proof.
  unfold write. apply returns_Vis. intros entries.
  apply returns_bind; [apply returns_writeFiles|]. intros [[[e|] filenames] deferred].
  - apply returns_bind; [apply returns_runDeferred|]. intros _. apply returns_Ret.
  - apply returns_bind; [apply returns_printFilenames|]. intros _.
    apply returns_Vis. intros entries'.
    rewrite addSheets_Done.
    apply returns_bind; [apply returns_runDeferred|]. intros _. apply returns_Ret.
Qed.

Lemma withSheetsOf_notin (entries : list (string * table)) (rowData : accumulator)
    (name : string) :
  name ∉ entries.*1 -> withSheetsOf entries rowData !! name = rowData !! name.
Proof.
  revert rowData. induction entries as [|[title cells] entries IH]; intros rowData Hnot;
    [reflexivity|].
  simpl in *. apply not_elem_of_cons in Hnot as [Hne Hnot].
  unfold withSheetsOf in *. simpl. rewrite IH by done. by rewrite lookup_insert_ne.
Qed.

Lemma withSheetsOf_in (entries : list (string * table)) (rowData : accumulator)
    (name : string) (cells : table) :
  NoDup entries.*1 -> (name, cells) ∈ entries ->
  withSheetsOf entries rowData !! name = Some (styledRows cells).
Proof.
  revert rowData. induction entries as [|[title cells'] entries IH]; intros rowData Hnd Hin.
  - by apply elem_of_nil in Hin.
  - simpl in Hnd. apply NoDup_cons in Hnd as [Hnot Hnd].
    apply elem_of_cons in Hin as [[= <- <-]|Hin].
    + change (withSheetsOf entries (<[name := styledRows cells]> rowData) !! name
              = Some (styledRows cells)).
      rewrite withSheetsOf_notin by done. apply lookup_insert_eq.
    + by apply (IH (<[title := styledRows cells']> rowData)).
Qed.

Lemma range_entries (rt : runtime) (Hrt : range_sound rt) {V} (m : gmap string V)
    (w : world rt) (name : string) :
  NoDup (answer rt _ (MapRange m) w).1.*1
  /\ (forall v, (name, v) ∈ (answer rt _ (MapRange m) w).1 <-> m !! name = Some v)
  /\ (name ∈ (answer rt _ (MapRange m) w).1.*1 <-> is_Some (m !! name)).
Proof.
  pose proof (Hrt V m w) as Hperm.
  split; [|split].
  - rewrite Hperm. apply NoDup_fst_map_to_list.
  - intros v. rewrite Hperm. apply elem_of_map_to_list.
  - rewrite Hperm. rewrite list_elem_of_fmap. split.
    + intros ([k v] & -> & Hin). apply elem_of_map_to_list in Hin. eauto.
    + intros [v Hv]. exists (name, v). split; [done|]. by apply elem_of_map_to_list.
Qed.

(** C9.  [write] always returns, and when it returns an error the
    accumulator is the one it was called with: every error comes from
    creating or writing a flat file, and styled rows are put into the
    accumulator only after all flat files of the batch are written. *)
Theorem write_error_leaves_accumulator (Join : string -> string -> string) (rt : runtime)
    (w : world rt) (outputDir : string) (data : gmap string table)
    (rowData rowData' : accumulator) (e : error)
    (Herr : outcomeOf rt (write Join outputDir data rowData) w = Done (Some e, rowData')) :
  rowData' = rowData /\ returns (write Join outputDir data rowData).
Proof.
  split; [|apply returns_write].
  apply write_returns in Herr as [[_ ->]|[[=] _]]. reflexivity.
Qed.

(** C10.  When [write] returns without an error, the accumulator is
    changed at the report names of the batch only: the entry of every
    other name is as before.  A report name of the batch holds the
    styled rows of its report. *)
Theorem write_changes_batch_names_only (Join : string -> string -> string) (rt : runtime)
    (Hrt : range_sound rt) (w : world rt) (outputDir : string) (data : gmap string table)
    (rowData rowData' : accumulator)
    (Hok : outcomeOf rt (write Join outputDir data rowData) w = Done (None, rowData')) :
  (forall name, data !! name = None -> rowData' !! name = rowData !! name)
  /\ (forall name cells, data !! name = Some cells ->
        exists rd, buildRows cells = Done rd /\ rowData' !! name = Some rd).
Proof.
  apply write_returns in Hok as [[[] _]|[_ [w' Hadd]]]; [done|].
  rewrite addSheets_Done in Hadd. injection Hadd as <-.
  split.
  - intros name Hname. apply withSheetsOf_notin.
    rewrite (proj2 (proj2 (range_entries rt Hrt data w' name))), Hname.
    by intros [? [=]].
  - intros name cells Hname. exists (styledRows cells). split; [apply buildRows_Done|].
    destruct (range_entries rt Hrt data w' name) as (Hnd & Hin & _).
    apply withSheetsOf_in; [done|]. by apply Hin.
Qed.

Lemma write_error_leaves_accumulator_witness :
  outcomeOf Sim.rt (write Sim.Join "/tmp" twoReports earlier) denying
  = Done (Some (Err "open /tmp/go-cls.csv: permission denied"), earlier)
  /\ earlier = earlier
  /\ returns (write Sim.Join "/tmp" twoReports earlier).
Proof.
  split; [vm_compute; reflexivity|].
  apply (write_error_leaves_accumulator Sim.Join Sim.rt denying "/tmp" twoReports earlier earlier
           (Err "open /tmp/go-cls.csv: permission denied")).
  vm_compute; reflexivity.
Defined.

Lemma write_changes_batch_names_only_witness :
  outcomeOf Sim.rt (write Sim.Join "/tmp" twoReports earlier) Sim.empty
  = Done (None, <["go-issues" := styledRows goIssues]>
                  (<["go-cls" := styledRows goCLs]> earlier))
  /\ (forall name, twoReports !! name = None ->
        (<["go-issues" := styledRows goIssues]> (<["go-cls" := styledRows goCLs]> earlier))
          !! name = earlier !! name)
  /\ (forall name cells, twoReports !! name = Some cells ->
        exists rd, buildRows cells = Done rd
          /\ (<["go-issues" := styledRows goIssues]> (<["go-cls" := styledRows goCLs]> earlier))
               !! name = Some rd).
Proof.
  split; [vm_compute; reflexivity|].
  apply (write_changes_batch_names_only Sim.Join Sim.rt
           (fun V m w => reflexivity _) Sim.empty "/tmp" twoReports earlier).
  vm_compute; reflexivity.
Defined.

(** ** The remote sink *)

Lemma filter_title_none (entries : list (string * list RowData)) (name : string) :
  name ∉ entries.*1 ->
  filter (fun sheet => Title (Sheet_Properties sheet) = name) (newSheet <$> entries) = [].
Proof.
  induction entries as [|[title rows] entries IH]; intros Hnot; [reflexivity|].
  simpl in Hnot. apply not_elem_of_cons in Hnot as [Hne Hnot].
  rewrite fmap_cons, filter_cons_False by (simpl; congruence). by apply IH.
Qed.

Lemma filter_title_one (entries : list (string * list RowData)) (name : string)
    (rows : list RowData) :
  NoDup entries.*1 -> (name, rows) ∈ entries ->
  filter (fun sheet => Title (Sheet_Properties sheet) = name) (newSheet <$> entries)
  = [newSheet (name, rows)].
Proof.
  induction entries as [|[title rows'] entries IH]; intros Hnd Hin.
  - by apply elem_of_nil in Hin.
  - simpl in Hnd. apply NoDup_cons in Hnd as [Hnot Hnd]. rewrite fmap_cons.
    apply elem_of_cons in Hin as [[= <- <-]|Hin].
    + rewrite filter_cons_True by reflexivity. by rewrite filter_title_none.
    + assert (title <> name) as Hne.
      { intros ->. apply Hnot. apply list_elem_of_fmap. by exists (name, rows). }
      rewrite filter_cons_False by (simpl; congruence). by apply IH.
Qed.

(** [appendInt] on the numbers of a date: as many digits as the width. *)
Lemma appendInt_two (n : Z) :
  0 <= n <= 99 -> TimeFormat.appendInt n 2 = SpecDate.twoDigits n.
Proof.
  intros Hn.
  assert (forallb (fun k => String.eqb (TimeFormat.appendInt (Z.of_nat k) 2)
                              (SpecDate.twoDigits (Z.of_nat k))) (seq 0 100) = true) as Hall
    by (vm_compute; reflexivity).
  rewrite forallb_forall in Hall. specialize (Hall (Z.to_nat n)).
  rewrite Z2Nat.id in Hall by lia. apply String.eqb_eq, Hall, in_seq. lia.
Qed.

Lemma appendInt_four (n : Z) :
  0 <= n <= 9999 -> TimeFormat.appendInt n 4 = SpecDate.fourDigits n.
Proof.
  intros Hn.
  assert (forallb (fun k => String.eqb (TimeFormat.appendInt (Z.of_nat k) 4)
                              (SpecDate.fourDigits (Z.of_nat k))) (seq 0 (Z.to_nat 10000)) = true)
    as Hall
    by (vm_compute; reflexivity).
  rewrite forallb_forall in Hall. specialize (Hall (Z.to_nat n)).
  rewrite Z2Nat.id in Hall by lia. apply String.eqb_eq, Hall, in_seq. lia.
Qed.

(** The layout [01-02-2006] gives the month, the day and the year of a
    calendar date, digit by digit. *)
Lemma Format_monthDayYear (t : Time) :
  calendarDate t = true -> TimeFormat.Format_01_02_2006 t = SpecDate.monthDayYear t.
Proof.
  unfold calendarDate. rewrite !andb_true_iff, !Z.leb_le.
  intros [[[[[Hm1 Hm2] Hd1] Hd2] Hy1] Hy2].
  unfold TimeFormat.Format_01_02_2006, SpecDate.monthDayYear.
  by rewrite !appendInt_two, appendInt_four by lia.
Qed.

(** C5.  In create mode one call creates the spreadsheet.  For every
    report name of the accumulator it holds exactly one tab of that
    title, with its first row frozen and the styled rows of the report
    as its grid, and it holds no other tab.  The title of the
    spreadsheet holds the start date of the run: the two digits of its
    month, of its day and the four digits of its year. *)
Theorem createSheet_one_tab_per_report (rt : runtime) (Hrt : range_sound rt) (w : world rt)
    (start : Time) (Hdate : calendarDate start = true) (rowData : accumulator) :
  createsOneTabPerReport rt w start rowData.
Proof.
  unfold createsOneTabPerReport, logOf, outcomeOf, createSheet. simpl.
  pose proof (Hrt _ rowData w) as Hperm.
  pose proof (range_entries rt Hrt rowData w) as Hentries.
  destruct (answer rt _ (MapRange rowData) w) as [entries w1]. simpl in Hperm, Hentries.
  destruct (answer rt _ (SpreadsheetsCreate _) w1) as [r w2]. simpl.
  eexists _, r. split; [reflexivity|]. split; [reflexivity|]. simpl. split.
  { by rewrite (Format_monthDayYear start Hdate). }
  split.
  - by rewrite length_fmap, Hperm, length_map_to_list.
  - intros name rows Hname. destruct (Hentries name) as (Hnd & Hin & _).
    apply (filter_title_one entries name rows Hnd). by apply Hin.
Qed.

Lemma createSheet_one_tab_per_report_witness :
  createsOneTabPerReport Sim.rt Sim.empty {| year := 2020; month := 1; day := 15 |}
    (styledRows <$> twoReports).
Proof.
  apply (createSheet_one_tab_per_report Sim.rt (fun V m w => reflexivity _) Sim.empty
           {| year := 2020; month := 1; day := 15 |} eq_refl).
Defined.

(** The title for the fifteenth of January 2020. *)
Lemma title_of_2020_01_15 :
  exists spreadsheet r,
    sheetsCalls (logOf Sim.rt (createSheet {| year := 2020; month := 1; day := 15 |}
                                 (styledRows <$> twoReports)) Sim.empty)
    = [CreateCall spreadsheet r]
    /\ SpreadsheetProperties_Title (Spreadsheet_Properties spreadsheet)
       = "Work Stats (as of 01-15-2020)"
    /\ Title ∘ Sheet_Properties <$> Sheets spreadsheet = ["go-cls"; "go-issues"].
Proof. do 2 eexists. split; [vm_compute; reflexivity|]. split; reflexivity. Qed.

Lemma rowsOf_singleton (name title : string) (rows : list RowData) :
  rowsOf {[ name := rows ]} title = if decide (title = name) then rows else [].
Proof.
  unfold rowsOf. destruct (decide (title = name)) as [->|Hne].
  - by rewrite lookup_singleton_eq.
  - by rewrite lookup_singleton_ne.
Qed.

(** C1, as the claim has it, fails on a spreadsheet that has a tab
    already, as every spreadsheet has: the second batch holds an append
    request for that tab too.  Here the spreadsheet has the tab Sheet1
    with the identifier 0, the report has three rows, and two append
    requests are sent, the first for Sheet1. *)
Lemma appendToSheet_appends_to_existing_tab :
  Sheets <$> Sim.remote Sim.existing !! "S" = Some [Sim.Sheet1]
  /\ SheetProperties_SheetId (Sheet_Properties Sim.Sheet1) = 0
  /\ appendCellsOf (logOf Sim.rt (appendToSheet "S" earlier) Sim.existing)
     = [ {| AppendCellsRequest_SheetId := 0; Rows := []; Fields := "*" |};
         {| AppendCellsRequest_SheetId := 1; Rows := styledRows githubIssues; Fields := "*" |} ]
  /\ length (appendCellsOf (logOf Sim.rt (appendToSheet "S" earlier) Sim.existing)) <> 1%nat.
Proof.
  split; [reflexivity|]. split; [reflexivity|].
  assert (appendCellsOf (logOf Sim.rt (appendToSheet "S" earlier) Sim.existing)
          = [ {| AppendCellsRequest_SheetId := 0; Rows := []; Fields := "*" |};
              {| AppendCellsRequest_SheetId := 1; Rows := styledRows githubIssues;
                 Fields := "*" |} ]) as Hlog by (vm_compute; reflexivity).
  split; [exact Hlog|]. rewrite Hlog. simpl. lia.
Qed.

(** C1, amended.  In append mode with one report in the accumulator,
    one batch with one request adds the tab of the report.  Only when it
    is answered, one more batch follows: it holds one append request for
    every tab of the spreadsheet in the answer, tabs that were there
    before included, each with the identifier the service gave that tab;
    the request for a tab titled as the report carries the rows of the
    report, and the request for any other tab carries no rows. *)
Theorem appendToSheet_one_report (rt : runtime) (Hrt : range_sound rt) (w : world rt)
    (spreadsheetID name : string) (rows : list RowData) :
  appendsPerReturnedTab rt w spreadsheetID name rows.
Proof.
  unfold appendsPerReturnedTab, logOf, outcomeOf, appendToSheet. simpl.
  pose proof (Hrt _ ({[ name := rows ]} : accumulator) w) as Hperm.
  rewrite map_to_list_singleton in Hperm. apply Permutation_singleton_r in Hperm.
  destruct (answer rt _ (MapRange _) w) as [entries w1]. simpl in Hperm. subst entries.
  simpl.
  change {| IncludeSpreadsheetInResponse := true; Requests := [createRequest name] |}
    with (addTab name).
  destruct (answer rt _ (SpreadsheetsBatchUpdate spreadsheetID (addTab name)) w1)
    as [[err|response] w2]; simpl.
  - left. by exists err.
  - right.
    assert (dataRequest {[ name := rows ]} <$> Sheets (UpdatedSpreadsheet response)
            = Requests (appendPerTab name rows response)) as ->.
    { simpl. apply list_fmap_ext. intros _ sheet _. unfold dataRequest.
      by rewrite rowsOf_singleton. }
    change {| IncludeSpreadsheetInResponse := true;
              Requests := Requests (appendPerTab name rows response) |}
      with (appendPerTab name rows response).
    destruct (answer rt _ (SpreadsheetsBatchUpdate spreadsheetID _) w2) as [r w3].
    exists response, r. by destruct r.
Qed.

Lemma appendToSheet_one_report_witness :
  appendsPerReturnedTab Sim.rt Sim.existing "S" "github-issues" (styledRows githubIssues).
Proof.
  apply (appendToSheet_one_report Sim.rt (fun V m w => reflexivity _)).
Defined.

(** ** The flat file, written and read back *)

Section RoundTrip.
Import Csv CsvReader.

Local Abbreviation R m f fs recs :=
  {| at_ := m; field := f; fields := fs; records := recs |}.

Lemma feed_cons (c : ascii) (s : string) (r : reader) :
  feed (String c s) r =
    if dropped c s then feed s r
    else match step c r with
         | Some r' => feed s r'
         | None => None
         end.
Proof. reflexivity. Qed.

Lemma special_false (c : ascii) :
  special c = false ->
  Ascii.eqb c LF = false /\ Ascii.eqb c CR = false
  /\ Ascii.eqb c QUOTE = false /\ Ascii.eqb c COMMA = false.
Proof.
  unfold special. intros H.
  repeat (apply orb_false_iff in H as [H ?]). auto.
Qed.

Lemma dropped_not_CR (c : ascii) (s : string) : Ascii.eqb c CR = false -> dropped c s = false.
Proof. unfold dropped. by intros ->. Qed.

Lemma terminator_cases (t : ascii) :
  t = COMMA \/ t = LF ->
  Ascii.eqb t CR = false /\ Ascii.eqb t QUOTE = false
  /\ (Ascii.eqb t COMMA = true \/ Ascii.eqb t COMMA = false /\ Ascii.eqb t LF = true).
Proof. intros [->| ->]; repeat split; auto. Qed.

(** A field without quotes, read from inside it. *)
Lemma feed_unquoted (f : string) (t : ascii) (rest acc : string) (fs : list string)
    (recs : table) :
  anyByte special f = false -> t = COMMA \/ t = LF ->
  feed (f +:+ String t rest) (R Unquoted acc fs recs)
  = feed rest (afterField t (fs ++ [acc +:+ f]) recs).
Proof.
  intros Hf Ht. revert acc. induction f as [|c f IH]; intros acc.
  - rewrite append_nil, append_empty_r, feed_cons.
    destruct (terminator_cases t Ht) as (HCR & HQ & HC).
    rewrite dropped_not_CR by done. unfold step, inUnquoted, afterField; simpl.
    destruct HC as [->|[-> ->]]; reflexivity.
  - simpl in Hf. apply orb_false_iff in Hf as [Hc Hf].
    apply special_false in Hc as (HLF & HCR & HQ & HC).
    rewrite append_cons, feed_cons, dropped_not_CR by done.
    unfold step, inUnquoted; simpl. rewrite HC, HLF, HQ.
    rewrite IH by done. unfold push. by rewrite append_assoc.
Qed.

(** At the start of a field, a byte other than a quote begins a field
    without quotes. *)
Lemma feed_FieldStart (c : ascii) (s : string) (fs : list string) (recs : table) :
  Ascii.eqb c QUOTE = false -> Ascii.eqb c CR = false ->
  feed (String c s) (R FieldStart "" fs recs) = feed (String c s) (R Unquoted "" fs recs).
Proof.
  intros HQ HCR. rewrite !feed_cons, dropped_not_CR by done.
  unfold step, atFieldStart; simpl. by rewrite HQ.
Qed.

(** Where a record may start, a byte other than a line end begins its
    first field. *)
Lemma feed_RecordStart (c : ascii) (s : string) (recs : table) :
  Ascii.eqb c LF = false -> Ascii.eqb c CR = false ->
  feed (String c s) (R RecordStart "" [] recs) = feed (String c s) (R FieldStart "" [] recs).
Proof.
  intros HLF HCR. rewrite !feed_cons, dropped_not_CR by done.
  unfold step; simpl. by rewrite HLF.
Qed.

Lemma escape_head (c : ascii) (f : string) :
  exists s, escape (String c f) = String c s.
Proof. simpl. destruct (Ascii.eqb c QUOTE) eqn:H; [|eauto]. apply Ascii.eqb_eq in H as ->. eauto. Qed.

(** Inside quotes no byte of a field without CR LF is dropped. *)
Lemma dropped_in_quotes (c : ascii) (f rest : string) :
  hasCRLF (String c f) = false ->
  dropped c (escape f +:+ String QUOTE rest) = false.
Proof.
  intros H. unfold dropped. destruct (Ascii.eqb c CR) eqn:HCR; [|reflexivity]. simpl.
  simpl in H. rewrite HCR in H. apply orb_false_iff in H as [H _].
  destruct f as [|d f]; [reflexivity|].
  destruct (escape_head d f) as [s ->]. rewrite append_cons. exact H.
Qed.

(** A field in quotes, read from inside the quotes up to the byte after
    the closing quote. *)
Lemma feed_quoted (f : string) (t : ascii) (rest acc : string) (fs : list string)
    (recs : table) :
  hasCRLF f = false -> t = COMMA \/ t = LF ->
  feed (escape f +:+ String QUOTE (String t rest)) (R Quoted acc fs recs)
  = feed rest (afterField t (fs ++ [acc +:+ f]) recs).
Proof.
  intros Hf Ht. revert acc. induction f as [|c f IH]; intros acc.
  - simpl escape. rewrite append_nil, append_empty_r.
    destruct (terminator_cases t Ht) as (HCR & HQ & HC).
    rewrite feed_cons, (dropped_not_CR QUOTE) by done.
    unfold step at 1; cbn [at_ field fields records]. rewrite Ascii.eqb_refl.
    rewrite feed_cons, (dropped_not_CR t) by done.
    unfold step, afterField; cbn [at_ field fields records]. rewrite HQ.
    destruct HC as [->|[-> ->]]; reflexivity.
  - assert (hasCRLF f = false) as Hf'.
    { simpl in Hf. by apply orb_false_iff in Hf as [_ ?]. }
    pose proof (dropped_in_quotes c f (String t rest) Hf) as Hd.
    simpl escape. destruct (Ascii.eqb c QUOTE) eqn:HQ.
    + apply Ascii.eqb_eq in HQ as ->.
      rewrite !append_cons.
      rewrite feed_cons, (dropped_not_CR QUOTE) by done.
      unfold step at 1; cbn [at_ field fields records]. rewrite Ascii.eqb_refl.
      rewrite feed_cons, (dropped_not_CR QUOTE) by done.
      unfold step at 1; cbn [at_ field fields records]. rewrite Ascii.eqb_refl.
      rewrite IH by done. unfold push. by rewrite append_assoc.
    + rewrite append_cons, feed_cons, Hd.
      unfold step at 1; cbn [at_ field fields records]. rewrite HQ.
      rewrite IH by done. unfold push. by rewrite append_assoc.
Qed.

Lemma fieldNeedsQuotes_false (f : string) :
  fieldNeedsQuotes f = false -> anyByte special f = false.
Proof.
  unfold fieldNeedsQuotes. destruct f as [|c f]; [reflexivity|].
  destruct (String.eqb (String c f) "") eqn:He; [by apply String.eqb_eq in He|].
  destruct (String.eqb _ "\."); [discriminate|].
  by destruct (anyByte special (String c f)).
Qed.

(** One field and the byte that ends it, read from the start of the
    field. *)
Lemma feed_field (f : string) (t : ascii) (rest : string) (fs : list string) (recs : table) :
  hasCRLF f = false -> t = COMMA \/ t = LF ->
  feed (encodeField f +:+ String t rest) (R FieldStart "" fs recs)
  = feed rest (afterField t (fs ++ [f]) recs).
Proof.
  intros Hf Ht. unfold encodeField.
  destruct (terminator_cases t Ht) as (HCR & HQ & _).
  destruct (fieldNeedsQuotes f) eqn:Hq.
  - rewrite append_cons, feed_cons, (dropped_not_CR QUOTE) by done.
    unfold step at 1, atFieldStart; cbn [at_ field fields records].
    rewrite Ascii.eqb_refl, append_assoc, append_cons, append_nil.
    by rewrite feed_quoted.
  - apply fieldNeedsQuotes_false in Hq.
    assert (exists c s, f +:+ String t rest = String c s
                        /\ Ascii.eqb c QUOTE = false /\ Ascii.eqb c CR = false)
      as (c & s & Hs & HcQ & HcCR).
    { destruct f as [|c f].
      - exists t, rest. by rewrite append_nil.
      - simpl in Hq. apply orb_false_iff in Hq as [Hc _].
        apply special_false in Hc as (_ & ? & ? & _).
        exists c, (f +:+ String t rest). by rewrite append_cons. }
    rewrite Hs, feed_FieldStart, <- Hs by done.
    by rewrite feed_unquoted.
Qed.

Lemma encodeFields_first (f : string) (row : list string) :
  encodeFields 0 (f :: row) = encodeField f +:+ encodeFields 1 row.
Proof. reflexivity. Qed.

Lemma encodeFields_next (n : nat) (f : string) (row : list string) :
  encodeFields (S n) (f :: row) = String COMMA (encodeField f +:+ encodeFields (S (S n)) row).
Proof. reflexivity. Qed.

(** The fields of a record and its line end, read from the start of a
    field. *)
Lemma feed_fields (row : list string) (f : string) (n : nat) (rest : string)
    (fs : list string) (recs : table) :
  noCRLF (f :: row) = true ->
  feed (encodeField f +:+ encodeFields (S n) row +:+ String LF rest) (R FieldStart "" fs recs)
  = feed rest (R RecordStart "" [] (recs ++ [fs ++ f :: row])).
Proof.
  revert f n fs. induction row as [|g row IH]; intros f n fs Hrow;
    simpl in Hrow; apply andb_true_iff in Hrow as [Hf Hrow]; apply negb_true_iff in Hf.
  - simpl encodeFields. rewrite append_nil, feed_field by auto. reflexivity.
  - rewrite encodeFields_next, append_cons, append_assoc, feed_field by auto.
    unfold afterField. rewrite Ascii.eqb_refl, IH by exact Hrow.
    by rewrite <- app_assoc.
Qed.

Lemma encodeRecord_head (f : string) (row : list string) (rest : string) :
  emptyLine (f :: row) = false ->
  exists c s,
    encodeField f +:+ encodeFields 1 row +:+ String LF rest = String c s
    /\ Ascii.eqb c LF = false /\ Ascii.eqb c CR = false.
Proof.
  intros Hrow. unfold encodeField. destruct (fieldNeedsQuotes f) eqn:Hq.
  - rewrite append_cons. eauto.
  - apply fieldNeedsQuotes_false in Hq. destruct f as [|c f].
    + destruct row as [|g row]; [discriminate|].
      rewrite append_nil, encodeFields_next, append_cons. eauto.
    + simpl in Hq. apply orb_false_iff in Hq as [Hc _].
      apply special_false in Hc as (? & ? & _). rewrite append_cons. eauto.
Qed.

(** One record, read from where a record may start. *)
Lemma feed_record (row : list string) (rest : string) (recs : table) :
  emptyLine row = false -> noCRLF row = true ->
  feed (encodeRecord row +:+ rest) (R RecordStart "" [] recs)
  = feed rest (R RecordStart "" [] (recs ++ [row])).
Proof.
  intros Hline Hrow. destruct row as [|f row]; [discriminate|].
  unfold encodeRecord. rewrite encodeFields_first, !append_assoc, append_cons, append_nil.
  destruct (encodeRecord_head f row rest Hline) as (c & s & Hs & HLF & HCR).
  rewrite Hs, feed_RecordStart, <- Hs by done.
  by rewrite feed_fields.
Qed.

Lemma feed_table (cells recs : table) :
  forallb (fun row => negb (emptyLine row) && noCRLF row) cells = true ->
  feed (encodeTable cells) (R RecordStart "" [] recs)
  = Some (R RecordStart "" [] (recs ++ cells)).
Proof.
  revert recs. induction cells as [|row cells IH]; intros recs Hcells.
  - by rewrite app_nil_r.
  - simpl in Hcells. apply andb_true_iff in Hcells as [Hrow Hcells].
    apply andb_true_iff in Hrow as [Hline Hrow]. apply negb_true_iff in Hline.
    simpl encodeTable. rewrite feed_record, IH by done. by rewrite <- app_assoc.
Qed.

(** Reading back the bytes of a readable report gives the report. *)
Lemma ReadAll_encodeTable (cells : table) :
  readable cells = true -> ReadAll (encodeTable cells) = Some cells.
Proof.
  unfold readable. intros [Hcount Hcells]%andb_true_iff.
  unfold ReadAll, start. rewrite feed_table by exact Hcells. simpl. by rewrite Hcount.
Qed.

End RoundTrip.

(** ** The flat-file sink on the example runtime *)

Lemma Sim_writeRows (file : File) (cells : table) (w : Sim.state) :
  outcomeOf Sim.rt (writeRows file cells) w = Done None
  /\ Sim.disk (worldOf Sim.rt (writeRows file cells) w) = Sim.disk w
  /\ Sim.refused (worldOf Sim.rt (writeRows file cells) w) = Sim.refused w
  /\ (forall p, p <> Name file ->
        Sim.buffered (worldOf Sim.rt (writeRows file cells) w) !! p = Sim.buffered w !! p)
  /\ (forall b, Sim.buffered w !! Name file = Some b ->
        Sim.buffered (worldOf Sim.rt (writeRows file cells) w) !! Name file
        = Some (b +:+ encodeTable cells)).
Proof.
  unfold outcomeOf, worldOf. revert w. induction cells as [|row cells IH]; intros w.
  - simpl. repeat split; try done. intros b ->. by rewrite append_empty_r.
  - simpl. specialize (IH (Sim.bufWrite file (Csv.encodeRecord row) w)).
    destruct (run Sim.rt (writeRows file cells) _) as [[o log] w']. simpl in *.
    destruct IH as (-> & -> & -> & Hother & Hfile). repeat split; try done.
    + intros p Hp. rewrite Hother by done. by apply lookup_insert_ne.
    + intros b Hb. rewrite (Hfile (b +:+ Csv.encodeRecord row)).
      * by rewrite append_assoc.
      * by rewrite lookup_insert_eq, Hb.
Qed.

Lemma Sim_create (p : string) (w : Sim.state) :
  Sim.refused w = [] ->
  Sim.create p w
  = (inr {| Name := p |},
     {| Sim.disk := <[p := ""]> (Sim.disk w); Sim.buffered := <[p := ""]> (Sim.buffered w);
        Sim.refused := []; Sim.remote := Sim.remote w |}).
Proof. intros H. unfold Sim.create. rewrite H. reflexivity. Qed.

(** The first loop of [write] on a disk that refuses nothing: it ends
    without an error; a file that is not of the batch is left as it
    was; the file of a report that no other report shares is empty and
    its writer holds the bytes of the report. *)
Lemma Sim_writeFiles (Join : string -> string -> string) (outputDir : string)
    (entries : list (string * table)) (filenames : list string)
    (deferred : list (event unit)) (w : Sim.state) :
  Sim.refused w = [] ->
  (exists filenames',
      outcomeOf Sim.rt (writeFiles Join outputDir entries filenames deferred) w
      = Done (None, filenames', pushDeferred Join outputDir entries deferred))
  /\ Sim.refused (worldOf Sim.rt (writeFiles Join outputDir entries filenames deferred) w) = []
  /\ (forall p, p ∉ pathOf Join outputDir <$> entries.*1 ->
        Sim.disk (worldOf Sim.rt (writeFiles Join outputDir entries filenames deferred) w) !! p
        = Sim.disk w !! p
        /\ Sim.buffered
             (worldOf Sim.rt (writeFiles Join outputDir entries filenames deferred) w) !! p
           = Sim.buffered w !! p)
  /\ (forall name cells,
        NoDup entries.*1 ->
        (forall other, other ∈ entries.*1 ->
           pathOf Join outputDir other = pathOf Join outputDir name -> other = name) ->
        (name, cells) ∈ entries ->
        Sim.disk (worldOf Sim.rt (writeFiles Join outputDir entries filenames deferred) w)
          !! pathOf Join outputDir name = Some ""
        /\ Sim.buffered
             (worldOf Sim.rt (writeFiles Join outputDir entries filenames deferred) w)
             !! pathOf Join outputDir name = Some (encodeTable cells)).
Proof.
  unfold outcomeOf, worldOf. revert filenames deferred w.
  induction entries as [|[name' cells'] entries IH]; intros filenames deferred w Hrefused.
  - simpl. split; [eauto|]. split; [done|]. split; [done|].
    intros name cells _ _ Hin. by apply elem_of_nil in Hin.
  - simpl. fold (pathOf Join outputDir name'). rewrite Sim_create by done.
    set (w1 := {| Sim.disk := _ |}). rewrite run_bind.
    destruct (Sim_writeRows {| Name := pathOf Join outputDir name' |} cells' w1)
      as (Ho & Hdisk & Href & Hother & Hfile).
    unfold outcomeOf, worldOf in Ho, Hdisk, Href, Hother, Hfile.
    destruct (run Sim.rt (writeRows _ cells') w1) as [[o log] w2]. simpl in Ho, Hdisk, Href, Hother, Hfile.
    subst o.
    specialize (IH (filenames ++ [pathOf Join outputDir name'])
                  (BufFlush {| Name := pathOf Join outputDir name' |}
                   :: FileClose {| Name := pathOf Join outputDir name' |} :: deferred) w2 Href).
    destruct (run Sim.rt (writeFiles Join outputDir entries _ _) w2) as [[o' log'] w3].
    simpl in IH |- *. destruct IH as ((filenames' & ->) & Hrefused' & Hout & Hin).
    split; [eauto|]. split; [done|]. split.
    + intros p Hp. apply not_elem_of_cons in Hp as [Hne Hp].
      destruct (Hout p Hp) as [-> ->]. rewrite Hdisk, Hother by done.
      unfold w1; simpl. by rewrite !lookup_insert_ne.
    + intros name cells Hnd Hown Hentry. apply NoDup_cons in Hnd as [Hfresh Hnd].
      apply elem_of_cons in Hentry as [[= -> ->]|Hentry].
      * assert (pathOf Join outputDir name' ∉ pathOf Join outputDir <$> entries.*1) as Hp.
        { intros (other & Heq & Hother')%list_elem_of_fmap.
          symmetry in Heq. apply Hown in Heq; [by subst other|].
          apply elem_of_cons; by right. }
        destruct (Hout _ Hp) as [-> ->]. rewrite Hdisk.
        rewrite (Hfile "") by (unfold w1; simpl; apply lookup_insert_eq).
        split; [unfold w1; simpl; apply lookup_insert_eq|by rewrite append_nil].
      * apply Hin; [done| |done]. intros other Hother'. apply Hown.
        apply elem_of_cons; by right.
Qed.

Lemma Sim_runDeferred (Join : string -> string -> string) (outputDir : string)
    (entries : list (string * table)) (deferred : list (event unit)) (w : Sim.state) :
  worldOf Sim.rt (runDeferred (pushDeferred Join outputDir entries deferred)) w
  = worldOf Sim.rt (runDeferred deferred) (flushed Join outputDir entries w).
Proof.
  unfold worldOf. revert deferred. induction entries as [|entry entries IH]; intros deferred.
  - reflexivity.
  - simpl pushDeferred. rewrite IH. simpl.
    by destruct (run Sim.rt (runDeferred deferred) _) as [[o log] w'].
Qed.

Lemma flushed_other (Join : string -> string -> string) (outputDir : string)
    (entries : list (string * table)) (w : Sim.state) (p : string) :
  p ∉ pathOf Join outputDir <$> entries.*1 ->
  Sim.disk (flushed Join outputDir entries w) !! p = Sim.disk w !! p
  /\ Sim.buffered (flushed Join outputDir entries w) !! p = Sim.buffered w !! p.
Proof.
  induction entries as [|[name cells] entries IH]; intros Hp; [done|].
  simpl in Hp. apply not_elem_of_cons in Hp as [Hne Hp].
  destruct (IH Hp) as [<- <-]. simpl. by rewrite !lookup_insert_ne.
Qed.

(** Flushing puts the bytes a writer holds at the end of its file. *)
Lemma flushed_file (Join : string -> string -> string) (outputDir : string)
    (entries : list (string * table)) (w : Sim.state)
    (name : string) (cells : table) (onDisk inWriter : string) :
  NoDup entries.*1 ->
  (forall other, other ∈ entries.*1 ->
     pathOf Join outputDir other = pathOf Join outputDir name -> other = name) ->
  (name, cells) ∈ entries ->
  Sim.disk w !! pathOf Join outputDir name = Some onDisk ->
  Sim.buffered w !! pathOf Join outputDir name = Some inWriter ->
  Sim.disk (flushed Join outputDir entries w) !! pathOf Join outputDir name
  = Some (onDisk +:+ inWriter).
Proof.
  intros Hnd Hown Hin Hdisk Hbuf. induction entries as [|[name' cells'] entries IH].
  - by apply elem_of_nil in Hin.
  - simpl in Hnd. apply NoDup_cons in Hnd as [Hfresh Hnd].
    apply elem_of_cons in Hin as [[= <- <-]|Hin].
    + assert (pathOf Join outputDir name ∉ pathOf Join outputDir <$> entries.*1) as Hp.
      { intros (other & Heq & Hother)%list_elem_of_fmap.
        symmetry in Heq. apply Hown in Heq; [by subst other|].
        apply elem_of_cons; by right. }
      destruct (flushed_other Join outputDir entries w _ Hp) as [Hd Hb].
      simpl. rewrite lookup_insert_eq. unfold fileOf; simpl. by rewrite Hd, Hb, Hdisk, Hbuf.
    + assert (pathOf Join outputDir name' <> pathOf Join outputDir name) as Hne.
      { intros Heq. apply Hown in Heq; [|apply elem_of_cons; by left].
        subst name'. apply Hfresh. apply list_elem_of_fmap. by exists (name, cells). }
      simpl. rewrite lookup_insert_ne by done. apply IH; [done| |done].
      intros other Hother. apply Hown. apply elem_of_cons; by right.
Qed.

Lemma Sim_printFilenames (filenames : list string) (w : Sim.state) :
  outcomeOf Sim.rt (printFilenames filenames) w = Done tt
  /\ worldOf Sim.rt (printFilenames filenames) w = w.
Proof.
  unfold outcomeOf, worldOf. induction filenames as [|filename filenames IH]; [done|].
  simpl. by destruct (run Sim.rt (printFilenames filenames) w) as [[o log] w'].
Qed.

(** The world [write] leaves on a disk that refuses nothing: the one
    after the first loop, with every writer flushed. *)
Lemma Sim_write (Join : string -> string -> string) (outputDir : string)
    (data : gmap string table) (rowData : accumulator) (w : Sim.state) :
  Sim.refused w = [] ->
  worldOf Sim.rt (write Join outputDir data rowData) w
  = flushed Join outputDir (map_to_list data)
      (worldOf Sim.rt (writeFiles Join outputDir (map_to_list data) [] []) w).
Proof.
  intros Hrefused. unfold worldOf at 1. unfold write.
  rewrite run_bind, run_call.
  change (answer Sim.rt _ (MapRange data) w) with (map_to_list data, w). cbn [fst snd].
  rewrite run_bind.
  destruct (Sim_writeFiles Join outputDir (map_to_list data) [] [] w Hrefused)
    as ((filenames & Ho) & _). unfold outcomeOf in Ho. unfold worldOf.
  destruct (run Sim.rt (writeFiles _ _ _ _ _) w) as [[o log] w1]. cbn [fst snd] in Ho. subst o.
  rewrite run_bind.
  destruct (Sim_printFilenames filenames w1) as [Ho Hw]. unfold outcomeOf, worldOf in Ho, Hw.
  destruct (run Sim.rt (printFilenames filenames) w1) as [[o log'] w2]. cbn [fst snd] in Ho, Hw.
  subst o w2. rewrite run_bind, run_call.
  change (answer Sim.rt _ (MapRange data) w1) with (map_to_list data, w1). cbn [fst snd].
  rewrite addSheets_Done, run_bind.
  pose proof (Sim_runDeferred Join outputDir (map_to_list data) [] w1) as Hrun.
  pose proof (runDeferred_Done Sim.rt (pushDeferred Join outputDir (map_to_list data) []) w1)
    as Hd.
  unfold worldOf, outcomeOf in Hrun, Hd.
  destruct (run Sim.rt (runDeferred (pushDeferred Join outputDir (map_to_list data) [])) w1)
    as [[o log''] w3]. cbn [fst snd] in Hrun, Hd. subst o w3. reflexivity.
Qed.

(** C7, as the claim has it, fails: a row that is a single empty cell
    and a row without cells are both written as an empty line, which
    the reader skips; a CR LF inside a cell is read back as LF; rows of
    different lengths are refused by the reader. *)
Lemma blank_row_is_lost :
  exists bytes,
    Sim.disk (worldOf Sim.rt (write Sim.Join "/tmp" {[ "blank" := [["Week"]; [""]] ]} ∅) Sim.empty)
      !! "/tmp/blank.csv" = Some bytes
    /\ CsvReader.ReadAll bytes = Some [["Week"]]
    /\ CsvReader.ReadAll bytes <> Some [["Week"]; [""]]
    /\ encodeTable [["Week"]; [""]] = encodeTable [["Week"]; []]
    /\ CsvReader.ReadAll (encodeTable [[String Csv.CR (String Csv.LF "")]])
       = Some [[String Csv.LF ""]]
    /\ CsvReader.ReadAll (encodeTable [["a"; "b"]; ["c"]]) = None.
Proof.
  eexists. split; [vm_compute; reflexivity|].
  split; [reflexivity|]. split; [discriminate|]. repeat split.
Qed.

(** C7, amended.  A report is readable when its rows have the same
    number of cells, none of them is without cells or a single empty
    cell, and no cell holds a CR followed by an LF.  On a disk that
    refuses no file, and whatever [filepath.Join] makes of the names,
    [write] leaves for every readable report of the batch whose file no
    other report of the batch is written to, the file named after it,
    holding the rows of the report, and reading that file back gives the
    table of the report; so for the report of the rows A,B and 1,2 and
    Total,3. *)
Theorem flat_file_round_trip (Join : string -> string -> string) (w : Sim.state)
    (outputDir : string) (data : gmap string table)
    (rowData : accumulator) (name : string) (cells : table)
    (Hdisk : Sim.refused w = []) (Hname : data !! name = Some cells)
    (Hpath : ownPath Join outputDir data name = true)
    (Hcells : readable cells = true) :
  exists bytes,
    Sim.disk (worldOf Sim.rt (write Join outputDir data rowData) w)
      !! Join outputDir (name +:+ ".csv") = Some bytes
    /\ bytes = encodeTable cells
    /\ CsvReader.ReadAll bytes = Some cells.
Proof.
  exists (encodeTable cells). split; [|split; [reflexivity|by apply ReadAll_encodeTable]].
  rewrite Sim_write by done. fold (pathOf Join outputDir name).
  assert (NoDup (map_to_list data).*1) as Hnd by apply NoDup_fst_map_to_list.
  assert ((name, cells) ∈ map_to_list data) as Hin by (by apply elem_of_map_to_list).
  assert (forall other, other ∈ (map_to_list data).*1 ->
            pathOf Join outputDir other = pathOf Join outputDir name -> other = name) as Hown.
  { intros other Hother Heq. unfold ownPath in Hpath. rewrite forallb_forall in Hpath.
    specialize (Hpath other). rewrite <- list_elem_of_In in Hpath. specialize (Hpath Hother).
    rewrite Heq, String.eqb_refl in Hpath. by apply String.eqb_eq. }
  destruct (Sim_writeFiles Join outputDir (map_to_list data) [] [] w Hdisk)
    as (_ & _ & _ & Hfile).
  destruct (Hfile name cells Hnd Hown Hin) as [Hd Hb].
  rewrite (flushed_file Join outputDir _ _ name cells "" (encodeTable cells)) by done.
  by rewrite append_nil.
Qed.

Lemma flat_file_round_trip_witness :
  exists bytes,
    Sim.disk (worldOf Sim.rt
                (write Sim.Join "/tmp"
                   (<[ "report" := [["A"; "B"]; ["1"; "2"]; ["Total"; "3"]] ]> twoReports)
                   earlier) Sim.empty)
      !! Sim.Join "/tmp" ("report" +:+ ".csv") = Some bytes
    /\ bytes = encodeTable [["A"; "B"]; ["1"; "2"]; ["Total"; "3"]]
    /\ CsvReader.ReadAll bytes = Some [["A"; "B"]; ["1"; "2"]; ["Total"; "3"]].
Proof.
  apply (flat_file_round_trip Sim.Join Sim.empty "/tmp"
           (<[ "report" := [["A"; "B"]; ["1"; "2"]; ["Total"; "3"]] ]> twoReports)
           earlier "report");
    vm_compute; reflexivity.
Defined.

(** * Further properties *)

(** ** The events of [write] *)

Lemma logOf_bind {A B} (rt : runtime) (p : prog A) (k : A -> prog B) (w : world rt) :
  logOf rt (bind p k) w =
    match outcomeOf rt p w with
    | Done a => logOf rt p w ++ logOf rt (k a) (worldOf rt p w)
    | _ => logOf rt p w
    end.
Proof.
  unfold logOf, outcomeOf, worldOf. rewrite run_bind.
  destruct (run rt p w) as [[[a|m|m] log] w1]; simpl; try reflexivity.
  by destruct (run rt (k a) w1) as [[o log'] w2].
Qed.

Lemma outcomeOf_bind {A B} (rt : runtime) (p : prog A) (k : A -> prog B) (w : world rt) :
  outcomeOf rt (bind p k) w =
    match outcomeOf rt p w with
    | Done a => outcomeOf rt (k a) (worldOf rt p w)
    | Fatal m => Fatal m
    | Panic m => Panic m
    end.
Proof.
  unfold logOf, outcomeOf, worldOf. rewrite run_bind.
  destruct (run rt p w) as [[[a|m|m] log] w1]; simpl; try reflexivity.
  by destruct (run rt (k a) w1) as [[o log'] w2].
Qed.

Lemma worldOf_bind {A B} (rt : runtime) (p : prog A) (k : A -> prog B) (w : world rt) :
  worldOf rt (bind p k) w =
    match outcomeOf rt p w with
    | Done a => worldOf rt (k a) (worldOf rt p w)
    | _ => worldOf rt p w
    end.
Proof.
  unfold logOf, outcomeOf, worldOf. rewrite run_bind.
  destruct (run rt p w) as [[[a|m|m] log] w1]; simpl; try reflexivity.
  by destruct (run rt (k a) w1) as [[o log'] w2].
Qed.

Lemma run_Vis {A R} (rt : runtime) (e : event R) (k : R -> prog A) (w : world rt) :
  outcomeOf rt (Vis e k) w = outcomeOf rt (k (answer rt R e w).1) (answer rt R e w).2
  /\ logOf rt (Vis e k) w
     = Answered e (answer rt R e w).1 :: logOf rt (k (answer rt R e w).1) (answer rt R e w).2
  /\ worldOf rt (Vis e k) w = worldOf rt (k (answer rt R e w).1) (answer rt R e w).2.
Proof.
  unfold outcomeOf, logOf, worldOf. simpl. destruct (answer rt R e w) as [r w1]. simpl.
  by destruct (run rt (k r) w1) as [[o log] w2].
Qed.

(** The inner loop of [write]: the records go to the writer in order,
    up to the first that fails. *)
Lemma writeRows_trace (rt : runtime) (f : File) (cells : table) (w : world rt) :
  (outcomeOf rt (writeRows f cells) w = Done None
   /\ logOf rt (writeRows f cells) w = okWrite f <$> cells)
  \/ (exists e before row after,
        cells = before ++ row :: after
        /\ outcomeOf rt (writeRows f cells) w = Done (Some e)
        /\ logOf rt (writeRows f cells) w
           = (okWrite f <$> before) ++ [Answered (BufWrite f (Csv.encodeRecord row)) (Some e)]).
Proof.
  revert w. induction cells as [|row cells IH]; intros w.
  - left. by split.
  - destruct (run_Vis rt (BufWrite f (Csv.encodeRecord row))
                (fun err => match err with
                            | Some e => Ret (Some e)
                            | None => writeRows f cells
                            end) w) as (Ho & Hl & _).
    change (writeRows f (row :: cells)) with
      (Vis (BufWrite f (Csv.encodeRecord row))
         (fun err => match err with
                     | Some e => Ret (Some e)
                     | None => writeRows f cells
                     end)).
    rewrite Ho, Hl. destruct (answer rt _ (BufWrite f (Csv.encodeRecord row)) w) as [[e|] w1];
      simpl.
    + right. exists e, [], row, cells. by repeat split.
    + destruct (IH w1) as [[-> ->]|(e & before & row' & after & -> & -> & ->)].
      * left. by split.
      * right. exists e, (row :: before), row', after. by repeat split.
Qed.

(** The first loop of [write]: either every report got its file and
    all its records, or the loop stopped at the first failure. *)
Lemma writeFiles_trace (Join : string -> string -> string) (rt : runtime) (outputDir : string)
    (entries : list (string * table)) (filenames : list string) (deferred : list (event unit))
    (w : world rt) :
  (exists files,
      length files = length entries
      /\ outcomeOf rt (writeFiles Join outputDir entries filenames deferred) w
         = Done (None,
                 filenames ++ ((fun entry => Join outputDir (entry.1 +:+ ".csv")) <$> entries),
                 (reverse files ≫= closers) ++ deferred)
      /\ logOf rt (writeFiles Join outputDir entries filenames deferred) w
         = segments Join outputDir entries files)
  \/ (exists e before entry after files failing created filenames',
        entries = before ++ entry :: after
        /\ length files = length before
        /\ failure Join outputDir entry e failing created
        /\ outcomeOf rt (writeFiles Join outputDir entries filenames deferred) w
           = Done (Some e, filenames', (reverse (files ++ created) ≫= closers) ++ deferred)
        /\ logOf rt (writeFiles Join outputDir entries filenames deferred) w
           = segments Join outputDir before files ++ failing).
Proof.
  revert filenames deferred w.
  induction entries as [|[name cells] entries IH]; intros filenames deferred w.
  - left. exists []. repeat split. simpl. by rewrite app_nil_r.
  - set (path := Join outputDir (name +:+ ".csv")).
    set (k := fun r : error + File =>
                match r with
                | inl err => Ret (Some err, filenames, deferred)
                | inr file =>
                    (err <- writeRows file cells ;;
                     match err with
                     | Some e => Ret (Some e, filenames, BufFlush file :: FileClose file :: deferred)
                     | None =>
                         writeFiles Join outputDir entries (filenames ++ [path])
                           (BufFlush file :: FileClose file :: deferred)
                     end)%prog
                end).
    change (writeFiles Join outputDir ((name, cells) :: entries) filenames deferred)
      with (Vis (OsCreate path) k).
    destruct (run_Vis rt (OsCreate path) k w) as (-> & -> & _).
    destruct (answer rt _ (OsCreate path) w) as [[e|f] w1]; simpl.
    + right. exists e, [], (name, cells), entries, [], [Answered (OsCreate path) (inl e)], [],
        filenames.
      repeat split; try done. by left.
    + rewrite outcomeOf_bind, logOf_bind.
      destruct (writeRows_trace rt f cells w1)
        as [[-> ->]|(e & rowsBefore & row & rowsAfter & Hcells & -> & ->)].
      * destruct (IH (filenames ++ [path]) (BufFlush f :: FileClose f :: deferred)
                    (worldOf rt (writeRows f cells) w1))
          as [(files & Hlen & -> & ->)
             |(e & before & entry & after & files & failing & created & filenames' & -> & Hlen
               & Hfail & -> & ->)].
        -- left. exists (f :: files). split; [simpl; by rewrite Hlen|]. split.
           ++ rewrite reverse_cons, bind_app.
              rewrite <- (app_assoc filenames), <- (app_assoc (reverse files ≫= closers)).
              reflexivity.
           ++ reflexivity.
        -- right. exists e, ((name, cells) :: before), entry, after, (f :: files), failing,
             created, filenames'.
           split; [done|]. split; [simpl; by rewrite Hlen|]. split; [done|]. split.
           ++ change ((f :: files) ++ created) with (f :: (files ++ created)).
              rewrite reverse_cons, bind_app.
              rewrite <- (app_assoc (reverse (files ++ created) ≫= closers)). reflexivity.
           ++ unfold segments. simpl. by rewrite <- !app_assoc.
      * right. exists e, [], (name, cells), entries, [],
          (Answered (OsCreate path) (inr f)
           :: (okWrite f <$> rowsBefore)
           ++ [Answered (BufWrite f (Csv.encodeRecord row)) (Some e)]), [f], filenames.
        split; [done|]. split; [done|]. split.
        -- right. exists f, rowsBefore, row, rowsAfter. by repeat split.
        -- split; [reflexivity|].
           change (logOf rt (Ret _) _) with (@nil answered). by rewrite app_nil_r.
Qed.

Lemma runDeferred_log (rt : runtime) (deferred : list (event unit)) (w : world rt) :
  logOf rt (runDeferred deferred) w = closed <$> deferred.
Proof.
  revert w. induction deferred as [|e deferred IH]; intros w; [reflexivity|].
  change (runDeferred (e :: deferred)) with (Vis e (fun _ => runDeferred deferred)).
  destruct (run_Vis rt e (fun _ => runDeferred deferred) w) as (_ & -> & _).
  rewrite IH. by destruct (answer rt unit e w) as [[] w1].
Qed.

Lemma printFilenames_log (rt : runtime) (filenames : list string) (w : world rt) :
  outcomeOf rt (printFilenames filenames) w = Done tt
  /\ logOf rt (printFilenames filenames) w
     = (fun filename => Answered (Printf (wroteOutput filename)) tt) <$> filenames.
Proof.
  revert w. induction filenames as [|filename filenames IH]; intros w; [done|].
  change (printFilenames (filename :: filenames))
    with (Vis (Printf (wroteOutput filename)) (fun _ => printFilenames filenames)).
  destruct (run_Vis rt (Printf (wroteOutput filename)) (fun _ => printFilenames filenames) w)
    as (-> & -> & _).
  destruct (IH (answer rt unit (Printf (wroteOutput filename)) w).2) as [-> ->].
  by destruct (answer rt unit _ w) as [[] w1].
Qed.

(** All the events of a call of [write], in order.  Without an error:
    the range over the batch, for every report its file and its
    records, a line printed for every file, the second range, and the
    deferred calls.  With an error: the range, the reports written in
    full, the failure, and the deferred calls. *)
Lemma write_trace (Join : string -> string -> string) (rt : runtime) (w : world rt)
    (outputDir : string) (data : gmap string table) (rowData : accumulator) :
  (exists files entries',
      length files = length (answer rt _ (MapRange data) w).1
      /\ outcomeOf rt (write Join outputDir data rowData) w
         = Done (None, withSheetsOf entries' rowData)
      /\ logOf rt (write Join outputDir data rowData) w
         = Answered (MapRange data) (answer rt _ (MapRange data) w).1
           :: segments Join outputDir (answer rt _ (MapRange data) w).1 files
           ++ (printedFor Join outputDir <$> (answer rt _ (MapRange data) w).1)
           ++ [Answered (MapRange data) entries']
           ++ (closed <$> (reverse files ≫= closers)))
  \/ (exists e before entry after files failing created,
        (answer rt _ (MapRange data) w).1 = before ++ entry :: after
        /\ length files = length before
        /\ failure Join outputDir entry e failing created
        /\ outcomeOf rt (write Join outputDir data rowData) w = Done (Some e, rowData)
        /\ logOf rt (write Join outputDir data rowData) w
           = Answered (MapRange data) (answer rt _ (MapRange data) w).1
             :: segments Join outputDir before files
             ++ failing
             ++ (closed <$> (reverse (files ++ created) ≫= closers))).
Proof.
  unfold write.
  set (k := fun entries : list (string * table) => bind _ _).
  change (bind (call (MapRange data)) k) with (Vis (MapRange data) k).
  destruct (run_Vis rt (MapRange data) k w) as (-> & -> & _).
  destruct (answer rt _ (MapRange data) w) as [entries w1]. simpl fst. simpl snd.
  unfold k. rewrite outcomeOf_bind, logOf_bind.
  destruct (writeFiles_trace Join rt outputDir entries [] [] w1)
    as [(files & Hlen & -> & ->)
       |(e & before & entry & after & files & failing & created & filenames' & -> & Hlen
         & Hfail & -> & ->)].
  - left. rewrite app_nil_r. simpl app.
    rewrite outcomeOf_bind, logOf_bind.
    destruct (printFilenames_log rt
                ((fun entry => Join outputDir (entry.1 +:+ ".csv")) <$> entries)
                (worldOf rt (writeFiles Join outputDir entries [] []) w1)) as [-> ->].
    set (w2 := worldOf rt (printFilenames _) _).
    set (k' := fun entries' : list (string * table) =>
                 match addSheets entries' rowData with
                 | Done rowData' => (runDeferred (reverse files ≫= closers) ;;; Ret (None, rowData'))%prog
                 | Fatal msg => LogFatal msg
                 | Panic msg => (runDeferred (reverse files ≫= closers) ;;; RuntimePanic msg)%prog
                 end).
    change (bind (call (MapRange data)) _) with (Vis (MapRange data) k').
    destruct (run_Vis rt (MapRange data) k' w2) as (-> & -> & _).
    destruct (answer rt _ (MapRange data) w2) as [entries' w3]. simpl fst. simpl snd.
    unfold k'. rewrite addSheets_Done, outcomeOf_bind, logOf_bind.
    pose proof (runDeferred_Done rt (reverse files ≫= closers) w3) as Hd.
    rewrite Hd, runDeferred_log.
    exists files, entries'. split; [done|]. split; [reflexivity|].
    change (logOf rt (Ret _) _) with (@nil answered). rewrite app_nil_r.
    rewrite <- list_fmap_compose. reflexivity.
  - right. rewrite app_nil_r. rewrite outcomeOf_bind, logOf_bind.
    pose proof (runDeferred_Done rt (reverse (files ++ created) ≫= closers)
                  (worldOf rt (writeFiles Join outputDir (before ++ entry :: after) [] []) w1))
      as Hd.
    rewrite Hd, runDeferred_log.
    exists e, before, entry, after, files, failing, created.
    repeat (split; [done|]).
    change (logOf rt (Ret _) _) with (@nil answered). rewrite app_nil_r.
    by rewrite <- app_assoc.
Qed.

(** *** Reading the trace of [write] *)

Lemma createsOf_app (l1 l2 : list answered) : createsOf (l1 ++ l2) = createsOf l1 ++ createsOf l2.
Proof. apply omap_app. Qed.
Lemma createdOf_app (l1 l2 : list answered) : createdOf (l1 ++ l2) = createdOf l1 ++ createdOf l2.
Proof. unfold createdOf. by rewrite createsOf_app, omap_app. Qed.
Lemma writtenOf_app (l1 l2 : list answered) : writtenOf (l1 ++ l2) = writtenOf l1 ++ writtenOf l2.
Proof. apply omap_app. Qed.
Lemma closingsOf_app (l1 l2 : list answered) :
  closingsOf (l1 ++ l2) = closingsOf l1 ++ closingsOf l2.
Proof. apply omap_app. Qed.
Lemma printedOf_app (l1 l2 : list answered) : printedOf (l1 ++ l2) = printedOf l1 ++ printedOf l2.
Proof. apply omap_app. Qed.

Lemma okWrite_read (f : File) (cells : table) :
  createsOf (okWrite f <$> cells) = []
  /\ closingsOf (okWrite f <$> cells) = []
  /\ printedOf (okWrite f <$> cells) = []
  /\ writtenOf (okWrite f <$> cells) = (fun row => (f, Csv.encodeRecord row)) <$> cells.
Proof.
  induction cells as [|row cells (IH1 & IH2 & IH3 & IH4)]; [done|].
  repeat split; [exact IH1|exact IH2|exact IH3|].
  rewrite !fmap_cons.
  change (writtenOf (okWrite f row :: ?l)) with ((f, Csv.encodeRecord row) :: writtenOf l).
  by rewrite IH4.
Qed.

Lemma segments_cons (Join : string -> string -> string) (outputDir : string)
    (entry : string * table) (entries : list (string * table)) (f : File) (files : list File) :
  segments Join outputDir (entry :: entries) (f :: files)
  = Answered (OsCreate (Join outputDir (entry.1 +:+ ".csv"))) (inr f : error + File)
    :: (okWrite f <$> entry.2) ++ segments Join outputDir entries files.
Proof. reflexivity. Qed.

Lemma segments_read (Join : string -> string -> string) (outputDir : string)
    (entries : list (string * table)) (files : list File) :
  length files = length entries ->
  createsOf (segments Join outputDir entries files)
  = zip_with (fun entry f => (Join outputDir (entry.1 +:+ ".csv"), inr f)) entries files
  /\ createdOf (segments Join outputDir entries files) = files
  /\ closingsOf (segments Join outputDir entries files) = []
  /\ printedOf (segments Join outputDir entries files) = []
  /\ writtenOf (segments Join outputDir entries files)
     = mjoin (zip_with (fun entry f => (fun row => (f, Csv.encodeRecord row)) <$> entry.2)
                entries files).
Proof.
  revert files. induction entries as [|entry entries IH]; intros [|f files] Hlen;
    try discriminate; [done|].
  injection Hlen as Hlen. destruct (IH files Hlen) as (IH1 & IH2 & IH3 & IH4 & IH5).
  destruct (okWrite_read f entry.2) as (H1 & H2 & H3 & H4).
  rewrite segments_cons. repeat split.
  - change (createsOf (?a :: ?l)) with ((Join outputDir (entry.1 +:+ ".csv"), inr f) :: createsOf l).
    by rewrite createsOf_app, H1, IH1.
  - change (createdOf (?a :: ?l)) with (f :: createdOf l).
    rewrite createdOf_app, IH2. unfold createdOf. by rewrite H1.
  - change (closingsOf (?a :: ?l)) with (closingsOf l). by rewrite closingsOf_app, H2, IH3.
  - change (printedOf (?a :: ?l)) with (printedOf l). by rewrite printedOf_app, H3, IH4.
  - change (writtenOf (?a :: ?l)) with (writtenOf l). rewrite writtenOf_app, H4, IH5.
    reflexivity.
Qed.

Lemma closed_read (files : list File) :
  createsOf (closed <$> (files ≫= closers)) = []
  /\ closingsOf (closed <$> (files ≫= closers)) = files ≫= closers
  /\ printedOf (closed <$> (files ≫= closers)) = []
  /\ writtenOf (closed <$> (files ≫= closers)) = [].
Proof.
  induction files as [|f files (IH1 & IH2 & IH3 & IH4)]; [done|].
  repeat split; [exact IH1| |exact IH3|exact IH4].
  rewrite bind_cons.
  change (closingsOf (closed <$> closers f ++ ?l))
    with (BufFlush f :: FileClose f :: closingsOf (closed <$> l)).
  by rewrite IH2.
Qed.

Lemma printedFor_read (Join : string -> string -> string) (outputDir : string)
    (entries : list (string * table)) :
  createsOf (printedFor Join outputDir <$> entries) = []
  /\ closingsOf (printedFor Join outputDir <$> entries) = []
  /\ printedOf (printedFor Join outputDir <$> entries)
     = (fun entry => wroteOutput (Join outputDir (entry.1 +:+ ".csv"))) <$> entries
  /\ writtenOf (printedFor Join outputDir <$> entries) = [].
Proof.
  induction entries as [|entry entries (IH1 & IH2 & IH3 & IH4)]; [done|].
  repeat split; [exact IH1|exact IH2| |exact IH4].
  rewrite !fmap_cons.
  change (printedOf (printedFor Join outputDir entry :: ?l))
    with (wroteOutput (Join outputDir (entry.1 +:+ ".csv")) :: printedOf l).
  by rewrite IH3.
Qed.

Lemma failure_read (Join : string -> string -> string) (outputDir : string)
    (entry : string * table) (e : error) (failing : list answered) (created : list File) :
  failure Join outputDir entry e failing created ->
  createdOf failing = created /\ closingsOf failing = [] /\ printedOf failing = []
  /\ exists before last, failing = before ++ [last] /\ failureOf last = Some e
       /\ omap failureOf before = [].
Proof.
  intros [[-> ->]|(f & before & row & after & _ & -> & ->)].
  - repeat split; try reflexivity.
    exists [], (Answered (OsCreate (Join outputDir (entry.1 +:+ ".csv"))) (inl e : error + File)).
    by repeat split.
  - destruct (okWrite_read f before) as (H1 & H2 & H3 & H4). repeat split.
    + change (createdOf (?a :: ?l)) with (f :: createdOf l).
      rewrite createdOf_app. unfold createdOf at 1. by rewrite H1.
    + change (closingsOf (?a :: ?l)) with (closingsOf l). by rewrite closingsOf_app, H2.
    + change (printedOf (?a :: ?l)) with (printedOf l). by rewrite printedOf_app, H3.
    + exists (Answered (OsCreate (Join outputDir (entry.1 +:+ ".csv"))) (inr f : error + File)
              :: (okWrite f <$> before)),
        (Answered (BufWrite f (Csv.encodeRecord row)) (Some e)).
      split; [reflexivity|]. split; [reflexivity|].
      change (omap failureOf (?a :: ?l)) with (omap failureOf l).
      clear. induction before as [|row before IH]; [reflexivity|exact IH].
Qed.

Lemma segments_no_failure (Join : string -> string -> string) (outputDir : string)
    (entries : list (string * table)) (files : list File) :
  omap failureOf (segments Join outputDir entries files) = [].
Proof.
  revert files. induction entries as [|entry entries IH]; intros [|f files]; try reflexivity.
  rewrite segments_cons. change (omap failureOf (?a :: ?l)) with (omap failureOf l).
  rewrite omap_app, IH, app_nil_r. generalize entry.2. clear.
  intros cells. induction cells as [|row cells IH]; [reflexivity|exact IH].
Qed.

(** X1.  Whatever the runtime answers, a call of [write] ends with the
    deferred calls, and they are these: for every file that was created,
    [Flush] and then [Close], the file created last first.  Before
    that, nothing is flushed or closed.  So every file [write] creates
    is flushed and closed once, also when [write] returns an error. *)
Theorem write_closes_every_file (Join : string -> string -> string) (rt : runtime)
    (w : world rt) (outputDir : string) (data : gmap string table) (rowData : accumulator) :
  exists before,
    logOf rt (write Join outputDir data rowData) w
    = before ++ (closed <$> (reverse (createdOf before) ≫= closers))
    /\ closingsOf before = [].
Proof.
  destruct (write_trace Join rt w outputDir data rowData)
    as [(files & entries' & Hlen & _ & ->)
       |(e & before & entry & after & files & failing & created & _ & Hlen & Hfail & _ & ->)].
  - destruct (segments_read Join outputDir _ files Hlen) as (_ & Hcreated & Hclosings & _).
    destruct (printedFor_read Join outputDir (answer rt _ (MapRange data) w).1)
      as (Hp1 & Hp2 & _).
    exists (Answered (MapRange data) (answer rt _ (MapRange data) w).1
            :: segments Join outputDir (answer rt _ (MapRange data) w).1 files
            ++ (printedFor Join outputDir <$> (answer rt _ (MapRange data) w).1)
            ++ [Answered (MapRange data) entries']).
    assert (createdOf (printedFor Join outputDir <$> (answer rt _ (MapRange data) w).1) = [])
      as Hp3 by (unfold createdOf; by rewrite Hp1).
    split.
    + change (createdOf (?a :: ?l)) with (createdOf l).
      rewrite !createdOf_app, Hcreated, Hp3. simpl. rewrite app_nil_r.
      by rewrite <- !app_assoc.
    + change (closingsOf (?a :: ?l)) with (closingsOf l).
      by rewrite !closingsOf_app, Hclosings, Hp2.
  - destruct (segments_read Join outputDir before files Hlen) as (_ & Hcreated & Hclosings & _).
    destruct (failure_read _ _ _ _ _ _ Hfail) as (Hf1 & Hf2 & _).
    exists (Answered (MapRange data) (answer rt _ (MapRange data) w).1
            :: segments Join outputDir before files ++ failing).
    split.
    + change (createdOf (?a :: ?l)) with (createdOf l).
      rewrite createdOf_app, Hcreated, Hf1. by rewrite <- app_comm_cons, <- !app_assoc.
    + change (closingsOf (?a :: ?l)) with (closingsOf l).
      by rewrite closingsOf_app, Hclosings, Hf2.
Qed.

(** X2.  When [write] returns an error, it is the error of the first
    [os.Create] or [Write] that failed: no event before it failed,
    after it only deferred calls are made, and no line was printed. *)
Theorem write_stops_at_first_failure (Join : string -> string -> string) (rt : runtime)
    (w : world rt) (outputDir : string) (data : gmap string table)
    (rowData rowData' : accumulator) (e : error)
    (Herr : outcomeOf rt (write Join outputDir data rowData) w = Done (Some e, rowData')) :
  exists before failing after,
    logOf rt (write Join outputDir data rowData) w = before ++ failing :: after
    /\ failureOf failing = Some e
    /\ omap failureOf before = []
    /\ after = closed <$> closingsOf after
    /\ printedOf (logOf rt (write Join outputDir data rowData) w) = [].
Proof.
  destruct (write_trace Join rt w outputDir data rowData)
    as [(files & entries' & _ & Hout & _)
       |(e' & before & entry & after & files & failing & created & _ & Hlen & Hfail & Hout & ->)].
  - rewrite Hout in Herr. discriminate.
  - rewrite Hout in Herr. injection Herr as -> _.
    destruct (segments_read Join outputDir before files Hlen) as (_ & _ & _ & Hprinted & _).
    destruct (failure_read _ _ _ _ _ _ Hfail)
      as (_ & _ & Hfp & failingBefore & last & -> & Hlast & Hnone).
    destruct (closed_read (reverse (files ++ created))) as (_ & Hclosings & Hcp & _).
    exists (Answered (MapRange data) (answer rt _ (MapRange data) w).1
            :: segments Join outputDir before files ++ failingBefore),
      last, (closed <$> (reverse (files ++ created) ≫= closers)).
    split; [by rewrite <- app_comm_cons, <- !app_assoc|]. split; [done|]. split.
    + change (omap failureOf (?a :: ?l)) with (omap failureOf l).
      by rewrite omap_app, segments_no_failure, Hnone.
    + split; [by rewrite Hclosings|].
      change (printedOf (?a :: ?l)) with (printedOf l).
      by rewrite printedOf_app, Hprinted, printedOf_app, Hfp, Hcp.
Qed.

Lemma write_stops_at_first_failure_witness :
  exists before failing after,
    logOf Sim.rt (write Sim.Join "/tmp" twoReports earlier) denying = before ++ failing :: after
    /\ failureOf failing = Some (Err "open /tmp/go-cls.csv: permission denied")
    /\ omap failureOf before = []
    /\ after = closed <$> closingsOf after
    /\ printedOf (logOf Sim.rt (write Sim.Join "/tmp" twoReports earlier) denying) = [].
Proof.
  apply (write_stops_at_first_failure Sim.Join Sim.rt denying "/tmp" twoReports earlier earlier).
  vm_compute; reflexivity.
Defined.

(** X3.  When [write] returns without an error, then for the reports
    in the order of its first range: one file was created for each, named
    after the report; the writer of each file got the records of its
    report, in order, and nothing else; and one line was printed for
    each file, in the same order. *)
Theorem write_files_hold_the_reports (Join : string -> string -> string) (rt : runtime)
    (w : world rt) (outputDir : string) (data : gmap string table)
    (rowData rowData' : accumulator)
    (Hok : outcomeOf rt (write Join outputDir data rowData) w = Done (None, rowData')) :
  exists files,
    length files = length (answer rt _ (MapRange data) w).1
    /\ createsOf (logOf rt (write Join outputDir data rowData) w)
       = zip_with (fun entry f => (Join outputDir (entry.1 +:+ ".csv"), inr f))
           (answer rt _ (MapRange data) w).1 files
    /\ writtenOf (logOf rt (write Join outputDir data rowData) w)
       = mjoin (zip_with (fun entry f => (fun row => (f, Csv.encodeRecord row)) <$> entry.2)
                  (answer rt _ (MapRange data) w).1 files)
    /\ printedOf (logOf rt (write Join outputDir data rowData) w)
       = (fun entry => wroteOutput (Join outputDir (entry.1 +:+ ".csv")))
           <$> (answer rt _ (MapRange data) w).1.
Proof.
  destruct (write_trace Join rt w outputDir data rowData)
    as [(files & entries' & Hlen & _ & ->)
       |(e' & before & entry & after & files & failing & created & _ & _ & _ & Hout & _)].
  - destruct (segments_read Join outputDir _ files Hlen) as (Hs1 & _ & _ & Hs4 & Hs5).
    destruct (printedFor_read Join outputDir (answer rt _ (MapRange data) w).1)
      as (Hp1 & _ & Hp3 & Hp4).
    destruct (closed_read (reverse files)) as (Hc1 & _ & Hc3 & Hc4).
    exists files. split; [done|]. repeat split.
    + change (createsOf (?a :: ?l)) with (createsOf l).
      rewrite !createsOf_app, Hs1, Hp1, Hc1. simpl. by rewrite app_nil_r.
    + change (writtenOf (?a :: ?l)) with (writtenOf l).
      rewrite !writtenOf_app, Hs5, Hp4, Hc4. simpl. by rewrite app_nil_r.
    + change (printedOf (?a :: ?l)) with (printedOf l).
      rewrite !printedOf_app, Hs4, Hp3, Hc3. simpl. by rewrite app_nil_r.
  - rewrite Hout in Hok. discriminate.
Qed.

Lemma write_files_hold_the_reports_witness :
  exists files,
    length files = length (answer Sim.rt _ (MapRange twoReports) Sim.empty).1
    /\ createsOf (logOf Sim.rt (write Sim.Join "/tmp" twoReports earlier) Sim.empty)
       = zip_with (fun entry f => (Sim.Join "/tmp" (entry.1 +:+ ".csv"), inr f))
           (answer Sim.rt _ (MapRange twoReports) Sim.empty).1 files
    /\ writtenOf (logOf Sim.rt (write Sim.Join "/tmp" twoReports earlier) Sim.empty)
       = mjoin (zip_with (fun entry f => (fun row => (f, Csv.encodeRecord row)) <$> entry.2)
                  (answer Sim.rt _ (MapRange twoReports) Sim.empty).1 files)
    /\ printedOf (logOf Sim.rt (write Sim.Join "/tmp" twoReports earlier) Sim.empty)
       = (fun entry => wroteOutput (Sim.Join "/tmp" (entry.1 +:+ ".csv")))
           <$> (answer Sim.rt _ (MapRange twoReports) Sim.empty).1.
Proof.
  apply (write_files_hold_the_reports Sim.Join Sim.rt Sim.empty "/tmp" twoReports earlier
           (<["go-issues" := styledRows goIssues]> (<["go-cls" := styledRows goCLs]> earlier))).
  vm_compute; reflexivity.
Defined.

(** ** The accumulator over several batches *)

Lemma write_accumulator (Join : string -> string -> string) (rt : runtime)
    (Hrt : range_sound rt) (w : world rt) (outputDir : string) (data : gmap string table)
    (rowData rowData' : accumulator) (name : string) :
  outcomeOf rt (write Join outputDir data rowData) w = Done (None, rowData') ->
  rowData' !! name
  = match data !! name with
    | Some cells => Some (styledRows cells)
    | None => rowData !! name
    end.
Proof.
  intros Hok. apply write_returns in Hok as [[[] _]|[_ [w' Hadd]]]; [done|].
  rewrite addSheets_Done in Hadd. injection Hadd as <-.
  destruct (range_entries rt Hrt data w' name) as (Hnd & Hin & Hdom).
  destruct (data !! name) as [cells|] eqn:Hname.
  - apply withSheetsOf_in; [done|]. by apply Hin.
  - apply withSheetsOf_notin. rewrite Hdom. by intros [? [=]].
Qed.

(** X4.  Two calls of [write], one after the other, both without an
    error: a report name of the second batch holds the styled rows of
    the second batch, also when the first batch or the accumulator had
    that name; a name of the first batch only holds the rows of the
    first batch; every other name is as it was. *)
Theorem write_later_batch_replaces (Join : string -> string -> string) (rt : runtime)
    (Hrt : range_sound rt) (w1 w2 : world rt) (outputDir : string)
    (first second : gmap string table) (rowData rowData1 rowData2 : accumulator)
    (Hfirst : outcomeOf rt (write Join outputDir first rowData) w1 = Done (None, rowData1))
    (Hsecond : outcomeOf rt (write Join outputDir second rowData1) w2 = Done (None, rowData2)) :
  (forall name cells rd, second !! name = Some cells -> buildRows cells = Done rd ->
     rowData2 !! name = Some rd)
  /\ (forall name cells rd, second !! name = None -> first !! name = Some cells ->
        buildRows cells = Done rd -> rowData2 !! name = Some rd)
  /\ (forall name, second !! name = None -> first !! name = None ->
        rowData2 !! name = rowData !! name).
Proof.
  repeat split.
  - intros name cells rd Hname Hrd. rewrite buildRows_Done in Hrd. injection Hrd as <-.
    by rewrite (write_accumulator _ _ Hrt _ _ _ _ _ name Hsecond), Hname.
  - intros name cells rd Hnone Hname Hrd. rewrite buildRows_Done in Hrd. injection Hrd as <-.
    rewrite (write_accumulator _ _ Hrt _ _ _ _ _ name Hsecond), Hnone.
    by rewrite (write_accumulator _ _ Hrt _ _ _ _ _ name Hfirst), Hname.
  - intros name Hnone Hnone'.
    rewrite (write_accumulator _ _ Hrt _ _ _ _ _ name Hsecond), Hnone.
    by rewrite (write_accumulator _ _ Hrt _ _ _ _ _ name Hfirst), Hnone'.
Qed.

Lemma write_later_batch_replaces_witness :
  (forall name cells rd, laterReports !! name = Some cells -> buildRows cells = Done rd ->
     (<["go-cls" := styledRows [["Week"; "Mailed"]; ["2020-01-13"; "1"]]]>
        (<["go-issues" := styledRows goIssues]> (<["go-cls" := styledRows goCLs]> earlier)))
       !! name = Some rd)
  /\ (forall name cells rd, laterReports !! name = None -> twoReports !! name = Some cells ->
        buildRows cells = Done rd ->
        (<["go-cls" := styledRows [["Week"; "Mailed"]; ["2020-01-13"; "1"]]]>
           (<["go-issues" := styledRows goIssues]> (<["go-cls" := styledRows goCLs]> earlier)))
          !! name = Some rd)
  /\ (forall name, laterReports !! name = None -> twoReports !! name = None ->
        (<["go-cls" := styledRows [["Week"; "Mailed"]; ["2020-01-13"; "1"]]]>
           (<["go-issues" := styledRows goIssues]> (<["go-cls" := styledRows goCLs]> earlier)))
          !! name = earlier !! name).
Proof.
  apply (write_later_batch_replaces Sim.Join Sim.rt (fun V m w => reflexivity _)
           Sim.empty Sim.empty "/tmp" twoReports laterReports earlier
           (<["go-issues" := styledRows goIssues]> (<["go-cls" := styledRows goCLs]> earlier)));
    vm_compute; reflexivity.
Defined.

(** ** The format of a styled row *)

(** X5.  In a styled row all cells have the same format, and a cell
    with a background colour is bold. *)
Theorem styled_row_has_one_format (cells : table) :
  exists rd,
    buildRows cells = Done rd
    /\ forall i r, rd !! i = Some r ->
         (forall cd cd', cd ∈ Values r -> cd' ∈ Values r ->
            UserEnteredFormat cd = UserEnteredFormat cd')
         /\ (forall cd, cd ∈ Values r -> is_Some (BackgroundColor (UserEnteredFormat cd)) ->
               Bold (CellFormat_TextFormat (UserEnteredFormat cd)) = true).
Proof.
  exists (styledRows cells). split; [apply buildRows_Done|].
  intros i r Hr. rewrite styledRows_lookup in Hr.
  destruct (cells !! i) as [row|]; [|discriminate]. injection Hr as <-. simpl. split.
  - intros cd cd' (cell & -> & _)%list_elem_of_fmap (cell' & -> & _)%list_elem_of_fmap.
    reflexivity.
  - intros cd (cell & -> & _)%list_elem_of_fmap. simpl. unfold backgroundOf.
    destruct (firstCellIs row "Subtotal"); [by rewrite orb_true_r|].
    destruct (firstCellIs row "Total"); [by rewrite orb_true_r|]. by intros [? [=]].
Qed.

(** ** The identifier that [main] takes from a reference *)

Lemma classRun_split (s : string) :
  exists after,
    s = Regexp.classRun s +:+ after
    /\ Regexp.classRun after = ""
    /\ allBytes Regexp.inClass (Regexp.classRun s) = true.
Proof.
  induction s as [|c s (after & Hs & Hafter & Hall)].
  - by exists "".
  - simpl. destruct (Regexp.inClass c) eqn:Hc.
    + exists after. rewrite append_cons, <- Hs. simpl. by rewrite Hc, Hall.
    + exists (String c s). simpl. by rewrite Hc.
Qed.

Lemma matchAt_Some_inv (s : string) (groups : list string) :
  Regexp.matchAt s = Some groups ->
  exists rest,
    s = Regexp.literal +:+ rest
    /\ groups = [Regexp.literal +:+ Regexp.classRun rest; Regexp.classRun rest;
                 Regexp.classRun rest]
    /\ String.eqb (Regexp.classRun rest) "" = false.
Proof.
  unfold Regexp.matchAt. destruct (Strings.HasPrefix s Regexp.literal) eqn:Hp; [|discriminate].
  apply HasPrefix_inv in Hp.
  destruct (String.eqb (Regexp.classRun _) "") eqn:Hrun; [discriminate|].
  intros [= <-]. eauto.
Qed.

Lemma FindStringSubmatch_leftmost (s : string) (groups : list string) :
  Regexp.FindStringSubmatch s = groups -> groups <> [] ->
  exists before rest,
    s = before +:+ rest
    /\ Regexp.matchAt rest = Some groups
    /\ forall b1 b2, before = b1 +:+ b2 -> b2 <> "" -> Regexp.matchAt (b2 +:+ rest) = None.
Proof.
  induction s as [|x s IH]; intros Hfind Hne.
  - by subst groups.
  - cbn [Regexp.FindStringSubmatch] in Hfind.
    destruct (Regexp.matchAt (String x s)) as [g|] eqn:Hm.
    + subst g. exists "", (String x s). split; [done|]. split; [done|].
      intros b1 b2 Hb Hb2. destruct b1 as [|y b1].
      * rewrite append_nil in Hb. by subst b2.
      * rewrite append_cons in Hb. discriminate.
    + destruct (IH Hfind Hne) as (before & rest & -> & Hrest & Hleft).
      exists (String x before), rest. split; [done|]. split; [done|].
      intros b1 b2 Hb Hb2. destruct b1 as [|y b1].
      * rewrite append_nil in Hb. by subst b2.
      * rewrite append_cons in Hb. injection Hb as -> ->. by apply (Hleft b1).
Qed.

(** X6.  Whenever [main] gets an identifier from the reference, either
    the reference is "" or "new" and the identifier is empty, or the
    identifier is not empty, is made of bytes of the class only, and
    stands in the trimmed reference right after the literal
    /spreadsheets/d/, up to the first byte outside the class; and no
    match of the pattern begins before that literal. *)
Theorem identifier_is_the_leftmost_run (reference id : string)
    (Hid : spreadsheetIDOf reference = Done id) :
  (id = "" /\ (reference = "" \/ reference = "new"))
  \/ (reference <> "" /\ reference <> "new" /\ validId id = true
      /\ exists before after,
           trimmedOf reference = before +:+ Regexp.literal +:+ id +:+ after
           /\ Regexp.classRun after = ""
           /\ forall b1 b2, before = b1 +:+ b2 -> b2 <> "" ->
                Regexp.matchAt (b2 +:+ Regexp.literal +:+ id +:+ after) = None).
Proof.
  destruct (String.eqb reference "new") eqn:Hnew.
  { apply String.eqb_eq in Hnew as ->. injection Hid as <-. left. auto. }
  destruct (String.eqb reference "") eqn:Hempty.
  { apply String.eqb_eq in Hempty as ->. injection Hid as <-. left. auto. }
  right. rewrite spreadsheetIDOf_url in Hid by done.
  apply String.eqb_neq in Hnew, Hempty. split; [done|]. split; [done|].
  destruct (FindStringSubmatch_groups (trimmedOf reference)) as [Hnil|(id' & Hid' & Hgroups)].
  { rewrite Hnil in Hid. discriminate. }
  rewrite Hgroups, subexpLoop_groups in Hid. simpl in Hid. rewrite Hid' in Hid.
  injection Hid as ->.
  destruct (FindStringSubmatch_leftmost _ _ Hgroups) as (before & rest & Hs & Hm & Hleft);
    [discriminate|].
  destruct (matchAt_Some_inv _ _ Hm) as (rest' & -> & [= _ Hrun] & _).
  destruct (classRun_split rest') as (after & Hrest' & Hafter & Hall).
  rewrite <- Hrun in Hrest', Hall. subst rest'. split.
  - unfold validId. by rewrite Hid', Hall.
  - exists before, after. by repeat split.
Qed.

Lemma identifier_is_the_leftmost_run_witness :
  ("ABC123xyz_-" = "" /\ (urlOf "ABC123xyz_-" = "" \/ urlOf "ABC123xyz_-" = "new"))
  \/ (urlOf "ABC123xyz_-" <> "" /\ urlOf "ABC123xyz_-" <> "new"
      /\ validId "ABC123xyz_-" = true
      /\ exists before after,
           trimmedOf (urlOf "ABC123xyz_-")
           = before +:+ Regexp.literal +:+ "ABC123xyz_-" +:+ after
           /\ Regexp.classRun after = ""
           /\ forall b1 b2, before = b1 +:+ b2 -> b2 <> "" ->
                Regexp.matchAt (b2 +:+ Regexp.literal +:+ "ABC123xyz_-" +:+ after) = None).
Proof. apply (identifier_is_the_leftmost_run (urlOf "ABC123xyz_-")). reflexivity. Defined.

(** ** The phases of [main] *)

Lemma emits_Ret {A} (P : answered -> bool) (a : A) : emits P (Ret a).
Proof. by intros rt w. Qed.

Lemma emits_LogFatal {A} (P : answered -> bool) (msg : string) : emits P (@LogFatal A msg).
Proof. by intros rt w. Qed.

Lemma emits_lift {A} (P : answered -> bool) (o : outcome A) : emits P (lift o).
Proof. by destruct o; intros rt w. Qed.

Lemma emits_Vis {A R} (P : answered -> bool) (e : event R) (k : R -> prog A) :
  (forall r, P (Answered e r) = true) -> (forall r, emits P (k r)) -> emits P (Vis e k).
Proof.
  intros He Hk rt w. destruct (run_Vis rt e k w) as (_ & -> & _). simpl.
  by rewrite He, Hk.
Qed.

Lemma emits_bind {A B} (P : answered -> bool) (p : prog A) (k : A -> prog B) :
  emits P p -> (forall a, emits P (k a)) -> emits P (bind p k).
Proof.
  intros Hp Hk rt w. rewrite logOf_bind.
  destruct (outcomeOf rt p w); [|apply Hp..].
  by rewrite forallb_app, Hp, Hk.
Qed.

Lemma emits_orFatal {A} (P : answered -> bool) (r : error + A) : emits P (orFatal r).
Proof. destruct r as [[msg]|a]; [apply emits_LogFatal|apply emits_Ret]. Qed.

Lemma emits_fatalIf (P : answered -> bool) (err : option error) : emits P (fatalIf err).
Proof. destruct err as [[msg]|]; [apply emits_LogFatal|apply emits_Ret]. Qed.

Lemma notRemote_okWrite (f : File) (cells : table) : forallb notRemote (okWrite f <$> cells) = true.
Proof. by induction cells. Qed.

Lemma notRemote_segments (Join : string -> string -> string) (outputDir : string)
    (entries : list (string * table)) (files : list File) :
  forallb notRemote (segments Join outputDir entries files) = true.
Proof.
  revert files. induction entries as [|entry entries IH]; intros [|f files]; try reflexivity.
  rewrite segments_cons. change (forallb notRemote (?a :: ?l)) with (forallb notRemote l).
  by rewrite forallb_app, notRemote_okWrite, IH.
Qed.

Lemma notRemote_closed (files : list File) :
  forallb notRemote (closed <$> (files ≫= closers)) = true.
Proof. by induction files. Qed.

Lemma notRemote_printedFor (Join : string -> string -> string) (outputDir : string)
    (entries : list (string * table)) :
  forallb notRemote (printedFor Join outputDir <$> entries) = true.
Proof. by induction entries. Qed.

(** [write] does not reach the Sheets service. *)
Lemma write_notRemote (Join : string -> string -> string) (outputDir : string)
    (data : gmap string table) (rowData : accumulator) :
  emits notRemote (write Join outputDir data rowData).
Proof.
  intros rt w.
  destruct (write_trace Join rt w outputDir data rowData)
    as [(files & entries' & _ & _ & ->)
       |(e & before & entry & after & files & failing & created & _ & _ & Hfail & _ & ->)].
  - change (forallb notRemote (?a :: ?l)) with (forallb notRemote l).
    by rewrite !forallb_app, notRemote_segments, notRemote_printedFor, notRemote_closed.
  - change (forallb notRemote (?a :: ?l)) with (forallb notRemote l).
    rewrite !forallb_app, notRemote_segments, notRemote_closed.
    destruct Hfail as [[-> _]|(f & rowsBefore & row & rowsAfter & _ & -> & _)]; [done|].
    change (forallb notRemote (?a :: ?l)) with (forallb notRemote l).
    by rewrite forallb_app, notRemote_okWrite.
Qed.

Lemma collect_notRemote (Join : string -> string -> string) (f : flags)
    (emails : list string) (start : Time) (dir : string) (rowData : accumulator) :
  emits notRemote (collect Join f emails start dir rowData).
Proof.
  assert (forall data acc, emits notRemote (writeOrFatal Join dir data acc)) as Hwrite.
  { intros data acc. apply emits_bind; [apply write_notRemote|]. intros result.
    apply emits_bind; [apply emits_fatalIf|]. intros _. apply emits_Ret. }
  unfold collect. apply emits_bind.
  - destruct (gerritFlag f); [|apply emits_Ret].
    apply emits_bind.
    { apply emits_Vis; [done|]. intros r. apply emits_orFatal. }
    intros corpus. apply emits_bind.
    { apply emits_Vis; [done|]. intros r. apply emits_orFatal. }
    intros goIssues'. apply emits_bind; [apply Hwrite|]. intros acc.
    apply emits_bind; [|intros goCLs'; apply Hwrite].
    apply emits_Vis; [done|]. intros r. apply emits_orFatal.
  - intros acc. destruct (gitHubFlag f); [|apply emits_Ret].
    apply emits_bind; [|intros issues; apply Hwrite].
    apply emits_Vis; [done|]. intros r. apply emits_orFatal.
Qed.

(** X8.  [main] does nothing but parse the start date before all its
    checks have passed: in a run with any other event, the user name
    and the e-mail address are there where their flags ask for them,
    the start date, if given, was parsed, and the reference gave an
    identifier.  So no directory is made, no data source is asked and no
    file is written for a run that fails a check. *)
Theorem main_checks_before_it_works (Join : string -> string -> string) (rt : runtime)
    (w : world rt) (f : flags)
    (Hwork : forallb isTimeParse (logOf rt (main Join f) w) = false) :
  String.eqb (username f) "" && gitHubFlag f = false
  /\ String.eqb (email f) "" && gerritFlag f = false
  /\ (since f = ""
      \/ exists start, (answer rt _ (TimeParse "2006-01-02" (since f)) w).1 = inr start)
  /\ exists id, spreadsheetIDOf (googleSheetsFlag f) = Done id.
Proof.
  unfold main in Hwork.
  destruct (String.eqb (username f) "" && gitHubFlag f) eqn:Huser; [discriminate|].
  destruct (String.eqb (email f) "" && gerritFlag f) eqn:Hemail; [discriminate|].
  split; [done|]. split; [done|].
  change (bind (Ret tt) ?k) with (k tt) in Hwork. cbv beta in Hwork.
  change (bind (Ret tt) ?k) with (k tt) in Hwork. cbv beta in Hwork.
  rewrite logOf_bind in Hwork. unfold startOf in Hwork |- *.
  destruct (String.eqb (since f) "") eqn:Hsince; simpl negb in Hwork; cbv iota in Hwork.
  - apply String.eqb_eq in Hsince. split; [by left|].
    change (outcomeOf rt (Ret ?a) w) with (Done a) in Hwork. cbv iota in Hwork.
    change (logOf rt (Ret _) w) with (@nil answered) in Hwork.
    change (worldOf rt (Ret _) w) with w in Hwork. rewrite app_nil_l in Hwork.
    destruct (spreadsheetIDOf (googleSheetsFlag f)) as [id|m|m]; [eauto|discriminate..].
  - set (p := bind (call (TimeParse "2006-01-02" (since f))) _) in Hwork.
    destruct (run_Vis rt (TimeParse "2006-01-02" (since f)) orFatal w) as (Ho & Hl & Hw).
    change (Vis (TimeParse "2006-01-02" (since f)) orFatal) with p in Ho, Hl, Hw.
    rewrite Ho, Hl, Hw in Hwork.
    destruct (answer rt _ (TimeParse "2006-01-02" (since f)) w) as [[[msg]|start] w1].
    + discriminate.
    + split; [right; by exists start|].
      destruct (spreadsheetIDOf (googleSheetsFlag f)) as [id|m|m]; [eauto|discriminate..].
Qed.

Lemma main_checks_before_it_works_witness :
  String.eqb (username appendFlags) "" && gitHubFlag appendFlags = false
  /\ String.eqb (email appendFlags) "" && gerritFlag appendFlags = false
  /\ (since appendFlags = ""
      \/ exists start,
           (answer Sim.rt _ (TimeParse "2006-01-02" (since appendFlags)) Sim.existing).1
           = inr start)
  /\ exists id, spreadsheetIDOf (googleSheetsFlag appendFlags) = Done id.
Proof.
  apply (main_checks_before_it_works Sim.Join Sim.rt Sim.existing appendFlags).
  vm_compute; reflexivity.
Defined.

(** ** The remote sink, for any accumulator *)

(** X9.  [appendToSheet] with any accumulator: the first batch adds one
    tab for every report name, each with a frozen first row.  If the
    service refuses it, its error is returned and nothing else is sent.
    If not, one more batch follows, with one append request for every
    tab of the answer, carrying the rows the accumulator has under the
    title of that tab (none for a title it does not have); the error of
    that batch, or else the spreadsheet of its answer, is returned. *)
Theorem appendToSheet_protocol (rt : runtime) (Hrt : range_sound rt) (w : world rt)
    (spreadsheetID : string) (rowData : accumulator) :
  exists names,
    names ≡ₚ (map_to_list rowData).*1
    /\ NoDup names
    /\ ((exists err,
            sheetsCalls (logOf rt (appendToSheet spreadsheetID rowData) w)
            = [BatchUpdateCall spreadsheetID (addTabs names) (inl err)]
            /\ outcomeOf rt (appendToSheet spreadsheetID rowData) w = Done (inl err))
        \/ (exists response r,
              sheetsCalls (logOf rt (appendToSheet spreadsheetID rowData) w)
              = [BatchUpdateCall spreadsheetID (addTabs names) (inr response);
                 BatchUpdateCall spreadsheetID (appendRows rowData response) r]
              /\ outcomeOf rt (appendToSheet spreadsheetID rowData) w
                 = Done (match r with
                         | inl err => inl err
                         | inr response' => inr (UpdatedSpreadsheet response')
                         end))).
Proof.
  unfold logOf, outcomeOf, appendToSheet. simpl.
  pose proof (Hrt _ rowData w) as Hperm.
  destruct (answer rt _ (MapRange rowData) w) as [entries w1]. simpl in Hperm.
  exists entries.*1. split; [by rewrite Hperm|]. split.
  { rewrite Hperm. apply NoDup_fst_map_to_list. }
  simpl.
  assert ({| IncludeSpreadsheetInResponse := true;
             Requests := (fun entry : string * list RowData => createRequest entry.1) <$> entries |}
          = addTabs entries.*1) as ->.
  { unfold addTabs. f_equal. by rewrite <- list_fmap_compose. }
  destruct (answer rt _ (SpreadsheetsBatchUpdate spreadsheetID (addTabs entries.*1)) w1)
    as [[err|response] w2]; simpl.
  - left. by exists err.
  - right. change {| IncludeSpreadsheetInResponse := true;
                     Requests := dataRequest rowData <$> Sheets (UpdatedSpreadsheet response) |}
      with (appendRows rowData response).
    destruct (answer rt _ (SpreadsheetsBatchUpdate spreadsheetID _) w2) as [r w3].
    exists response, r. by destruct r.
Qed.

Lemma appendToSheet_protocol_witness :
  exists names,
    names ≡ₚ (map_to_list (styledRows <$> twoReports)).*1
    /\ NoDup names
    /\ ((exists err,
            sheetsCalls (logOf Sim.rt (appendToSheet "S" (styledRows <$> twoReports)) Sim.existing)
            = [BatchUpdateCall "S" (addTabs names) (inl err)]
            /\ outcomeOf Sim.rt (appendToSheet "S" (styledRows <$> twoReports)) Sim.existing
               = Done (inl err))
        \/ (exists response r,
              sheetsCalls
                (logOf Sim.rt (appendToSheet "S" (styledRows <$> twoReports)) Sim.existing)
              = [BatchUpdateCall "S" (addTabs names) (inr response);
                 BatchUpdateCall "S" (appendRows (styledRows <$> twoReports) response) r]
              /\ outcomeOf Sim.rt (appendToSheet "S" (styledRows <$> twoReports)) Sim.existing
                 = Done (match r with
                         | inl err => inl err
                         | inr response' => inr (UpdatedSpreadsheet response')
                         end))).
Proof. apply (appendToSheet_protocol Sim.rt (fun V m w => reflexivity _)). Defined.

(** ** The token and the service *)

(** X11.  [getOauthToken] opens at most one file in a run, and when it
    opened one, closing it is the last thing it does, and it closes
    nothing else; when it opened none, it closes none. *)
Theorem getOauthToken_closes_its_file (L : Auth.Libraries) (rt : Auth.runtime)
    (w : Auth.world rt) (tokenFile : string) (config : Auth.Config) :
  match Auth.openedOf (Auth.logOf rt (Auth.getOauthToken tokenFile config) w) with
  | [] => Auth.closedOf (Auth.logOf rt (Auth.getOauthToken tokenFile config) w) = []
  | [f] =>
      exists before u,
        Auth.logOf rt (Auth.getOauthToken tokenFile config) w
        = before ++ [Auth.Answered (Auth.FileClose f) u]
        /\ Auth.closedOf before = []
  | _ => False
  end.
Proof.
  unfold Auth.logOf, Auth.getOauthToken. simpl.
  destruct (Auth.answer rt _ (Auth.OsOpen tokenFile) w) as [[err|f] w1]; simpl.
  - destruct (Auth.IsNotExist err); simpl; [|done].
    destruct (Auth.answer rt _ (Auth.Printf _) w1) as [u1 w2]. simpl.
    destruct (Auth.answer rt _ Auth.Scan w2) as [[err2|authCode] w3]; simpl; [done|].
    destruct (Auth.answer rt _ (Auth.Exchange config authCode) w3) as [[err3|tok] w4];
      simpl; [done|].
    destruct (Auth.answer rt _ (Auth.Printf _) w4) as [u2 w5]. simpl.
    destruct (Auth.answer rt _ (Auth.OsOpenFile tokenFile _ _) w5) as [[err4|f] w6];
      simpl; [done|].
    destruct (Auth.answer rt _ (Auth.JsonEncode f tok) w6) as [[err5|] w7]; simpl;
      destruct (Auth.answer rt _ (Auth.FileClose f) w7) as [u3 w8]; simpl;
      by eexists [_; _; _; _; _; _; _], u3.
  - destruct (Auth.answer rt _ (Auth.JsonDecode f) w1) as [[err2|tok] w2]; simpl;
      destruct (Auth.answer rt _ (Auth.FileClose f) w2) as [u w3]; simpl;
      by eexists [_; _], u.
Qed.

(** X12.  [getOauthToken] addresses the user, asks the network for a
    token or rewrites the token file only when the token file could not
    be opened because it does not exist. *)
Theorem user_is_asked_only_without_token_file (L : Auth.Libraries) (rt : Auth.runtime)
    (w : Auth.world rt) (tokenFile : string) (config : Auth.Config)
    (Hasked : existsb Auth.authorizes (Auth.logOf rt (Auth.getOauthToken tokenFile config) w)
              = true) :
  exists err rest,
    Auth.logOf rt (Auth.getOauthToken tokenFile config) w
    = Auth.Answered (Auth.OsOpen tokenFile) (inl err) :: rest
    /\ Auth.IsNotExist err = true.
Proof.
  revert Hasked. unfold Auth.logOf, Auth.getOauthToken. simpl.
  destruct (Auth.answer rt _ (Auth.OsOpen tokenFile) w) as [[err|f] w1]; simpl.
  - destruct (Auth.IsNotExist err) eqn:Hmissing; simpl; [|done].
    intros _. exists err.
    repeat match goal with
           | |- context [Auth.answer rt ?R ?e ?w0] =>
               destruct (Auth.answer rt R e w0) as [[] ?]; simpl
           end; by eexists.
  - destruct (Auth.answer rt _ (Auth.JsonDecode f) w1) as [[err2|tok] w2]; simpl;
      by destruct (Auth.answer rt _ (Auth.FileClose f) w2) as [u w3].
Qed.

Lemma user_is_asked_only_without_token_file_witness :
  exists (err : error) (rest : list (Auth.answered (L := Auth.simLibraries))),
    Auth.logOf Auth.sim (Auth.getOauthToken "token.json" Auth.firstConfig)
        Auth.firstRun
    = Auth.Answered (Auth.OsOpen "token.json") (inl err) :: rest
    /\ Auth.IsNotExist (Libraries := Auth.simLibraries) err = true.
Proof.
  apply (user_is_asked_only_without_token_file Auth.simLibraries Auth.sim Auth.firstRun
           "token.json" Auth.firstConfig).
  reflexivity.
Defined.

(** X13.  A token that [getOauthToken] returns was either read from the
    token file, and then nothing else happened, or was given for the
    code the user typed and has been written to the token file, opened
    for that with truncation, before the file was closed. *)
Theorem returned_token_is_in_the_token_file (L : Auth.Libraries) (rt : Auth.runtime)
    (w : Auth.world rt) (tokenFile : string) (config : Auth.Config) (tok : Auth.Token)
    (Hreturned : Auth.resultOf rt (Auth.getOauthToken tokenFile config) w = inr tok) :
  (exists f u,
      Auth.logOf rt (Auth.getOauthToken tokenFile config) w
      = [Auth.Answered (Auth.OsOpen tokenFile) (inr f);
         Auth.Answered (Auth.JsonDecode f) (inr tok);
         Auth.Answered (Auth.FileClose f) u])
  \/ (exists err authCode f u1 u2 u3,
        Auth.IsNotExist err = true
        /\ Auth.logOf rt (Auth.getOauthToken tokenFile config) w
           = [Auth.Answered (Auth.OsOpen tokenFile) (inl err);
              Auth.Answered
                (Auth.Printf
                   (Auth.prompt
                      (Auth.AuthCodeURL config "state-token" [Auth.AccessTypeOffline]))) u1;
              Auth.Answered Auth.Scan (inr authCode);
              Auth.Answered (Auth.Exchange config authCode) (inr tok);
              Auth.Answered
                (Auth.Printf ("Saving credential file to: " +:+ tokenFile +:+ newline)) u2;
              Auth.Answered
                (Auth.OsOpenFile tokenFile [Auth.O_RDWR; Auth.O_CREATE; Auth.O_TRUNC] 384)
                (inr f);
              Auth.Answered (Auth.JsonEncode f tok) None;
              Auth.Answered (Auth.FileClose f) u3]).
Proof.
  revert Hreturned. unfold Auth.resultOf, Auth.logOf, Auth.getOauthToken. simpl.
  destruct (Auth.answer rt _ (Auth.OsOpen tokenFile) w) as [[err|f] w1]; simpl.
  - destruct (Auth.IsNotExist err) eqn:Hmissing; simpl; [|done].
    destruct (Auth.answer rt _ (Auth.Printf _) w1) as [u1 w2]. simpl.
    destruct (Auth.answer rt _ Auth.Scan w2) as [[err2|authCode] w3]; simpl; [done|].
    destruct (Auth.answer rt _ (Auth.Exchange config authCode) w3) as [[err3|tok'] w4];
      simpl; [done|].
    destruct (Auth.answer rt _ (Auth.Printf _) w4) as [u2 w5]. simpl.
    destruct (Auth.answer rt _ (Auth.OsOpenFile tokenFile _ _) w5) as [[err4|f] w6];
      simpl; [done|].
    destruct (Auth.answer rt _ (Auth.JsonEncode f tok') w6) as [[err5|] w7]; simpl;
      destruct (Auth.answer rt _ (Auth.FileClose f) w7) as [u3 w8]; simpl; [done|].
    intros [= ->]. right. by exists err, authCode, f, u1, u2, u3.
  - destruct (Auth.answer rt _ (Auth.JsonDecode f) w1) as [[err2|tok'] w2]; simpl;
      destruct (Auth.answer rt _ (Auth.FileClose f) w2) as [u w3]; simpl; [done|].
    intros [= ->]. left. by exists f, u.
Qed.

Lemma returned_token_is_in_the_token_file_witness :
  (exists (f : File) (u : unit),
      Auth.logOf Auth.sim (Auth.getOauthToken "token.json" Auth.firstConfig)
        Auth.firstRun
      = [Auth.Answered (Auth.OsOpen "token.json") (inr f);
         Auth.Answered (Auth.JsonDecode f) (inr Auth.firstToken);
         Auth.Answered (Auth.FileClose f) u])
  \/ (exists (err : error) (authCode : string) (f : File) (u1 u2 u3 : unit),
        Auth.IsNotExist (Libraries := Auth.simLibraries) err = true
        /\ Auth.logOf Auth.sim (Auth.getOauthToken "token.json" Auth.firstConfig)
        Auth.firstRun
           = [Auth.Answered (Auth.OsOpen "token.json") (inl err);
              Auth.Answered
                (Auth.Printf
                   (Auth.prompt
                      (Auth.AuthCodeURL Auth.firstConfig "state-token" [Auth.AccessTypeOffline]))) u1;
              Auth.Answered Auth.Scan (inr authCode);
              Auth.Answered (Auth.Exchange Auth.firstConfig authCode) (inr Auth.firstToken);
              Auth.Answered
                (Auth.Printf ("Saving credential file to: " +:+ "token.json" +:+ newline)) u2;
              Auth.Answered
                (Auth.OsOpenFile "token.json" [Auth.O_RDWR; Auth.O_CREATE; Auth.O_TRUNC] 384)
                (inr f);
              Auth.Answered (Auth.JsonEncode f Auth.firstToken) None;
              Auth.Answered (Auth.FileClose f) u3]).
Proof.
  apply (returned_token_is_in_the_token_file Auth.simLibraries Auth.sim Auth.firstRun
           "token.json" Auth.firstConfig Auth.firstToken).
  reflexivity.
Defined.

Lemma Auth_run_bind {L : Auth.Libraries} {A B} (rt : Auth.runtime) (p : Auth.prog A)
    (k : A -> Auth.prog B) (w : Auth.world rt) :
  Auth.run rt (Auth.bind p k) w
  = let '(a, log, w1) := Auth.run rt p w in
    let '(b, log', w2) := Auth.run rt (k a) w1 in
    (b, log ++ log', w2).
Proof.
  revert w. induction p as [a|R e h IH]; intros w; simpl.
  - by destruct (Auth.run rt (k a) w) as [[b log'] w2].
  - destruct (Auth.answer rt R e w) as [r w1]. rewrite IH.
    destruct (Auth.run rt (h r) w1) as [[a log] w2].
    by destruct (Auth.run rt (k a) w2) as [[b log'] w3].
Qed.

(** When [getOauthToken] returns an error, it is the error of the last
    call before the deferred one. *)
Lemma getOauthToken_error (L : Auth.Libraries) (rt : Auth.runtime) (w : Auth.world rt)
    (tokenFile : string) (config : Auth.Config) (err : error) :
  Auth.resultOf rt (Auth.getOauthToken tokenFile config) w = inl err ->
  exists before failing closings,
    Auth.logOf rt (Auth.getOauthToken tokenFile config) w = before ++ failing :: closings
    /\ Auth.errorOf failing = Some err
    /\ forallb Auth.isClose closings = true.
Proof.
  unfold Auth.resultOf, Auth.logOf, Auth.getOauthToken. simpl.
  destruct (Auth.answer rt _ (Auth.OsOpen tokenFile) w) as [[err1|f] w1]; simpl.
  - destruct (Auth.IsNotExist err1); simpl.
    2:{ intros [= ->]. by eexists [], _, []. }
    destruct (Auth.answer rt _ (Auth.Printf _) w1) as [u1 w2]. simpl.
    destruct (Auth.answer rt _ Auth.Scan w2) as [[err2|authCode] w3]; simpl.
    { intros [= ->]. by eexists [_; _], _, []. }
    destruct (Auth.answer rt _ (Auth.Exchange config authCode) w3) as [[err3|tok] w4]; simpl.
    { intros [= ->]. by eexists [_; _; _], _, []. }
    destruct (Auth.answer rt _ (Auth.Printf _) w4) as [u2 w5]. simpl.
    destruct (Auth.answer rt _ (Auth.OsOpenFile tokenFile _ _) w5) as [[err4|f] w6]; simpl.
    { intros [= ->]. by eexists [_; _; _; _; _], _, []. }
    destruct (Auth.answer rt _ (Auth.JsonEncode f tok) w6) as [[err5|] w7]; simpl;
      destruct (Auth.answer rt _ (Auth.FileClose f) w7) as [u3 w8]; simpl; [|done].
    intros [= ->]. by eexists [_; _; _; _; _; _], _, [_].
  - destruct (Auth.answer rt _ (Auth.JsonDecode f) w1) as [[err2|tok] w2]; simpl;
      destruct (Auth.answer rt _ (Auth.FileClose f) w2) as [u w3]; simpl; [|done].
    intros [= ->]. by eexists [_], _, [_].
Qed.

(** X14.  A service that [googleSheetsService] returns was built from
    the configuration parsed from the content of the credentials file,
    for the scope of spreadsheets, and from the token that
    [getOauthToken] returned for that configuration; nothing else
    happened in between. *)
Theorem service_is_built_from_the_token (L : Auth.Libraries) (rt : Auth.runtime)
    (w : Auth.world rt) (credentialsFile tokenFile : string) (srv : Auth.Service)
    (Hbuilt : Auth.resultOf rt (Auth.googleSheetsService credentialsFile tokenFile) w
              = inr srv) :
  exists b config tok w1 w2,
    Auth.answer rt _ (Auth.ReadFile credentialsFile) w = (inr b, w1)
    /\ Auth.answer rt _
         (Auth.ConfigFromJSON b "https://www.googleapis.com/auth/spreadsheets") w1
       = (inr config, w2)
    /\ Auth.resultOf rt (Auth.getOauthToken tokenFile config) w2 = inr tok
    /\ Auth.logOf rt (Auth.googleSheetsService credentialsFile tokenFile) w
       = Auth.Answered (Auth.ReadFile credentialsFile) (inr b)
         :: Auth.Answered
              (Auth.ConfigFromJSON b "https://www.googleapis.com/auth/spreadsheets")
              (inr config)
         :: Auth.logOf rt (Auth.getOauthToken tokenFile config) w2
         ++ [Auth.Answered (Auth.SheetsNew config tok) (inr srv)].
Proof.
  revert Hbuilt. unfold Auth.resultOf, Auth.logOf, Auth.googleSheetsService.
  cbn [Auth.bind Auth.call Auth.run].
  destruct (Auth.answer rt _ (Auth.ReadFile credentialsFile) w) as [[err|b] w1] eqn:Hread;
    [done|].
  cbn [Auth.bind Auth.call Auth.run].
  change Auth.scope with "https://www.googleapis.com/auth/spreadsheets".
  destruct (Auth.answer rt _ (Auth.ConfigFromJSON b _) w1) as [[err|config] w2] eqn:Hparse;
    [done|].
  rewrite Auth_run_bind.
  destruct (Auth.run rt (Auth.getOauthToken tokenFile config) w2) as [[[err|tok] log] w3]
    eqn:Htoken; [done|].
  cbn [Auth.bind Auth.call Auth.run].
  destruct (Auth.answer rt _ (Auth.SheetsNew config tok) w3) as [[err|srv'] w4]; [done|].
  cbn [fst snd]. intros [= ->]. exists b, config, tok, w1, w2.
  rewrite Hparse, Htoken. by repeat split.
Qed.

Lemma service_is_built_from_the_token_witness :
  exists b config tok w1 w2,
    Auth.answer Auth.sim _ (Auth.ReadFile "credentials.json") Auth.firstRun = (inr b, w1)
    /\ Auth.answer Auth.sim _
         (Auth.ConfigFromJSON b "https://www.googleapis.com/auth/spreadsheets") w1
       = (inr config, w2)
    /\ Auth.resultOf Auth.sim (Auth.getOauthToken "token.json" config) w2 = inr tok
    /\ Auth.logOf Auth.sim (Auth.googleSheetsService "credentials.json" "token.json")
         Auth.firstRun
       = Auth.Answered (Auth.ReadFile "credentials.json") (inr b)
         :: Auth.Answered
              (Auth.ConfigFromJSON b "https://www.googleapis.com/auth/spreadsheets")
              (inr config)
         :: Auth.logOf Auth.sim (Auth.getOauthToken "token.json" config) w2
         ++ [Auth.Answered (Auth.SheetsNew config tok)
               (inr ("service of " +:+ Auth.firstToken))].
Proof.
  apply (service_is_built_from_the_token Auth.simLibraries Auth.sim Auth.firstRun
           "credentials.json" "token.json" ("service of " +:+ Auth.firstToken)).
  reflexivity.
Defined.

(** X15.  An error that [googleSheetsService] returns is the error of the
    last call it made, the deferred closing of the token file apart: no
    call follows a failure that is returned, and the error is passed on
    as it is. *)
Theorem service_error_is_the_last_error (L : Auth.Libraries) (rt : Auth.runtime)
    (w : Auth.world rt) (credentialsFile tokenFile : string) (err : error)
    (Hfailed : Auth.resultOf rt (Auth.googleSheetsService credentialsFile tokenFile) w
               = inl err) :
  exists before failing closings,
    Auth.logOf rt (Auth.googleSheetsService credentialsFile tokenFile) w
    = before ++ failing :: closings
    /\ Auth.errorOf failing = Some err
    /\ forallb Auth.isClose closings = true.
Proof.
  revert Hfailed. unfold Auth.resultOf, Auth.logOf, Auth.googleSheetsService.
  cbn [Auth.bind Auth.call Auth.run].
  destruct (Auth.answer rt _ (Auth.ReadFile credentialsFile) w) as [[err1|b] w1].
  { simpl. intros [= ->]. by eexists [], _, []. }
  cbn [Auth.bind Auth.call Auth.run].
  destruct (Auth.answer rt _ (Auth.ConfigFromJSON b _) w1) as [[err2|config] w2].
  { simpl. intros [= ->]. by eexists [_], _, []. }
  rewrite Auth_run_bind.
  pose proof (getOauthToken_error L rt w2 tokenFile config) as Htoken.
  unfold Auth.resultOf, Auth.logOf in Htoken.
  destruct (Auth.run rt (Auth.getOauthToken tokenFile config) w2) as [[[err3|tok] log] w3].
  - simpl. intros [= ->].
    destruct (Htoken err eq_refl) as (before & failing & closings & Hlog & Herr & Hclose).
    simpl in Hlog. subst log. eexists (_ :: _ :: before), failing, closings.
    rewrite app_nil_r. by repeat split.
  - cbn [Auth.bind Auth.call Auth.run].
    destruct (Auth.answer rt _ (Auth.SheetsNew config tok) w3) as [[err4|srv] w4]; [|done].
    simpl. intros [= ->]. eexists (_ :: _ :: log), _, []. by repeat split.
Qed.

Lemma service_error_is_the_last_error_witness :
  exists before failing closings,
    Auth.logOf Auth.sim (Auth.googleSheetsService "credentials.json" "token.json")
      Auth.noCredentials
    = before ++ failing :: closings
    /\ Auth.errorOf failing = Some (Err "file does not exist")
    /\ forallb Auth.isClose closings = true.
Proof.
  apply (service_error_is_the_last_error Auth.simLibraries Auth.sim Auth.noCredentials
           "credentials.json" "token.json" (Err "file does not exist")).
  reflexivity.
Defined.

(** ** The whole program: [main] with [googleSheetsService] in it *)

Section WholeRuns.

Context {L : Auth.Libraries}.

Variables credentialsFile tokenFile : string.

Lemma runWhole_bind {A B} (m : machine) (p : prog A) (k : A -> prog B) (w : mstate m) :
  runWhole credentialsFile tokenFile m (bind p k) w =
    match runWhole credentialsFile tokenFile m p w with
    | (Done a, log, w1) =>
        let '(o, log', w2) := runWhole credentialsFile tokenFile m (k a) w1 in
        (o, log ++ log', w2)
    | (Fatal msg, log, w1) => (Fatal msg, log, w1)
    | (Panic msg, log, w1) => (Panic msg, log, w1)
    end.
Proof.
  revert w. induction p as [a|msg|msg|R e h IH]; intros w; cbn [bind runWhole].
  - by destruct (runWhole _ _ m (k a) w) as [[o log'] w2].
  - reflexivity.
  - reflexivity.
  - destruct e;
      try (destruct (answerMain m _ _ w) as [ans st1]; rewrite IH;
           destruct (runWhole _ _ m (h ans) st1) as [[[res|?|?] log] st2]; try reflexivity;
           by destruct (runWhole _ _ m (k res) st2) as [[o log'] st3]).
    cbn beta iota.
    destruct (Auth.run (serviceOf m) (Auth.googleSheetsService credentialsFile tokenFile) w)
      as [[r serviceLog] w1]. rewrite IH.
    destruct (runWhole _ _ m (h (errOf r)) w1) as [[[a|msg|msg] log] w2]; try reflexivity.
    destruct (runWhole _ _ m (k a) w2) as [[o log'] w3]. by rewrite app_assoc.
Qed.

(** Where [main] does not call [googleSheetsService], the whole run is
    the run of [main]. *)
Lemma runWhole_plain {A} (m : machine) (p : prog A) (w : mstate m) :
  forallb notServiceCall (logOf (mainOf m) p w) = true ->
  runWhole credentialsFile tokenFile m p w
  = let '(o, log, w1) := run (mainOf m) p w in (o, Main <$> log, w1).
Proof.
  unfold logOf. revert w. induction p as [a|msg|msg|R e h IH]; intros w Hplain; try reflexivity.
  destruct e; cbn [run runWhole answer mainOf] in Hplain |- *; cbn beta iota;
    try (destruct (answerMain m _ _ w) as [ans st1]; specialize (IH ans st1);
         destruct (run (mainOf m) (h ans) st1) as [[o log] st2]; simpl in Hplain, IH;
         by rewrite (IH Hplain)).
  destruct (answerMain m _ GoogleSheetsService w) as [ans st1].
  by destruct (run (mainOf m) (h ans) st1) as [[o log] st2].
Qed.

Lemma notRemote_notServiceCall (a : answered) :
  notRemote a = true -> notServiceCall a = true.
Proof. destruct a as [R e r]. by destruct e. Qed.

Lemma forallb_weaken {X} (P Q : X -> bool) (l : list X) :
  (forall x, P x = true -> Q x = true) -> forallb P l = true -> forallb Q l = true.
Proof.
  intros HPQ. rewrite !forallb_forall. intros Hl x Hx. by apply HPQ, Hl.
Qed.

Lemma forallb_Main (P : answered -> bool) (Q : step -> bool) (log : list answered) :
  (forall a, P a = true -> Q (Main a) = true) ->
  forallb P log = true -> forallb Q (Main <$> log) = true.
Proof.
  intros HPQ. induction log as [|a log IH]; [done|]. simpl.
  rewrite !andb_true_iff. intros [Ha Hlog]. split; [by apply HPQ|by apply IH].
Qed.

Lemma forallb_InService (serviceLog : list Auth.answered) :
  forallb exportStep (InService <$> serviceLog) = true.
Proof. by induction serviceLog. Qed.

Lemma wholeThen_bind {A B} (Q : step -> bool) (p : prog A) (k : A -> prog B) :
  emits notRemote p ->
  (forall a, wholeThen credentialsFile tokenFile notRemote Q (k a)) ->
  wholeThen credentialsFile tokenFile notRemote Q (bind p k).
Proof.
  intros Hp Hk m w. specialize (Hp (mainOf m) w). unfold logWhole.
  rewrite runWhole_bind, runWhole_plain
    by (by apply (forallb_weaken notRemote), Hp; apply notRemote_notServiceCall).
  unfold logOf in Hp.
  destruct (run (mainOf m) p w) as [[[a|msg|msg] log] w1]; simpl in Hp.
  - destruct (Hk a m w1) as (pre & post & Hlog & Hpre & Hpost). unfold logWhole in Hlog.
    destruct (runWhole _ _ m (k a) w1) as [[o log'] w2]. simpl in Hlog |- *. subst log'.
    exists (log ++ pre), post. rewrite fmap_app, <- app_assoc. split; [done|].
    by rewrite forallb_app, Hp, Hpre.
  - exists log, []. by rewrite app_nil_r.
  - exists log, []. by rewrite app_nil_r.
Qed.

Lemma wholeThen_main (Join : string -> string -> string) (f : flags)
    (k : accumulator -> string -> Time -> prog unit) (Q : step -> bool) :
  (forall rowData spreadsheetID start,
     wholeThen credentialsFile tokenFile notRemote Q (k rowData spreadsheetID start)) ->
  wholeThen credentialsFile tokenFile notRemote Q
    ((if String.eqb (username f) "" && gitHubFlag f
      then LogFatal "Please provide a GitHub username." else Ret tt) ;;;
     (if String.eqb (email f) "" && gerritFlag f
      then LogFatal "Please provide your Gerrit email." else Ret tt) ;;;
     start <- startOf (since f) ;;
     spreadsheetID <- lift (spreadsheetIDOf (googleSheetsFlag f)) ;;
     dir <- (r <- call (TempDir "" "work-stats") ;; orFatal r) ;;
     rowData <- collect Join f (splitComma (email f)) start dir ∅ ;;
     k rowData spreadsheetID start)%prog.
Proof.
  intros Hk.
  apply wholeThen_bind.
  { destruct (_ && _); [apply emits_LogFatal|apply emits_Ret]. }
  intros _. apply wholeThen_bind.
  { destruct (_ && _); [apply emits_LogFatal|apply emits_Ret]. }
  intros _. apply wholeThen_bind.
  { unfold startOf. destruct (negb _); [|apply emits_Ret].
    apply emits_Vis; [done|]. intros r. apply emits_orFatal. }
  intros start. apply wholeThen_bind; [apply emits_lift|]. intros spreadsheetID.
  apply wholeThen_bind.
  { apply emits_Vis; [done|]. intros r. apply emits_orFatal. }
  intros dir. apply wholeThen_bind; [apply collect_notRemote|]. intros rowData.
  apply Hk.
Qed.

Lemma afterService_sheetsPhase (err : option error) (googleSheetsFlag spreadsheetID : string)
    (start : Time) (rowData : accumulator) :
  emits sheetsPhase (afterService err googleSheetsFlag spreadsheetID start rowData).
Proof.
  unfold afterService. apply emits_bind; [apply emits_fatalIf|]. intros _.
  apply emits_bind.
  - destruct (String.eqb googleSheetsFlag "new").
    + apply emits_bind; [|intros r; apply emits_orFatal].
      unfold createSheet. apply emits_Vis; [done|]. intros entries.
      apply emits_Vis; [done|]. intros r. apply emits_Ret.
    + apply emits_bind; [|intros r; apply emits_orFatal].
      unfold appendToSheet. apply emits_Vis; [done|]. intros entries.
      apply emits_Vis; [done|]. intros [err'|response]; [apply emits_Ret|].
      apply emits_Vis; [done|]. intros [err'|response']; apply emits_Ret.
  - intros spreadsheet. unfold resizeColumns. apply emits_Vis; [done|]. intros r.
    apply emits_bind; [apply emits_orFatal|]. intros _.
    apply emits_Vis; [done|]. intros []. apply emits_Ret.
Qed.

(** The whole run of the last part of [main]: the run of
    [googleSheetsService], then the rest of [main] with its error. *)
Lemma export_whole (m : machine) (w : mstate m) (googleSheetsFlag spreadsheetID : string)
    (start : Time) (rowData : accumulator) :
  runWhole credentialsFile tokenFile m (export googleSheetsFlag spreadsheetID start rowData) w
  = if String.eqb googleSheetsFlag "" then (Done tt, [], w)
    else
      let '(r, serviceLog, w1) :=
        Auth.run (serviceOf m) (Auth.googleSheetsService credentialsFile tokenFile) w in
      let '(o, log, w2) :=
        run (mainOf m) (afterService (errOf r) googleSheetsFlag spreadsheetID start rowData) w1 in
      (o, (InService <$> serviceLog) ++ (Main <$> log), w2).
Proof.
  unfold export. destruct (String.eqb googleSheetsFlag ""); [reflexivity|].
  change (runWhole credentialsFile tokenFile m
            (Vis GoogleSheetsService
               (fun err => afterService err googleSheetsFlag spreadsheetID start rowData)) w
          = let '(r, serviceLog, w1) :=
              Auth.run (serviceOf m) (Auth.googleSheetsService credentialsFile tokenFile) w in
            let '(o, log, w2) :=
              run (mainOf m)
                (afterService (errOf r) googleSheetsFlag spreadsheetID start rowData) w1 in
            (o, (InService <$> serviceLog) ++ (Main <$> log), w2)).
  cbn [runWhole].
  destruct (Auth.run (serviceOf m) _ w) as [[r serviceLog] w1].
  rewrite runWhole_plain.
  - by destruct (run (mainOf m) _ w1) as [[o log] w2].
  - apply (forallb_weaken sheetsPhase); [|apply afterService_sheetsPhase].
    intros a. unfold sheetsPhase. by intros [_ ?]%andb_true_iff.
Qed.

Lemma export_wholeThen (googleSheetsFlag spreadsheetID : string) (start : Time)
    (rowData : accumulator) :
  wholeThen credentialsFile tokenFile notRemote exportStep
    (export googleSheetsFlag spreadsheetID start rowData).
Proof.
  intros m w. exists [], (logWhole credentialsFile tokenFile m
                            (export googleSheetsFlag spreadsheetID start rowData) w).
  split; [done|]. split; [done|]. unfold logWhole. rewrite export_whole.
  destruct (String.eqb googleSheetsFlag ""); [done|].
  destruct (Auth.run (serviceOf m) _ w) as [[r serviceLog] w1].
  pose proof (afterService_sheetsPhase (errOf r) googleSheetsFlag spreadsheetID start rowData
                (mainOf m) w1) as Hrest.
  unfold logOf in Hrest. destruct (run (mainOf m) _ w1) as [[o log] w2]. simpl in Hrest |- *.
  rewrite forallb_app, forallb_InService. by apply (forallb_Main sheetsPhase).
Qed.

(** The rest of [main] after [googleSheetsService] returned. *)
Lemma afterService_prints_after_success (rt : runtime) (w : world rt) (err : option error)
    (googleSheetsFlag spreadsheetID : string) (start : Time) (rowData : accumulator) :
  match outcomeOf rt (afterService err googleSheetsFlag spreadsheetID start rowData) w with
  | Done _ =>
      err = None
      /\ exists calls spreadsheet response before u,
           logOf rt (afterService err googleSheetsFlag spreadsheetID start rowData) w
           = before
             ++ [Answered
                   (Printf ("Wrote data to Google Sheet: "
                            +:+ SpreadsheetUrl spreadsheet +:+ newline)) u]
           /\ sheetsCalls before
              = calls ++ [BatchUpdateCall (SpreadsheetId spreadsheet) (resizeAll spreadsheet)
                            (inr response)]
           /\ last calls ≫= returnedBy = Some spreadsheet
           /\ printedOf before = []
  | Fatal _ =>
      printedOf (logOf rt (afterService err googleSheetsFlag spreadsheetID start rowData) w) = []
      /\ (sheetsCalls (logOf rt (afterService err googleSheetsFlag spreadsheetID start rowData) w)
          = []
          \/ exists calls c,
               sheetsCalls
                 (logOf rt (afterService err googleSheetsFlag spreadsheetID start rowData) w)
               = calls ++ [c]
               /\ returnedBy c = None)
  | Panic _ => False
  end.
Proof.
  unfold afterService, outcomeOf, logOf, createSheet, appendToSheet, resizeColumns.
  destruct err as [[msg]|]; simpl.
  { split; [done|by left]. }
  destruct (String.eqb googleSheetsFlag "new"); simpl.
  - destruct (answer rt _ (MapRange rowData) w) as [entries w2]. simpl.
    match goal with
    | |- context [answer rt _ (SpreadsheetsCreate ?s) w2] =>
        set (new := s); destruct (answer rt _ (SpreadsheetsCreate new) w2) as [[[msg]|sp] w3]
    end; simpl.
    { split; [done|]. right. by exists [], (CreateCall new (inl (Err msg))). }
    destruct (answer rt _ (SpreadsheetsBatchUpdate (SpreadsheetId sp) _) w3)
      as [[[msg]|response] w4] eqn:Hresize; simpl.
    { split; [done|]. right. eexists [_], _. by split. }
    destruct (answer rt _ (Printf _) w4) as [u w5]. simpl.
    split; [done|].
    exists [CreateCall new (inr sp)], sp, response.
    eexists [_; _; _], u. by repeat split.
  - destruct (answer rt _ (MapRange rowData) w) as [entries w2]. simpl.
    destruct (answer rt _ (SpreadsheetsBatchUpdate spreadsheetID _) w2)
      as [[[msg]|r1] w3]; simpl.
    { split; [done|]. right. by eexists [], _. }
    destruct (answer rt _ (SpreadsheetsBatchUpdate spreadsheetID _) w3)
      as [[[msg]|r2] w4]; simpl.
    { split; [done|]. right. by eexists [_], _. }
    destruct (answer rt _ (SpreadsheetsBatchUpdate (SpreadsheetId (UpdatedSpreadsheet r2)) _) w4)
      as [[[msg]|response] w5]; simpl.
    { split; [done|]. right. by eexists [_; _], _. }
    destruct (answer rt _ (Printf _) w5) as [u w6]. simpl.
    split; [done|].
    eexists [_; _], (UpdatedSpreadsheet r2), response.
    eexists [_; _; _; _], u. by repeat split.
Qed.

End WholeRuns.

(** X7.  In every run of [main], with what [googleSheetsService] does
    in it, the events come in two phases.  First the start-up, the data
    sources and the flat files: events of [main] only, none of them a
    call to the Sheets service or to [googleSheetsService].  Then the
    events of [googleSheetsService], which reads the credentials file
    and the token file, and of [main] only calls to the Sheets service
    and printed lines: no data source is asked and no flat file is
    created, written or closed any more.  With the reference "" the
    second phase is empty. *)
Theorem main_collects_before_it_exports (L : Auth.Libraries)
    (Join : string -> string -> string) (credentialsFile tokenFile : string)
    (m : machine) (w : mstate m) (f : flags) :
  (exists collecting exporting,
      logWhole credentialsFile tokenFile m (main Join f) w = (Main <$> collecting) ++ exporting
      /\ forallb notRemote collecting = true
      /\ forallb exportStep exporting = true)
  /\ (googleSheetsFlag f = "" ->
      exists collecting,
        logWhole credentialsFile tokenFile m (main Join f) w = Main <$> collecting
        /\ forallb notRemote collecting = true).
Proof.
  split.
  - apply (wholeThen_main credentialsFile tokenFile Join f
             (fun rowData spreadsheetID start =>
                export (googleSheetsFlag f) spreadsheetID start rowData) exportStep).
    intros rowData spreadsheetID start. apply export_wholeThen.
  - intros Hflag.
    destruct (wholeThen_main credentialsFile tokenFile Join f
                (fun rowData spreadsheetID start =>
                   export (googleSheetsFlag f) spreadsheetID start rowData) noStep)
      with (m := m) (w := w) as (pre & post & Hlog & Hpre & Hpost).
    + intros rowData spreadsheetID start m' w'. exists [], [].
      unfold logWhole. rewrite export_whole, Hflag. by repeat split.
    + destruct post as [|s post]; [|done]. exists pre. rewrite app_nil_r in Hlog.
      by split.
Qed.

(** X10.  The last part of [main], with what [googleSheetsService] does
    in it, never panics.  Its events are those of [googleSheetsService]
    followed by events of [main].  When it returns, either the reference
    was "" and nothing happened, or [googleSheetsService] returned a
    service, the last call to the Sheets service resized the columns of
    every tab of the spreadsheet that the call before it gave back and
    was accepted, and the last event of all prints the address of that
    spreadsheet: it is the only line [main] prints here, after the lines
    of [getOauthToken].  When it stops with a fatal error, [main] printed
    nothing, and its last call to the Sheets service, if there was one,
    was refused. *)
Theorem export_prints_after_success (L : Auth.Libraries)
    (credentialsFile tokenFile : string) (m : machine) (w : mstate m)
    (googleSheetsFlag spreadsheetID : string) (start : Time) (rowData : accumulator) :
  match outcomeWhole credentialsFile tokenFile m
          (export googleSheetsFlag spreadsheetID start rowData) w with
  | Done _ =>
      (googleSheetsFlag = ""
       /\ logWhole credentialsFile tokenFile m
            (export googleSheetsFlag spreadsheetID start rowData) w = [])
      \/ (googleSheetsFlag <> ""
          /\ exists srv calls spreadsheet response before u,
               Auth.resultOf (serviceOf m)
                 (Auth.googleSheetsService credentialsFile tokenFile) w = inr srv
               /\ logWhole credentialsFile tokenFile m
                    (export googleSheetsFlag spreadsheetID start rowData) w
                  = (InService
                       <$> Auth.logOf (serviceOf m)
                             (Auth.googleSheetsService credentialsFile tokenFile) w)
                    ++ (Main <$> before)
                    ++ [Main (Answered
                                (Printf ("Wrote data to Google Sheet: "
                                         +:+ SpreadsheetUrl spreadsheet +:+ newline)) u)]
               /\ sheetsCalls before
                  = calls ++ [BatchUpdateCall (SpreadsheetId spreadsheet)
                                (resizeAll spreadsheet) (inr response)]
               /\ last calls ≫= returnedBy = Some spreadsheet
               /\ printedOf before = [])
  | Fatal _ =>
      exists rest,
        logWhole credentialsFile tokenFile m
          (export googleSheetsFlag spreadsheetID start rowData) w
        = (InService
             <$> Auth.logOf (serviceOf m)
                   (Auth.googleSheetsService credentialsFile tokenFile) w)
          ++ (Main <$> rest)
        /\ printedOf rest = []
        /\ (sheetsCalls rest = []
            \/ exists calls c, sheetsCalls rest = calls ++ [c] /\ returnedBy c = None)
  | Panic _ => False
  end.
Proof.
  unfold outcomeWhole, logWhole, Auth.resultOf, Auth.logOf. rewrite export_whole.
  destruct (String.eqb googleSheetsFlag "") eqn:Hflag.
  { apply String.eqb_eq in Hflag. left. by split. }
  apply String.eqb_neq in Hflag.
  destruct (Auth.run (serviceOf m) _ w) as [[r serviceLog] w1].
  pose proof (afterService_prints_after_success (mainOf m) w1 (errOf r) googleSheetsFlag
                spreadsheetID start rowData) as Hrest.
  unfold outcomeOf, logOf in Hrest.
  destruct (run (mainOf m) _ w1) as [[[[]|msg|msg] log] w2]; cbn [fst snd] in Hrest |- *.
  - right. split; [done|].
    destruct Hrest as (Herr & calls & spreadsheet & response & before & u & -> & ? & ? & ?).
    destruct r as [err|srv]; [done|].
    exists srv, calls, spreadsheet, response, before, u. rewrite fmap_app. by repeat split.
  - exists log. by destruct Hrest.
  - done.
Qed.
